(** * Polymarket insider tracker: the detection pipeline

    A shallow embedding of the pipeline's source ([api.ts], [config.ts],
    [main.ts]) and the properties of it that the specification states.

    - JavaScript numbers that can be fractional (prices, sizes, USD values)
      are IEEE-754 binary64 values, taken from the Standard Library's
      [SpecFloat] (an executable model over [Z], no primitive floats).
    - Counts and millisecond delays are integers on which the source only
      ever performs exact operations; they are [nat] and [Z].
    - A JavaScript [Set] or [Map] whose iteration order the source relies on
      is a list in insertion order; where order is irrelevant it is a stdpp
      [gset] or [gmap].
    - The outside world (the three HTTP endpoints, the clock) is a record of
      scripted replies; process globals, world and an event trace are
      threaded through a small state monad.
    - The pipeline is given twice.  First with every reply at its declared
      type and every trade date valid, where no statement of the source
      throws; then, in [Runtime], with response bodies of any shape,
      exceptions and the [try]/[catch] of [pollTrades].  On declared
      replies the two are the same process. *)

From Stdlib Require Import ZArith Bool Lia Ascii String.
From Stdlib Require Import Floats.SpecFloat.
From stdpp Require Import gmap strings list pretty.

Local Open Scope string_scope.
Set Warnings "-abstract-large-number,-clear-no-such-hyp".

(** ** Strings

    A JavaScript string is a sequence of 16-bit code units, and [length],
    [slice] and [parseFloat] work on code units.  A [string] here is a
    sequence of the code units below 256, the character [n] being the code
    unit U+00[n]: what the source does to a string does not depend on the
    alphabet except in [parseFloat], whose white space is listed there. *)

Module Str.

(** [s.length]. *)
Definition len (s : string) : nat := String.length s.

Fixpoint take (n : nat) (s : string) : string :=
  match n, s with
  | S n', String c s' => String c (take n' s')
  | _, _ => EmptyString
  end.

Fixpoint drop (n : nat) (s : string) : string :=
  match n, s with
  | S n', String _ s' => drop n' s'
  | _, _ => s
  end.

(** Index resolution of [String.prototype.slice]: a negative index counts
    from the end, and every index is clamped to [0 .. length]. *)
Definition resolve (length : nat) (i : Z) : nat :=
  if (i <? 0)%Z then Z.to_nat (Z.max (Z.of_nat length + i) 0)
  else Nat.min (Z.to_nat i) length.

(** [s.slice(start, end)]; [None] is an omitted [end]. *)
Definition slice (s : string) (start : Z) (end_ : option Z) : string :=
  let from := resolve (len s) start in
  let to := match end_ with Some e => resolve (len s) e | None => len s end in
  take (to - from) (drop from s).

(** [s.includes(p)] on the characters of [s]. *)
Fixpoint includes (p s : string) : bool :=
  String.prefix p s ||
  match s with
  | EmptyString => false
  | String _ s' => includes p s'
  end.

(** [parts.join(sep)]. *)
Fixpoint join (sep : string) (parts : list string) : string :=
  match parts with
  | [] => ""
  | [p] => p
  | p :: rest => p +:+ sep +:+ join sep rest
  end.

End Str.

(** ** Numbers *)

Module Num.

Definition prec : Z := 53.
Definition emax : Z := 1024.

(** A JavaScript number: a binary64 value. *)
Definition number : Type := spec_float.

Definition NaN : number := S754_nan.
Definition zero : number := S754_zero false.

(** The number denoted by an integer literal of the source. *)
Definition of_Z (z : Z) : number := binary_normalize prec emax z 0 false.

(** [x * y]. *)
Definition mul (x y : number) : number := SFmul prec emax x y.

(** [x >= y]. *)
Definition geb (x y : number) : bool := SFleb y x.

(** [x === y] on numbers. *)
Definition eqb (x y : number) : bool := SFeqb x y.

(** ToBoolean on a number: [NaN], [+0] and [-0] are falsy. *)
Definition truthy (x : number) : bool :=
  match x with
  | S754_nan | S754_zero _ => false
  | _ => true
  end.

(** [x || 0]. *)
Definition or_zero (x : number) : number := if truthy x then x else zero.

(** The number nearest to [(-1)^s * m * 10^e] (ties to even): the value
    a decimal literal with digits [m] and decimal exponent [e] denotes. *)
Definition of_decimal (s : bool) (m : N) (e : Z) : number :=
  match m with
  | N0 => S754_zero s
  | Npos p =>
      if (0 <=? e)%Z
      then binary_normalize prec emax
             (cond_Zopp s (Zpos p * 10 ^ e)) 0 false
      else SFdiv prec emax
             (S754_finite s p 0)
             (S754_finite false (Z.to_pos (10 ^ (- e))) 0)
  end.

End Num.

(** ** [parseFloat]

    The global [parseFloat] on a string: skip leading white space, take the
    longest prefix that is a [StrDecimalLiteral] (sign, [Infinity], digits
    with an optional fraction and an optional exponent), and return the
    number it denotes, or [NaN] when there is no such prefix.  A character
    of [string] is a code unit below 256, character [n] being U+00[n]; the
    white space skipped is the [StrWhiteSpaceChar] among them: TAB, LF, VT,
    FF, CR, SP and NBSP (U+00A0). *)

Module ParseFloat.

Definition is_ws (c : ascii) : bool :=
  let n := nat_of_ascii c in
  (n =? 9)%nat || (n =? 10)%nat || (n =? 11)%nat || (n =? 12)%nat
  || (n =? 13)%nat || (n =? 32)%nat || (n =? 160)%nat.

Definition is_digit (c : ascii) : bool :=
  let n := nat_of_ascii c in (48 <=? n)%nat && (n <=? 57)%nat.

Definition digit_val (c : ascii) : N := N.of_nat (nat_of_ascii c - 48).

Fixpoint trim_start (s : string) : string :=
  match s with
  | String c s' => if is_ws c then trim_start s' else s
  | EmptyString => s
  end.

(** Reads a maximal run of decimal digits: the accumulated value (starting
    from [acc]), the number of digits read, and the rest of the input. *)
Fixpoint digits (acc : N) (s : string) : N * nat * string :=
  match s with
  | String c s' =>
      if is_digit c
      then let '(v, n, r) := digits (acc * 10 + digit_val c) s' in (v, S n, r)
      else (acc, 0, s)
  | EmptyString => (acc, 0, s)
  end.

(** An optional sign. *)
Definition sign (s : string) : bool * string :=
  match s with
  | String "-"%char s' => (true, s')
  | String "+"%char s' => (false, s')
  | _ => (false, s)
  end.

(** An optional [ExponentPart]: its value and what follows it; the
    value [0] and the input itself when the input does not start with a
    complete one. *)
Definition exponent (s : string) : Z * string :=
  match s with
  | String c s' =>
      if Ascii.eqb c "e"%char || Ascii.eqb c "E"%char
      then let '(neg, s'') := sign s' in
           let '(v, n, r) := digits 0 s'' in
           match n with
           | 0 => (0%Z, s)
           | _ => (cond_Zopp neg (Z.of_N v), r)
           end
      else (0%Z, s)
  | EmptyString => (0%Z, s)
  end.

(** The longest numeric literal at the head of the trimmed input: the
    number it denotes and the characters after it; [None] when the input
    starts with none. *)
Definition literal (input : string) : option (Num.number * string) :=
  let '(neg, s) := sign (trim_start input) in
  if String.prefix "Infinity" s then Some (S754_infinity neg, Str.drop 8 s)
  else
    let '(ip, ni, r) := digits 0 s in
    match r with
    | String "."%char r' =>
        let '(m, nf, r'') := digits ip r' in
        match (ni + nf)%nat with
        | 0 => None
        | _ =>
            let '(e, rest) := exponent r'' in
            Some (Num.of_decimal neg m (e - Z.of_nat nf), rest)
        end
    | _ =>
        match ni with
        | 0 => None
        | _ =>
            let '(e, rest) := exponent r in
            Some (Num.of_decimal neg ip e, rest)
        end
    end.

Definition parseFloat (input : string) : Num.number :=
  match literal input with
  | Some (v, _) => v
  | None => Num.NaN
  end.

(** A string that is not, as a whole, a numeric literal: no literal at
    its head, or characters left after it. *)
Definition malformed (input : string) : bool :=
  match literal input with
  | Some (_, EmptyString) => false
  | _ => true
  end.

(** Whether [junk], written after a complete literal, leaves it the
    longest literal at the head: [junk] is empty or starts with a character
    that is no digit, no ".", no "e" and no "E". *)
Definition ends_literal (junk : string) : bool :=
  match junk with
  | EmptyString => true
  | String c _ =>
      negb (is_digit c || Ascii.eqb c "." || Ascii.eqb c "e" || Ascii.eqb c "E")
  end.

End ParseFloat.

(** ** Insertion-ordered collections

    A JavaScript [Set] and [Map] iterate in insertion order, and the source
    relies on it when it evicts ("the first 5000", "the first key"). *)

Module JSSet.

(** The elements, oldest first; a set never lists an element twice. *)
Definition t : Type := list string.

Definition empty : t := [].
Definition has (x : string) (s : t) : bool := existsb (String.eqb x) s.
(** [s.add(x)]: a new element goes last, a present one keeps its place. *)
Definition add (x : string) (s : t) : t :=
  if has x s then s else (s ++ [x])%list.
Definition delete (x : string) (s : t) : t :=
  List.filter (fun y => negb (String.eqb x y)) s.
Definition size (s : t) : nat := List.length s.
(** [Array.from(s)]. *)
Definition to_array (s : t) : list string := s.
(** [for (const a of l) s.add(key(a))]. *)
Definition adds {A} (key : A -> string) (s : t) (l : list A) : t :=
  foldl (fun s a => add (key a) s) s l.

End JSSet.

Module JSMap.

(** The entries, oldest key first; a map never lists a key twice. *)
Definition t (V : Type) : Type := list (string * V).

Definition empty {V} : t V := [].

Fixpoint get {V} (k : string) (m : t V) : option V :=
  match m with
  | [] => None
  | (k', v) :: m' => if String.eqb k k' then Some v else get k m'
  end.

(** [m.set(k, v)]: a present key keeps its place and takes the new value,
    a new key goes last. *)
Fixpoint set {V} (k : string) (v : V) (m : t V) : t V :=
  match m with
  | [] => [(k, v)]
  | (k', v') :: m' =>
      if String.eqb k k' then (k, v) :: m' else (k', v') :: set k v m'
  end.

Definition delete {V} (k : string) (m : t V) : t V :=
  List.filter (fun kv => negb (String.eqb k (fst kv))) m.

Definition size {V} (m : t V) : nat := List.length m.

(** [m.keys().next().value]; [None] is [undefined]. *)
Definition first_key {V} (m : t V) : option string :=
  match m with
  | [] => None
  | (k, _) :: _ => Some k
  end.

Definition keys {V} (m : t V) : list string := List.map fst m.

End JSMap.

(** ** Types ([types.ts])

    Each interface is a record in a module of its name, with the fields the
    pipeline reads. *)

Inductive Side := BUY | SELL.

Definition Side_eqb (a b : Side) : bool :=
  match a, b with
  | BUY, BUY | SELL, SELL => true
  | _, _ => false
  end.

Module Trade.
(** [valueUsd] is the optional field the poll loop attaches. *)
Record t := mk {
  id : string;
  market : string;
  side : Side;
  size : string;
  price : string;
  outcome : string;
  owner : string;
  match_time : string;
  transaction_hash : string;
  valueUsd : option Num.number;
  }.

(** [{ ...trade, valueUsd: v }]. *)
Definition with_valueUsd (trade : t) (v : Num.number) : t :=
  mk (id trade) (market trade) (side trade) (size trade) (price trade)
     (outcome trade) (owner trade) (match_time trade)
     (transaction_hash trade) (Some v).

(** [trade.valueUsd || 0]. *)
Definition valueUsd_or_zero (trade : t) : Num.number :=
  match valueUsd trade with
  | Some v => Num.or_zero v
  | None => Num.zero
  end.
End Trade.

Module UserActivity.
(** [side] is optional: [None] when the record carries none. *)
Record t := mk {
  id : string;
  user : string;
  market : string;
  type : string;
  side : option Side;
  timestamp : string;
  }.
End UserActivity.

Module Market.
Record t := mk {
  id : string;
  question : string;
  conditionId : string;
  active : bool;
  closed : bool;
  }.
End Market.

(** The [{ uniqueMarkets, totalTrades }] object of [calculateUserStats]. *)
Module Stats.
Record t := mk {
  uniqueMarkets : nat;
  totalTrades : nat;
  }.
End Stats.

Module UserStats.
Record t := mk {
  address : string;
  uniqueMarkets : nat;
  totalTrades : nat;
  activities : list UserActivity.t;
  }.
End UserStats.

Inductive AlertLevel := HIGH | MEDIUM | LOW.

Module SuspectTrade.
Record t := mk {
  trade : Trade.t;
  userStats : UserStats.t;
  market : option Market.t;
  reason : string;
  alertLevel : AlertLevel;
  }.
End SuspectTrade.

(** ** Configuration ([config.ts])

    The thresholds are read once at start-up with [parseInt]; they are
    integers here.  The backoff schedule is fixed in the source. *)

Record Config := {
  MIN_TRADE_SIZE_USD : Z;
  MAX_UNIQUE_MARKETS : Z;
  POLL_INTERVAL_MS : Z;
  DISCORD_WEBHOOK_URL : string;
}.

(** The configuration of a process started with none of the variables set. *)
Definition default_config : Config :=
  {| MIN_TRADE_SIZE_USD := 1000;
     MAX_UNIQUE_MARKETS := 5;
     POLL_INTERVAL_MS := 2000;
     DISCORD_WEBHOOK_URL := "" |}.

Definition INITIAL_BACKOFF_MS : Z := 1000.
Definition MAX_BACKOFF_MS : Z := 60000.
Definition BACKOFF_MULTIPLIER : Z := 2.

(** ** API client ([api.ts]): the pure helpers *)

(** [maskAddress]. *)
Definition maskAddress (address : string) : string :=
  if String.eqb address "" || (Str.len address <? 10)%nat then address
  else Str.slice address 0 (Some 5%Z) +:+ "..." +:+ Str.slice address (-3) None.

(** [calculateTradeValue]. *)
Definition calculateTradeValue (trade : Trade.t) : Num.number :=
  let price := Num.or_zero (ParseFloat.parseFloat (Trade.price trade)) in
  let size := Num.or_zero (ParseFloat.parseFloat (Trade.size trade)) in
  Num.mul price size.

(** The test [activity.type === "trade" || activity.side]. *)
Definition qualifies (activity : UserActivity.t) : bool :=
  String.eqb (UserActivity.type activity) "trade"
  || match UserActivity.side activity with Some _ => true | None => false end.

(** One iteration of the loop of [calculateUserStats] on its two locals. *)
Definition count_activity (acc : gset string * nat) (activity : UserActivity.t)
  : gset string * nat :=
  if qualifies activity
  then ({[UserActivity.market activity]} ∪ acc.1, S acc.2)
  else acc.

(** [calculateUserStats]. *)
Definition calculateUserStats (address : string)
    (activities : list UserActivity.t) : Stats.t :=
  let '(uniqueMarkets, totalTrades) := foldl count_activity (∅, 0) activities in
  {| Stats.uniqueMarkets := size uniqueMarkets;
     Stats.totalTrades := totalTrades |}.

(** ** The outside world and the process state

    Each endpoint is a script of the replies it will give, one per request,
    in order; once a script is used up the endpoint is unreachable and every
    further request fails (a network error, no HTTP status).  [clock n] is
    what the [n]-th call of [Date.now()] returns. *)

Inductive reply (R : Type) :=
  | Ok (data : R)
  | Status429
  | Failure.
Arguments Ok {R} data.
Arguments Status429 {R}.
Arguments Failure {R}.

Record World := mkWorld {
  trades_api : list (reply (list Trade.t));
  activity_api : list (reply (list UserActivity.t));
  markets_api : list (reply (list Market.t));
  clock : nat -> Z;
}.

Inductive fetcher :=
  | FetchRecentTrades
  | FetchUserActivity (address : string)
  | FetchMarketDetails (conditionId : string).

(** What the process does that can be seen from outside, in order: a call
    of one of the three fetchers of [api.ts], one HTTP request, one backoff
    sleep, the summary line of a poll, the console block of an alert, the
    webhook post of an alert, the sleep between two polls, the error line
    of the [catch] of [pollTrades]. *)
Inductive event :=
  | Call (f : fetcher)
  | Request (endpoint : string)
  | Sleep (ms : Z)
  | Summary (trades new large aggressive suspects : nat)
  | Alert (suspect : SuspectTrade.t)
  | Webhook (suspect : SuspectTrade.t)
  | Idle (ms : Z)
  | PollError.

(** An entry of [userStatsCache]. *)
Module CachedStats.
Record t := mk {
  uniqueMarkets : nat;
  totalTrades : nat;
  timestamp : Z;
  }.
Definition stats (c : t) : Stats.t :=
  {| Stats.uniqueMarkets := uniqueMarkets c; Stats.totalTrades := totalTrades c |}.
End CachedStats.

(** The module-level variables of [api.ts] and [main.ts], the world, the
    number of clock readings taken, and the trace so far. *)
Record Machine := mkMachine {
  currentBackoff : Z;
  processedTradeIds : JSSet.t;
  userStatsCache : JSMap.t CachedStats.t;
  marketCache : gmap string (option Market.t);
  pollCount : nat;
  world : World;
  ticks : nat;
  trace : list event;
}.

(** The process as it starts. *)
Definition boot (w : World) : Machine :=
  {| currentBackoff := INITIAL_BACKOFF_MS;
     processedTradeIds := JSSet.empty;
     userStatsCache := JSMap.empty;
     marketCache := ∅;
     pollCount := 0;
     world := w;
     ticks := 0;
     trace := [] |}.

Definition set_currentBackoff (b : Z) (m : Machine) : Machine :=
  mkMachine b (processedTradeIds m) (userStatsCache m) (marketCache m)
            (pollCount m) (world m) (ticks m) (trace m).
Definition set_processedTradeIds (s : JSSet.t) (m : Machine) : Machine :=
  mkMachine (currentBackoff m) s (userStatsCache m) (marketCache m)
            (pollCount m) (world m) (ticks m) (trace m).
Definition set_userStatsCache (c : JSMap.t CachedStats.t) (m : Machine) : Machine :=
  mkMachine (currentBackoff m) (processedTradeIds m) c (marketCache m)
            (pollCount m) (world m) (ticks m) (trace m).
Definition set_marketCache (c : gmap string (option Market.t)) (m : Machine) : Machine :=
  mkMachine (currentBackoff m) (processedTradeIds m) (userStatsCache m) c
            (pollCount m) (world m) (ticks m) (trace m).
Definition set_pollCount (n : nat) (m : Machine) : Machine :=
  mkMachine (currentBackoff m) (processedTradeIds m) (userStatsCache m)
            (marketCache m) n (world m) (ticks m) (trace m).
Definition set_world (w : World) (m : Machine) : Machine :=
  mkMachine (currentBackoff m) (processedTradeIds m) (userStatsCache m)
            (marketCache m) (pollCount m) w (ticks m) (trace m).
Definition set_ticks (n : nat) (m : Machine) : Machine :=
  mkMachine (currentBackoff m) (processedTradeIds m) (userStatsCache m)
            (marketCache m) (pollCount m) (world m) n (trace m).
Definition set_trace (t : list event) (m : Machine) : Machine :=
  mkMachine (currentBackoff m) (processedTradeIds m) (userStatsCache m)
            (marketCache m) (pollCount m) (world m) (ticks m) t.

(** ** The state monad of the process *)

Definition M (A : Type) : Type := Machine -> A * Machine.

Global Instance M_ret : MRet M := fun A (a : A) m => (a, m).
Global Instance M_bind : MBind M :=
  fun A B (f : A -> M B) (c : M A) m => let r := c m in f r.1 r.2.

Definition gets {A} (f : Machine -> A) : M A := fun m => (f m, m).
Definition modify (f : Machine -> Machine) : M unit := fun m => (tt, f m).
Definition emit (evs : list event) : M unit :=
  modify (fun m => set_trace (trace m ++ evs)%list m).

(** [Date.now()]. *)
Definition Date_now : M Z :=
  fun m => (clock (world m) (ticks m), set_ticks (S (ticks m)) m).

(** ** API client ([api.ts]): rate limiting and the fetchers *)

(** An endpoint: its name and its script in the world. *)
Record Endpoint (R : Type) := mkEndpoint {
  endpoint_name : string;
  script : World -> list (reply R);
  set_script : list (reply R) -> World -> World;
}.
Arguments endpoint_name {R} _.
Arguments script {R} _ _.
Arguments set_script {R} _ _ _.

Definition trades_endpoint : Endpoint (list Trade.t) :=
  {| endpoint_name := "/trades";
     script := trades_api;
     set_script s w := mkWorld s (activity_api w) (markets_api w) (clock w) |}.
Definition activity_endpoint : Endpoint (list UserActivity.t) :=
  {| endpoint_name := "/activity";
     script := activity_api;
     set_script s w := mkWorld (trades_api w) s (markets_api w) (clock w) |}.
Definition markets_endpoint : Endpoint (list Market.t) :=
  {| endpoint_name := "/markets";
     script := markets_api;
     set_script s w := mkWorld (trades_api w) (activity_api w) s (clock w) |}.

Section WithRetry.
Context {R T : Type}.
(** [fn] of the source is one [axios.get] on [endpoint] followed by
    [extract] on the response data. *)
Variable endpoint : string.
Variable extract : R -> T.

(** [withRetry] on the replies to come and the current backoff: the
    result ([None] is [null]), the replies left, the backoff left behind
    and what happened.  The recursion of the source on a 429 is the
    recursive call on the rest of the script. *)
Fixpoint withRetry_from (replies : list (reply R)) (backoff : Z)
  : option T * list (reply R) * Z * list event :=
  match replies with
  | Ok data :: rest =>
      (Some (extract data), rest, INITIAL_BACKOFF_MS, [Request endpoint])
  | Status429 :: rest =>
      let r :=
        withRetry_from rest
          (Z.min (backoff * BACKOFF_MULTIPLIER) MAX_BACKOFF_MS) in
      (r.1.1.1, r.1.1.2, r.1.2, Request endpoint :: Sleep backoff :: r.2)
  | Failure :: rest => (None, rest, backoff, [Request endpoint])
  | [] => (None, [], backoff, [Request endpoint])
  end.
End WithRetry.

(** [withRetry] on the process state. *)
Definition withRetry {R T} (ep : Endpoint R) (extract : R -> T) : M (option T) :=
  fun m =>
    let r := withRetry_from (endpoint_name ep) extract
               (script ep (world m)) (currentBackoff m) in
    (r.1.1.1,
     set_trace (trace m ++ r.2)%list
       (set_currentBackoff r.1.2
          (set_world (set_script ep r.1.1.2 (world m)) m))).

(** [fetchRecentTrades]; [result || []]. *)
Definition fetchRecentTrades (limit : nat) : M (list Trade.t) :=
  emit [Call FetchRecentTrades];;
  result ← withRetry trades_endpoint (fun data => data);
  mret (default [] result).

(** [fetchUserActivity]; [result || []]. *)
Definition fetchUserActivity (address : string) : M (list UserActivity.t) :=
  emit [Call (FetchUserActivity address)];;
  result ← withRetry activity_endpoint (fun data => data);
  mret (default [] result).

(** [fetchMarketDetails]; the request returns [response.data[0] || null]. *)
Definition fetchMarketDetails (conditionId : string) : M (option Market.t) :=
  emit [Call (FetchMarketDetails conditionId)];;
  result ← withRetry markets_endpoint (fun data => head data);
  mret (mjoin result).

(** ** The tracker ([main.ts]) *)

Definition USER_CACHE_TTL_MS : Z := 60000.

(** The processed-set cap of [pollTrades]: past 10000 identifiers, the
    first 5000 of [Array.from(processedTradeIds)] are deleted one by one. *)
Definition limit_processed (processed : JSSet.t) : JSSet.t :=
  if (10000 <? JSSet.size processed)%nat
  then let toRemove := firstn 5000 (JSSet.to_array processed) in
       foldl (fun s id => JSSet.delete id s) processed toRemove
  else processed.

(** The deduplication at the head of [pollTrades] on the processed set:
    the new trades of the batch and the set the cycle leaves behind. *)
Definition dedup (trades : list Trade.t) (processed : JSSet.t)
  : list Trade.t * JSSet.t :=
  let newTrades :=
    List.filter (fun trade => negb (JSSet.has (Trade.id trade) processed)) trades in
  let processed' :=
    foldl (fun s trade => JSSet.add (Trade.id trade) s) processed newTrades in
  (newTrades, limit_processed processed').

(** The cache cap of [analyzeTrade]: past 1000 entries the first key, when
    it is a truthy string, is deleted. *)
Definition limit_cache (cache : JSMap.t CachedStats.t) : JSMap.t CachedStats.t :=
  if (1000 <? JSMap.size cache)%nat
  then match JSMap.first_key cache with
       | Some oldestKey =>
           if String.eqb oldestKey "" then cache else JSMap.delete oldestKey cache
       | None => cache
       end
  else cache.

(** The miss branch of the wallet-history lookup of [analyzeTrade]: one
    activity fetch, the stats computed from it, cached under [now]. *)
Definition refreshUserStats (walletAddress : string) (now : Z) : M Stats.t :=
  activities ← fetchUserActivity walletAddress;
  let userStats := calculateUserStats walletAddress activities in
  modify (fun m =>
    set_userStatsCache
      (limit_cache
         (JSMap.set walletAddress
            (CachedStats.mk (Stats.uniqueMarkets userStats)
               (Stats.totalTrades userStats) now)
            (userStatsCache m))) m);;
  mret userStats.

(** The wallet-history lookup of [analyzeTrade]: the cached stats while
    they are younger than the TTL, else the miss branch. *)
Definition lookupUserStats (walletAddress : string) : M Stats.t :=
  cachedStats ← gets (fun m => JSMap.get walletAddress (userStatsCache m));
  now ← Date_now;
  match cachedStats with
  | Some c =>
      if (now - CachedStats.timestamp c <? USER_CACHE_TTL_MS)%Z
      then mret (CachedStats.stats c)
      else refreshUserStats walletAddress now
  | None => refreshUserStats walletAddress now
  end.

(** The market lookup of [analyzeTrade] through [marketCache]; a [null]
    answer is cached like any other. *)
Definition lookupMarket (conditionId : string) : M (option Market.t) :=
  cached ← gets (fun m => marketCache m !! conditionId);
  match cached with
  | None =>
      market ← fetchMarketDetails conditionId;
      modify (fun m => set_marketCache (<[conditionId := market]> (marketCache m)) m);;
      mret market
  | Some market => mret market
  end.

Section Tracker.
(** The configuration the process started with, and the host's
    locale-dependent [Number.prototype.toLocaleString()]. *)
Variable cfg : Config.
Variable toLocaleString : Num.number -> string.

(** The first entries of [reasons]. *)
Definition base_reasons (uniqueMarkets : nat) : list string :=
  [ "Fresh Wallet (" +:+ pretty uniqueMarkets +:+ " lifetime market"
      +:+ (if (uniqueMarkets =? 1)%nat then "" else "s") +:+ ")";
    "Taker BUY (aggressive)" ].

(** The tier chain of [analyzeTrade] for a wallet that passed the
    freshness test: the alert level and the reasons. *)
Definition classify (uniqueMarkets : nat) (valueUsd : Num.number)
  : AlertLevel * list string :=
  let reasons := base_reasons uniqueMarkets in
  if (uniqueMarkets <=? 2)%nat && Num.geb valueUsd (Num.of_Z 5000)
  then (HIGH,
        (reasons ++ ["Large Position ($" +:+ toLocaleString valueUsd +:+ ")"])%list)
  else if (uniqueMarkets <=? 1)%nat
  then (HIGH, (reasons ++ ["Brand New Wallet"])%list)
  else if (uniqueMarkets <=? 3)%nat
  then (MEDIUM, reasons)
  else (LOW, reasons).

(** [analyzeTrade]. *)
Definition analyzeTrade (trade : Trade.t) : M (option SuspectTrade.t) :=
  let walletAddress := Trade.owner trade in
  if String.eqb walletAddress "" then mret None
  else
    userStats ← lookupUserStats walletAddress;
    if (Z.of_nat (Stats.uniqueMarkets userStats) <=? MAX_UNIQUE_MARKETS cfg)%Z
    then
      market ← lookupMarket (Trade.market trade);
      let valueUsd := Trade.valueUsd_or_zero trade in
      let '(alertLevel, reasons) :=
        classify (Stats.uniqueMarkets userStats) valueUsd in
      mret (Some
        {| SuspectTrade.trade := trade;
           SuspectTrade.userStats :=
             {| UserStats.address := walletAddress;
                UserStats.uniqueMarkets := Stats.uniqueMarkets userStats;
                UserStats.totalTrades := Stats.totalTrades userStats;
                UserStats.activities := [] |};
           SuspectTrade.market := market;
           SuspectTrade.reason := Str.join " | " reasons;
           SuspectTrade.alertLevel := alertLevel |})
    else mret None.

(** [alertSuspect]: the console block, then the webhook post when a
    webhook is configured.  The post is made for a [match_time] that is a
    valid date; [Runtime.sendDiscordAlert] has the other case. *)
Definition alertSuspect (suspect : SuspectTrade.t) : M unit :=
  emit [Alert suspect];;
  if String.eqb (DISCORD_WEBHOOK_URL cfg) "" then mret tt
  else emit [Webhook suspect].

(** The loop of [pollTrades] over the aggressive trades. *)
Fixpoint analyzeTrades (trades : list Trade.t) : M (list SuspectTrade.t) :=
  match trades with
  | [] => mret []
  | trade :: rest =>
      suspect ← analyzeTrade trade;
      suspects ← analyzeTrades rest;
      mret (match suspect with
            | Some s => s :: suspects
            | None => suspects
            end)
  end.

(** The loop of [pollTrades] over the suspects. *)
Fixpoint alertSuspects (suspects : list SuspectTrade.t) : M unit :=
  match suspects with
  | [] => mret tt
  | suspect :: rest => alertSuspect suspect;; alertSuspects rest
  end.

(** [{ ...trade, valueUsd: calculateTradeValue(trade) }]. *)
Definition with_value (trade : Trade.t) : Trade.t :=
  Trade.with_valueUsd trade (calculateTradeValue trade).

(** The two filters of [pollTrades]. *)
Definition is_large (trade : Trade.t) : bool :=
  match Trade.valueUsd trade with
  | Some v => Num.geb v (Num.of_Z (MIN_TRADE_SIZE_USD cfg))
  | None => false
  end.
Definition is_aggressive (trade : Trade.t) : bool :=
  Side_eqb (Trade.side trade) BUY && negb (String.eqb (Trade.owner trade) "").

(** [pollTrades]: one cycle, on replies of the declared types: nothing in
    the [try] throws; [Runtime.pollTrades] has the [catch]. *)
Definition pollTrades : M unit :=
  modify (fun m => set_pollCount (S (pollCount m)) m);;
  trades ← fetchRecentTrades 100;
  processed ← gets processedTradeIds;
  let '(newTrades, processed') := dedup trades processed in
  modify (set_processedTradeIds processed');;
  let tradesWithValue := List.map with_value newTrades in
  let largeTrades := List.filter is_large tradesWithValue in
  let aggressiveTrades := List.filter is_aggressive largeTrades in
  suspects ← analyzeTrades aggressiveTrades;
  emit [Summary (length trades) (length newTrades) (length largeTrades)
          (length aggressiveTrades) (length suspects)];;
  alertSuspects suspects.

(** [main] when the shutdown signal arrives during the sleep that follows
    the [polls]-th poll after the initial one; [Runtime.main] also has the
    runs stopped during a poll. *)
Fixpoint poll_loop (polls : nat) : M unit :=
  match polls with
  | 0 => emit [Idle (POLL_INTERVAL_MS cfg)]
  | S n => emit [Idle (POLL_INTERVAL_MS cfg)];; pollTrades;; poll_loop n
  end.
Definition main (polls : nat) : M unit := pollTrades;; poll_loop polls.

End Tracker.

(** What a retry loop on these replies ends with: the data of the first
    reply that is not a 429, [None] when that reply is a failure or the
    script runs out first. *)
Fixpoint outcome {R} (replies : list (reply R)) : option R :=
  match replies with
  | Ok data :: _ => Some data
  | Status429 :: rest => outcome rest
  | Failure :: _ => None
  | [] => None
  end.

(** The cache entry the next lookup of a wallet would use: the wallet's
    entry if it is younger than the TTL at the next clock reading. *)
Definition fresh_entry (walletAddress : string) (m : Machine)
  : option CachedStats.t :=
  match JSMap.get walletAddress (userStatsCache m) with
  | Some c =>
      if (clock (world m) (ticks m) - CachedStats.timestamp c
          <? USER_CACHE_TTL_MS)%Z
      then Some c else None
  | None => None
  end.

(** The trades a poll hands to [analyzeTrade], from its new trades. *)
Definition aggressiveTrades (cfg : Config) (newTrades : list Trade.t)
  : list Trade.t :=
  List.filter is_aggressive
    (List.filter (is_large cfg) (List.map with_value newTrades)).

(** The identifiers the trade feed will ever show. *)
Fixpoint script_ids (replies : list (reply (list Trade.t))) : gset string :=
  match replies with
  | [] => ∅
  | Ok batch :: rest => list_to_set (List.map Trade.id batch) ∪ script_ids rest
  | _ :: rest => script_ids rest
  end.

(** No batch of the trade feed lists an identifier twice. *)
Definition batches_distinct (replies : list (reply (list Trade.t))) : Prop :=
  forall batch, Ok batch ∈ replies -> NoDup (List.map Trade.id batch).

(** The alerts of a trace, in order. *)
Definition alerts (t : list event) : list SuspectTrade.t :=
  omap (fun e => match e with Alert s => Some s | _ => None end) t.

(** The trade identifiers of the alerts of a trace, in order. *)
Definition alert_ids (t : list event) : list string :=
  List.map (fun s => Trade.id (SuspectTrade.trade s)) (alerts t).

(** The calls of [fetchUserActivity] in a trace. *)
Definition activity_fetches (t : list event) : list string :=
  omap (fun e => match e with Call (FetchUserActivity a) => Some a | _ => None end) t.

(** The backoff sleeps of a trace, in order. *)
Definition sleeps (t : list event) : list Z :=
  omap (fun e => match e with Sleep ms => Some ms | _ => None end) t.

(** ** A host locale

    [Number.prototype.toLocaleString()] of a host whose default locale is
    en-US: at most three fraction digits, no trailing zeros, the integer
    digits grouped by three with commas.  The fraction is rounded half away
    from zero from the exact binary value; a host that rounds the shortest
    decimal form of the number instead differs on numbers whose shortest
    form ends in a 5 at the fourth fraction digit (5000.0025) and on
    integers past 2^53, whose digits it pads with zeros (1e23); the two
    agree on every number below 2^53 with at most three fraction digits.
    The properties take the host's function as a parameter; this one serves
    the examples.  (The sign it prints for an infinity is U+221E, written
    here in the bytes of its UTF-8 form.) *)

Module EnUS.

(** Commas between groups of three digits, counted from the right. *)
Fixpoint group (digits : string) : string :=
  match digits with
  | EmptyString => EmptyString
  | String c rest =>
      String c
        (if (0 <? Str.len rest)%nat && (Str.len rest mod 3 =? 0)%nat
         then "," +:+ group rest else group rest)
  end.

(** The magnitude [m * 2^e] in thousandths, rounded half up. *)
Definition thousandths (m : positive) (e : Z) : Z :=
  if (0 <=? e)%Z then Zpos m * 2 ^ e * 1000
  else (2 * (Zpos m * 1000) + 2 ^ (- e)) / (2 * 2 ^ (- e)).

Definition fraction (f : Z) : string :=
  let d1 := pretty (f / 100)%Z in
  let d2 := pretty ((f / 10) mod 10)%Z in
  let d3 := pretty (f mod 10)%Z in
  if (f =? 0)%Z then ""
  else if negb (f mod 10 =? 0)%Z then "." +:+ d1 +:+ d2 +:+ d3
  else if negb ((f / 10) mod 10 =? 0)%Z then "." +:+ d1 +:+ d2
  else "." +:+ d1.

Definition toLocaleString (x : Num.number) : string :=
  match x with
  | S754_nan => "NaN"
  | S754_infinity s => (if s then "-" else "") +:+ "∞"
  | S754_zero s => (if s then "-" else "") +:+ "0"
  | S754_finite s m e =>
      let t := thousandths m e in
      (if s then "-" else "") +:+ group (pretty (t / 1000)%Z)
        +:+ fraction (t mod 1000)
  end.

End EnUS.

(** ** The vocabulary of the properties *)

(** The markets of the qualifying records of a history. *)
Definition qualifying_markets (activities : list UserActivity.t) : list string :=
  List.map UserActivity.market (List.filter qualifies activities).

(** The delay before the [k]-th retry of an unbroken run of 429 replies
    that started at the floor. *)
Definition retry_delay (k : nat) : Z :=
  Z.min (INITIAL_BACKOFF_MS * BACKOFF_MULTIPLIER ^ Z.of_nat k) MAX_BACKOFF_MS.

(** The alert level [analyzeTrade] decides, [None] when it returns
    [null]. *)
Definition verdict (cfg : Config) (toLocaleString : Num.number -> string)
    (trade : Trade.t) (m : Machine) : option AlertLevel :=
  SuspectTrade.alertLevel <$> (analyzeTrade cfg toLocaleString trade m).1.

(** The identifiers the cap removes from a grown set. *)
Definition evicted (processed : JSSet.t) : list string :=
  if (10000 <? JSSet.size processed)%nat then firstn 5000 processed else [].

(** The processed set once the new identifiers of a batch are added,
    before the cap is applied. *)
Definition grown (trades : list Trade.t) (processed : JSSet.t) : JSSet.t :=
  JSSet.adds Trade.id processed (dedup trades processed).1.

(** The cycles of a run whose polls fetch [batches], one after the other,
    from a processed set: the new trades of each cycle and the identifiers
    its cap evicts. *)
Fixpoint cycles (batches : list (list Trade.t)) (processed : JSSet.t)
  : list (list Trade.t * list string) :=
  match batches with
  | [] => []
  | batch :: rest =>
      ((dedup batch processed).1, evicted (grown batch processed))
        :: cycles rest (dedup batch processed).2
  end.

(** What holds of [userStatsCache] in every state the process reaches:
    no key twice, at most 1000 entries, no empty key. *)
Definition cache_ok (cache : JSMap.t CachedStats.t) : Prop :=
  NoDup (JSMap.keys cache) /\ JSMap.size cache <= 1000 /\ "" ∉ JSMap.keys cache.

(** What the dedup argument maintains from one cycle to the next, while
    the feed shows fewer than 10000 identifiers and no batch repeats one:
    the set has no repetition, every identifier alerted on is in it, and
    no identifier was alerted on twice. *)
Definition dedup_inv (m : Machine) : Prop :=
  NoDup (processedTradeIds m) /\
  batches_distinct (trades_api (world m)) /\
  size (script_ids (trades_api (world m))
          ∪ list_to_set (processedTradeIds m)) < 10000 /\
  (forall id, id ∈ alert_ids (trace m) -> id ∈ processedTradeIds m) /\
  NoDup (alert_ids (trace m)).

(** Wallet-history lookups one after the other, as a poll makes them. *)
Fixpoint lookupAll (wallets : list string) : M (list Stats.t) :=
  match wallets with
  | [] => mret []
  | walletAddress :: rest =>
      stats ← lookupUserStats walletAddress;
      others ← lookupAll rest;
      mret (stats :: others)
  end.

(** ** Sample data *)

Definition sample_trade (price size : string) : Trade.t :=
  {| Trade.id := "0xf1a2";
     Trade.market := "0x5c3e";
     Trade.side := BUY;
     Trade.size := size;
     Trade.price := price;
     Trade.outcome := "Yes";
     Trade.owner := "0x31a56e9E690c621eD21De08Cb559e9524Cdb8eD9";
     Trade.match_time := "2025-01-01T00:00:00Z";
     Trade.transaction_hash := "0x9b1d";
     Trade.valueUsd := None |}.

(** The trade numbered [k] of a feed that numbers its trades. *)
Definition numbered_trade (k : nat) : Trade.t :=
  {| Trade.id := pretty k;
     Trade.market := "0x5c3e";
     Trade.side := BUY;
     Trade.size := "10";
     Trade.price := "0.5";
     Trade.outcome := "Yes";
     Trade.owner := "0x31a56e9E690c621eD21De08Cb559e9524Cdb8eD9";
     Trade.match_time := "2025-01-01T00:00:00Z";
     Trade.transaction_hash := "0x9b1d";
     Trade.valueUsd := None |}.

Definition numbered_trades (n : nat) : list Trade.t :=
  List.map numbered_trade (seq 0 n).

Definition sample_history (markets : list string) : list UserActivity.t :=
  List.map (fun market =>
    {| UserActivity.id := "0xa0";
       UserActivity.user := "0x31a56e9E690c621eD21De08Cb559e9524Cdb8eD9";
       UserActivity.market := market;
       UserActivity.type := "trade";
       UserActivity.side := Some BUY;
       UserActivity.timestamp := "2024-12-31T00:00:00Z" |}) markets.

(** A world whose first activity reply is a history over [markets]. *)
Definition sample_world (trades : list Trade.t) (markets : list string) : World :=
  {| trades_api := [Ok trades];
     activity_api := [Ok (sample_history markets)];
     markets_api := [Ok []];
     clock := fun _ => 1735689600000%Z |}.

(** ** More vocabulary: what a trace shows *)

(** The events of the fetchers: calls, requests and backoff sleeps. *)
Definition is_net_event (e : event) : bool :=
  match e with
  | Call _ | Request _ | Sleep _ => true
  | _ => false
  end.

(** The webhook posts of a trace, in order. *)
Definition webhooks (t : list event) : list SuspectTrade.t :=
  omap (fun e => match e with Webhook s => Some s | _ => None end) t.

(** The summary lines of a trace, in order. *)
Definition summaries (t : list event) : list (nat * nat * nat * nat * nat) :=
  omap (fun e => match e with
                 | Summary a b c d e => Some (a, b, c, d, e)
                 | _ => None
                 end) t.

(** The sleeps between polls of a trace, in order. *)
Definition idles (t : list event) : list Z :=
  omap (fun e => match e with Idle ms => Some ms | _ => None end) t.

(** The calls of [fetchMarketDetails] in a trace. *)
Definition market_fetches (t : list event) : list string :=
  omap (fun e => match e with Call (FetchMarketDetails c) => Some c | _ => None end) t.

(** The HTTP requests of a trace, by endpoint. *)
Definition requests (t : list event) : list string :=
  omap (fun e => match e with Request ep => Some ep | _ => None end) t.

(** A computation keeps a property of the process state. *)
Definition preserves {A} (Inv : Machine -> Prop) (c : M A) : Prop :=
  forall m, Inv m -> Inv (c m).2.

(** The backoff after [n] more throttled replies, from [backoff]. *)
Definition raised (n : nat) (backoff : Z) : Z :=
  Nat.iter n (fun b => Z.min (b * BACKOFF_MULTIPLIER) MAX_BACKOFF_MS) backoff.

(** A delay between the floor and the ceiling of the backoff schedule. *)
Definition in_range (ms : Z) : Prop :=
  (INITIAL_BACKOFF_MS <= ms <= MAX_BACKOFF_MS)%Z.

(** The backoff and every backoff sleep so far are within the schedule. *)
Definition backoff_ok (m : Machine) : Prop :=
  in_range (currentBackoff m) /\ Forall in_range (sleeps (trace m)).

(** No market was fetched twice, and every market fetched is cached. *)
Definition market_inv (m : Machine) : Prop :=
  NoDup (market_fetches (trace m)) /\
  forall c, c ∈ market_fetches (trace m) -> is_Some (marketCache m !! c).

(** What [alertSuspects] writes for a list of suspects. *)
Definition alert_events (cfg : Config) (suspects : list SuspectTrade.t)
  : list event :=
  flat_map (fun s =>
    Alert s :: (if String.eqb (DISCORD_WEBHOOK_URL cfg) "" then [] else [Webhook s]))
    suspects.

(** The footprint the three fetching steps of a cycle share: fetcher
    events only, the backoff kept in range, and the poll counter and the
    processed set untouched. *)
Definition fetch_step {A} (c : M A) : Prop :=
  forall m,
    let r := c m in
    (exists evs,
       trace r.2 = (trace m ++ evs)%list /\
       forallb is_net_event evs = true /\
       (in_range (currentBackoff m) ->
          in_range (currentBackoff r.2) /\ Forall in_range (sleeps evs))) /\
    processedTradeIds r.2 = processedTradeIds m /\
    pollCount r.2 = pollCount m.

(** A step that leaves the market cache, the market endpoint and the
    record of market fetches alone. *)
Definition market_quiet {A} (c : M A) : Prop :=
  forall m,
    let r := c m in
    marketCache r.2 = marketCache m /\
    markets_api (world r.2) = markets_api (world m) /\
    market_fetches (trace r.2) = market_fetches (trace m).

(** Every webhook post goes with an alert: with a webhook configured the
    posts are the alerts, in order; without one there is none. *)
Definition webhook_inv (cfg : Config) (m : Machine) : Prop :=
  webhooks (trace m) =
    if String.eqb (DISCORD_WEBHOOK_URL cfg) "" then [] else alerts (trace m).

(** What [analyzeTrade] puts in a suspect: the trade's wallet, its stats
    at or under the ceiling, no activity list, and the level and reason of
    the tier chain. *)
Definition suspect_ok (cfg : Config) (toLocaleString : Num.number -> string)
    (s : SuspectTrade.t) : Prop :=
  let trade := SuspectTrade.trade s in
  let stats := SuspectTrade.userStats s in
  let tier := classify toLocaleString (UserStats.uniqueMarkets stats)
                (Trade.valueUsd_or_zero trade) in
  Trade.owner trade <> "" /\
  UserStats.address stats = Trade.owner trade /\
  UserStats.activities stats = [] /\
  (Z.of_nat (UserStats.uniqueMarkets stats) <= MAX_UNIQUE_MARKETS cfg)%Z /\
  SuspectTrade.alertLevel s = tier.1 /\
  SuspectTrade.reason s = Str.join " | " tier.2.

(** Every batch the trade feed will return holds at most [n] trades. *)
Definition batches_within (n : nat) (replies : list (reply (list Trade.t))) : Prop :=
  forall batch, Ok batch ∈ replies -> length batch <= n.

(** The processed set has no repetition and at most 10000 identifiers,
    and the feed's batches are of at most 5000 trades. *)
Definition processed_ok (m : Machine) : Prop :=
  NoDup (processedTradeIds m) /\
  JSSet.size (processedTradeIds m) <= 10000 /\
  batches_within 5000 (trades_api (world m)).

(** ** The process at run time

    The definitions above take every reply at its declared type, as the
    type annotations of the source do, and every [match_time] as a date
    that [toISOString] accepts.  [Runtime] is the same pipeline without
    these two assumptions: a reply with a 2xx status carries whatever body
    the server sent, a statement can throw, and [pollTrades] catches what
    its body throws.  A run can also be stopped during a poll. *)

Module Runtime.

(** [response.data] as the process finds it: a value of the declared
    type, [null], or a value that is no array and cannot be iterated, such
    as the object [{ error: ... }]. *)
Inductive body (R : Type) :=
  | Declared (data : R)
  | Null
  | NotArray.
Arguments Declared {R} data.
Arguments Null {R}.
Arguments NotArray {R}.

Record World := mkWorld {
  trades_api : list (reply (body (list Trade.t)));
  activity_api : list (reply (body (list UserActivity.t)));
  markets_api : list (reply (body (list Market.t)));
  clock : nat -> Z;
}.

Record Machine := mkMachine {
  currentBackoff : Z;
  processedTradeIds : JSSet.t;
  userStatsCache : JSMap.t CachedStats.t;
  marketCache : gmap string (option Market.t);
  pollCount : nat;
  world : World;
  ticks : nat;
  trace : list event;
}.

Definition boot (w : World) : Machine :=
  {| currentBackoff := INITIAL_BACKOFF_MS;
     processedTradeIds := JSSet.empty;
     userStatsCache := JSMap.empty;
     marketCache := ∅;
     pollCount := 0;
     world := w;
     ticks := 0;
     trace := [] |}.

Definition set_currentBackoff (b : Z) (m : Machine) : Machine :=
  mkMachine b (processedTradeIds m) (userStatsCache m) (marketCache m)
            (pollCount m) (world m) (ticks m) (trace m).
Definition set_processedTradeIds (s : JSSet.t) (m : Machine) : Machine :=
  mkMachine (currentBackoff m) s (userStatsCache m) (marketCache m)
            (pollCount m) (world m) (ticks m) (trace m).
Definition set_userStatsCache (c : JSMap.t CachedStats.t) (m : Machine) : Machine :=
  mkMachine (currentBackoff m) (processedTradeIds m) c (marketCache m)
            (pollCount m) (world m) (ticks m) (trace m).
Definition set_marketCache (c : gmap string (option Market.t)) (m : Machine) : Machine :=
  mkMachine (currentBackoff m) (processedTradeIds m) (userStatsCache m) c
            (pollCount m) (world m) (ticks m) (trace m).
Definition set_pollCount (n : nat) (m : Machine) : Machine :=
  mkMachine (currentBackoff m) (processedTradeIds m) (userStatsCache m)
            (marketCache m) n (world m) (ticks m) (trace m).
Definition set_world (w : World) (m : Machine) : Machine :=
  mkMachine (currentBackoff m) (processedTradeIds m) (userStatsCache m)
            (marketCache m) (pollCount m) w (ticks m) (trace m).
Definition set_ticks (n : nat) (m : Machine) : Machine :=
  mkMachine (currentBackoff m) (processedTradeIds m) (userStatsCache m)
            (marketCache m) (pollCount m) (world m) n (trace m).
Definition set_trace (t : list event) (m : Machine) : Machine :=
  mkMachine (currentBackoff m) (processedTradeIds m) (userStatsCache m)
            (marketCache m) (pollCount m) (world m) (ticks m) t.

(** How a statement ends: with a value, or by throwing. *)
Inductive result (A : Type) :=
  | Normal (a : A)
  | Thrown.
Arguments Normal {A} a.
Arguments Thrown {A}.

Definition M (A : Type) : Type := Machine -> result A * Machine.

Global Instance M_ret : MRet M := fun A (a : A) m => (Normal a, m).
Global Instance M_bind : MBind M :=
  fun A B (f : A -> M B) (c : M A) m =>
    let r := c m in
    match r.1 with
    | Normal a => f a r.2
    | Thrown => (Thrown, r.2)
    end.

Definition gets {A} (f : Machine -> A) : M A := fun m => (Normal (f m), m).
Definition modify (f : Machine -> Machine) : M unit := fun m => (Normal tt, f m).
Definition emit (evs : list event) : M unit :=
  modify (fun m => set_trace (trace m ++ evs)%list m).
Definition throw {A} : M A := fun m => (Thrown, m).

(** [try { c } catch (error) { handler }]. *)
Definition catch (c handler : M unit) : M unit :=
  fun m =>
    let r := c m in
    match r.1 with
    | Normal _ => r
    | Thrown => handler r.2
    end.

(** [Date.now()]. *)
Definition Date_now : M Z :=
  fun m => (Normal (clock (world m) (ticks m)), set_ticks (S (ticks m)) m).

Record Endpoint (R : Type) := mkEndpoint {
  endpoint_name : string;
  script : World -> list (reply (body R));
  set_script : list (reply (body R)) -> World -> World;
}.
Arguments endpoint_name {R} _.
Arguments script {R} _ _.
Arguments set_script {R} _ _ _.

Definition trades_endpoint : Endpoint (list Trade.t) :=
  {| endpoint_name := "/trades";
     script := trades_api;
     set_script s w := mkWorld s (activity_api w) (markets_api w) (clock w) |}.
Definition activity_endpoint : Endpoint (list UserActivity.t) :=
  {| endpoint_name := "/activity";
     script := activity_api;
     set_script s w := mkWorld (trades_api w) s (markets_api w) (clock w) |}.
Definition markets_endpoint : Endpoint (list Market.t) :=
  {| endpoint_name := "/markets";
     script := markets_api;
     set_script s w := mkWorld (trades_api w) (activity_api w) s (clock w) |}.

Section WithRetry.
Context {R T : Type}.
(** [fn] of the source is one [axios.get] on [endpoint] followed by
    [extract] on the response data; [extract] gives [None] when it throws,
    which [withRetry] catches like any error that is not a 429. *)
Variable endpoint : string.
Variable extract : body R -> option T.

Fixpoint withRetry_from (replies : list (reply (body R))) (backoff : Z)
  : option T * list (reply (body R)) * Z * list event :=
  match replies with
  | Ok data :: rest =>
      match extract data with
      | Some result => (Some result, rest, INITIAL_BACKOFF_MS, [Request endpoint])
      | None => (None, rest, backoff, [Request endpoint])
      end
  | Status429 :: rest =>
      let r :=
        withRetry_from rest
          (Z.min (backoff * BACKOFF_MULTIPLIER) MAX_BACKOFF_MS) in
      (r.1.1.1, r.1.1.2, r.1.2, Request endpoint :: Sleep backoff :: r.2)
  | Failure :: rest => (None, rest, backoff, [Request endpoint])
  | [] => (None, [], backoff, [Request endpoint])
  end.
End WithRetry.

(** [withRetry] on the process state; it throws nothing. *)
Definition withRetry {R T} (ep : Endpoint R) (extract : body R -> option T)
  : M (option T) :=
  fun m =>
    let r := withRetry_from (endpoint_name ep) extract
               (script ep (world m)) (currentBackoff m) in
    (Normal r.1.1.1,
     set_trace (trace m ++ r.2)%list
       (set_currentBackoff r.1.2
          (set_world (set_script ep r.1.1.2 (world m)) m))).

(** [result || []] on what [withRetry] returned for [response.data]:
    [null], from a failure or as the body, gives the empty array; every
    other body is truthy and goes through as it is. *)
Definition or_empty {R} (result : option (body (list R))) : body (list R) :=
  match result with
  | Some (Declared data) => Declared data
  | Some NotArray => NotArray
  | Some Null | None => Declared []
  end.

(** [fetchRecentTrades]. *)
Definition fetchRecentTrades (limit : nat) : M (body (list Trade.t)) :=
  emit [Call FetchRecentTrades];;
  result ← withRetry trades_endpoint Some;
  mret (or_empty result).

(** [fetchUserActivity]. *)
Definition fetchUserActivity (address : string) : M (body (list UserActivity.t)) :=
  emit [Call (FetchUserActivity address)];;
  result ← withRetry activity_endpoint Some;
  mret (or_empty result).

(** [response.data[0] || null]: indexing [null] throws, indexing an object
    that is no array gives [undefined]. *)
Definition first_market (data : body (list Market.t)) : option (option Market.t) :=
  match data with
  | Declared markets => Some (head markets)
  | Null => None
  | NotArray => Some None
  end.

(** [fetchMarketDetails]. *)
Definition fetchMarketDetails (conditionId : string) : M (option Market.t) :=
  emit [Call (FetchMarketDetails conditionId)];;
  result ← withRetry markets_endpoint first_market;
  mret (mjoin result).

(** [calculateUserStats] on what [fetchUserActivity] returned: the loop
    [for (const activity of activities)] throws on a value that cannot be
    iterated. *)
Definition calculateUserStats (address : string)
    (activities : body (list UserActivity.t)) : M Stats.t :=
  match activities with
  | Declared activities => mret (calculateUserStats address activities)
  | Null | NotArray => throw
  end.

(** The miss branch of the wallet-history lookup of [analyzeTrade]. *)
Definition refreshUserStats (walletAddress : string) (now : Z) : M Stats.t :=
  activities ← fetchUserActivity walletAddress;
  userStats ← calculateUserStats walletAddress activities;
  modify (fun m =>
    set_userStatsCache
      (limit_cache
         (JSMap.set walletAddress
            (CachedStats.mk (Stats.uniqueMarkets userStats)
               (Stats.totalTrades userStats) now)
            (userStatsCache m))) m);;
  mret userStats.

(** The wallet-history lookup of [analyzeTrade]. *)
Definition lookupUserStats (walletAddress : string) : M Stats.t :=
  cachedStats ← gets (fun m => JSMap.get walletAddress (userStatsCache m));
  now ← Date_now;
  match cachedStats with
  | Some c =>
      if (now - CachedStats.timestamp c <? USER_CACHE_TTL_MS)%Z
      then mret (CachedStats.stats c)
      else refreshUserStats walletAddress now
  | None => refreshUserStats walletAddress now
  end.

(** The market lookup of [analyzeTrade] through [marketCache]. *)
Definition lookupMarket (conditionId : string) : M (option Market.t) :=
  cached ← gets (fun m => marketCache m !! conditionId);
  match cached with
  | None =>
      market ← fetchMarketDetails conditionId;
      modify (fun m => set_marketCache (<[conditionId := market]> (marketCache m)) m);;
      mret market
  | Some market => mret market
  end.

(** How a run of [main] is stopped: the signal arrives during a poll, or
    during the sleep that follows one. *)
Inductive Stop := DuringPoll | DuringSleep.

Section Tracker.
(** The configuration, the host's [Number.prototype.toLocaleString()], and
    the host's reading of date strings: whether [new Date(s)] is a valid
    date, which [toISOString] needs. *)
Variable cfg : Config.
Variable toLocaleString : Num.number -> string.
Variable Date_valid : string -> bool.

(** [analyzeTrade]. *)
Definition analyzeTrade (trade : Trade.t) : M (option SuspectTrade.t) :=
  let walletAddress := Trade.owner trade in
  if String.eqb walletAddress "" then mret None
  else
    userStats ← lookupUserStats walletAddress;
    if (Z.of_nat (Stats.uniqueMarkets userStats) <=? MAX_UNIQUE_MARKETS cfg)%Z
    then
      market ← lookupMarket (Trade.market trade);
      let valueUsd := Trade.valueUsd_or_zero trade in
      let '(alertLevel, reasons) :=
        classify toLocaleString (Stats.uniqueMarkets userStats) valueUsd in
      mret (Some
        {| SuspectTrade.trade := trade;
           SuspectTrade.userStats :=
             {| UserStats.address := walletAddress;
                UserStats.uniqueMarkets := Stats.uniqueMarkets userStats;
                UserStats.totalTrades := Stats.totalTrades userStats;
                UserStats.activities := [] |};
           SuspectTrade.market := market;
           SuspectTrade.reason := Str.join " | " reasons;
           SuspectTrade.alertLevel := alertLevel |})
    else mret None.

(** [sendDiscordAlert]: the embed is built before the [try], and its
    [timestamp] is [new Date(trade.match_time).toISOString()], which throws
    on an invalid date; a failure of the post itself is caught. *)
Definition sendDiscordAlert (suspect : SuspectTrade.t) : M unit :=
  if Date_valid (Trade.match_time (SuspectTrade.trade suspect))
  then emit [Webhook suspect]
  else throw.

(** [alertSuspect]: the console block, then the webhook when one is
    configured. *)
Definition alertSuspect (suspect : SuspectTrade.t) : M unit :=
  emit [Alert suspect];;
  if String.eqb (DISCORD_WEBHOOK_URL cfg) "" then mret tt
  else sendDiscordAlert suspect.

(** The loop of [pollTrades] over the aggressive trades. *)
Fixpoint analyzeTrades (trades : list Trade.t) : M (list SuspectTrade.t) :=
  match trades with
  | [] => mret []
  | trade :: rest =>
      suspect ← analyzeTrade trade;
      suspects ← analyzeTrades rest;
      mret (match suspect with
            | Some s => s :: suspects
            | None => suspects
            end)
  end.

(** The loop of [pollTrades] over the suspects. *)
Fixpoint alertSuspects (suspects : list SuspectTrade.t) : M unit :=
  match suspects with
  | [] => mret tt
  | suspect :: rest => alertSuspect suspect;; alertSuspects rest
  end.

(** The body of the [try] of [pollTrades]; [trades.filter] throws on a
    value that is no array. *)
Definition cycle : M unit :=
  fetched ← fetchRecentTrades 100;
  match fetched with
  | Declared trades =>
      processed ← gets processedTradeIds;
      let '(newTrades, processed') := dedup trades processed in
      modify (set_processedTradeIds processed');;
      let tradesWithValue := List.map with_value newTrades in
      let largeTrades := List.filter (is_large cfg) tradesWithValue in
      let aggressiveTrades := List.filter is_aggressive largeTrades in
      suspects ← analyzeTrades aggressiveTrades;
      emit [Summary (length trades) (length newTrades) (length largeTrades)
              (length aggressiveTrades) (length suspects)];;
      alertSuspects suspects
  | Null | NotArray => throw
  end.

(** [pollTrades]: the counter, then the cycle inside [try]/[catch]. *)
Definition pollTrades : M unit :=
  modify (fun m => set_pollCount (S (pollCount m)) m);;
  catch cycle (emit [PollError]).

(** The loop of [main] after the initial poll, for a run that makes
    [polls] more polls: every poll of the loop follows a sleep, and the
    loop ends with one more sleep when the signal arrives during a sleep. *)
Fixpoint poll_loop (polls : nat) (stop : Stop) : M unit :=
  match polls with
  | 0 =>
      match stop with
      | DuringSleep => emit [Idle (POLL_INTERVAL_MS cfg)]
      | DuringPoll => mret tt
      end
  | S n => emit [Idle (POLL_INTERVAL_MS cfg)];; pollTrades;; poll_loop n stop
  end.

(** [main]. *)
Definition main (polls : nat) (stop : Stop) : M unit :=
  pollTrades;; poll_loop polls stop.

End Tracker.

(** The cache entry the next lookup of a wallet would use. *)
Definition fresh_entry (walletAddress : string) (m : Machine)
  : option CachedStats.t :=
  match JSMap.get walletAddress (userStatsCache m) with
  | Some c =>
      if (clock (world m) (ticks m) - CachedStats.timestamp c
          <? USER_CACHE_TTL_MS)%Z
      then Some c else None
  | None => None
  end.

End Runtime.

(** A reply at its declared type, a world of such replies, and the process
    state over it: how the process of the definitions above reads at run
    time. *)
Definition declared {R} (r : reply R) : reply (Runtime.body R) :=
  match r with
  | Ok data => Ok (Runtime.Declared data)
  | Status429 => Status429
  | Failure => Failure
  end.

Definition of_world (w : World) : Runtime.World :=
  {| Runtime.trades_api := declared <$> trades_api w;
     Runtime.activity_api := declared <$> activity_api w;
     Runtime.markets_api := declared <$> markets_api w;
     Runtime.clock := clock w |}.

Definition of_machine (m : Machine) : Runtime.Machine :=
  {| Runtime.currentBackoff := currentBackoff m;
     Runtime.processedTradeIds := processedTradeIds m;
     Runtime.userStatsCache := userStatsCache m;
     Runtime.marketCache := marketCache m;
     Runtime.pollCount := pollCount m;
     Runtime.world := of_world (world m);
     Runtime.ticks := ticks m;
     Runtime.trace := trace m |}.

(** A computation of the process above and its run-time reading do the
    same on every state of declared replies, up to how the result reads at
    run time, and the latter throws nothing. *)
Definition agrees {A A'} (g : A -> A') (c' : Runtime.M A') (c : M A) : Prop :=
  forall m, c' (of_machine m) = (Runtime.Normal (g (c m).1), of_machine (c m).2).





(** * Properties *)

(** ** Strings *)

Module StrFacts.
Import Str.

Lemma app_nil b : "" +:+ b = b.
Proof. reflexivity. Qed.

Lemma app_cons c a b : String c a +:+ b = String c (a +:+ b).
Proof. reflexivity. Qed.

Lemma len_cons c a : len (String c a) = S (len a).
Proof. reflexivity. Qed.

Lemma len_app a b : len (a +:+ b) = (len a + len b)%nat.
Proof.
  induction a as [|c a IH]; [done|].
  rewrite app_cons, !len_cons, IH. done.
Qed.

Lemma take_drop n s : take n s +:+ drop n s = s.
Proof.
  revert s; induction n as [|n IH]; intros [|c s]; try done.
  simpl take. simpl drop. rewrite app_cons. f_equal. apply IH.
Qed.

Lemma len_take n s : (n <= len s)%nat -> len (take n s) = n.
Proof.
  revert s; induction n as [|n IH]; intros [|c s]; try done.
  - unfold len; simpl; lia.
  - rewrite len_cons. intros H. simpl take. rewrite len_cons.
    f_equal. apply IH. lia.
Qed.

Lemma len_drop n s : len (drop n s) = (len s - n)%nat.
Proof.
  revert s; induction n as [|n IH]; intros [|c s]; try done.
  simpl drop. rewrite len_cons. apply IH.
Qed.

Lemma take_app_len a b : take (len a) (a +:+ b) = a.
Proof.
  induction a as [|c a IH]; [by destruct b|].
  rewrite app_cons, len_cons. simpl take. f_equal. apply IH.
Qed.

Lemma drop_app_len a b : drop (len a) (a +:+ b) = b.
Proof.
  induction a as [|c a IH]; [done|].
  rewrite app_cons, len_cons. simpl drop. apply IH.
Qed.

Lemma take_all n s : (len s <= n)%nat -> take n s = s.
Proof.
  revert s; induction n as [|n IH]; intros [|c s]; try done.
  - unfold len; simpl; lia.
  - rewrite len_cons. intros H. simpl take. f_equal. apply IH. lia.
Qed.

Lemma drop_drop a b s : drop a (drop b s) = drop (b + a) s.
Proof.
  revert s; induction b as [|b IH]; intros [|c s]; try done.
  - by destruct a.
  - simpl. apply IH.
Qed.

Lemma app_assoc a b c : (a +:+ b) +:+ c = a +:+ b +:+ c.
Proof.
  induction a as [|x a IH]; [done|].
  rewrite !app_cons. f_equal. apply IH.
Qed.

(** [s.slice(0, k)] and [s.slice(-k)] on a string of at least [k]
    characters. *)
Lemma slice_head (k : nat) s :
  (k <= len s)%nat -> slice s 0 (Some (Z.of_nat k)) = take k s.
Proof.
  intros H. unfold slice, resolve. simpl.
  destruct (Z.of_nat k <? 0)%Z eqn:E; [lia|].
  rewrite Nat2Z.id, Nat.min_l by done. by rewrite Nat.sub_0_r.
Qed.

Lemma slice_tail (k : nat) s :
  (0 < k <= len s)%nat -> slice s (- Z.of_nat k) None = drop (len s - k) s.
Proof.
  intros H. unfold slice, resolve.
  destruct (- Z.of_nat k <? 0)%Z eqn:E; [|lia].
  replace (Z.to_nat (Z.max (Z.of_nat (len s) + - Z.of_nat k) 0))
    with (len s - k)%nat by lia.
  apply take_all. rewrite len_drop. lia.
Qed.

End StrFacts.

(** ** Address masking *)

(** A long address is cut to its first five and last three characters. *)
Lemma maskAddress_long address :
  (10 <= Str.len address)%nat ->
  maskAddress address =
    Str.take 5 address +:+ "..." +:+ Str.drop (Str.len address - 3) address.
Proof.
  intros H. unfold maskAddress.
  destruct (String.eqb_spec address "") as [->|_]; [simpl in H; lia|].
  destruct (Nat.ltb_spec (Str.len address) 10) as [?|_]; [lia|]. simpl orb. cbv iota.
  rewrite (StrFacts.slice_head 5), (StrFacts.slice_tail 3) by lia. done.
Qed.

Lemma maskAddress_short address :
  (Str.len address < 10)%nat -> maskAddress address = address.
Proof.
  intros H. unfold maskAddress.
  destruct (Nat.ltb_spec (Str.len address) 10) as [_|?]; [|lia].
  by rewrite orb_true_r.
Qed.

(** What [maskAddress] returns when it cuts: five characters, the dots,
    three characters. *)
Lemma maskAddress_masked p q :
  Str.len p = 5%nat -> Str.len q = 3%nat ->
  maskAddress (p +:+ "..." +:+ q) = p +:+ "..." +:+ q.
Proof.
  intros Hp Hq. rewrite maskAddress_long.
  - rewrite !StrFacts.len_app, Hp, Hq. simpl Str.len.
    replace (5 + (3 + 3) - 3)%nat with (Str.len (p +:+ "...")) 
      by (rewrite StrFacts.len_app, Hp; done).
    rewrite <- Hp at 1. rewrite StrFacts.take_app_len.
    rewrite <- (StrFacts.app_assoc p "..." q) at 1.
    by rewrite StrFacts.drop_app_len.
  - rewrite !StrFacts.len_app, Hp, Hq. simpl. lia.
Qed.

(** C9. Masking a masked address returns it unchanged; an address of ten
    characters or more is shown as its first five characters, three dots
    and its last three characters (eleven characters in all); a shorter
    one is shown as it is. *)
Theorem maskAddress_idempotent_fixed_affixes :
  (forall address, maskAddress (maskAddress address) = maskAddress address) /\
  (forall address, (10 <= Str.len address)%nat ->
     exists p mid q,
       address = p +:+ mid +:+ q /\ Str.len p = 5%nat /\ Str.len q = 3%nat /\
       maskAddress address = p +:+ "..." +:+ q /\
       Str.len (maskAddress address) = 11%nat) /\
  (forall address, (Str.len address < 10)%nat -> maskAddress address = address).
Proof.
  assert (Hlong : forall address, (10 <= Str.len address)%nat ->
     exists p mid q,
       address = p +:+ mid +:+ q /\ Str.len p = 5%nat /\ Str.len q = 3%nat /\
       maskAddress address = p +:+ "..." +:+ q /\
       Str.len (maskAddress address) = 11%nat).
  { intros address H.
    exists (Str.take 5 address),
      (Str.take (Str.len address - 8) (Str.drop 5 address)),
      (Str.drop (Str.len address - 3) address).
    assert (Hp : Str.len (Str.take 5 address) = 5%nat)
      by (apply StrFacts.len_take; lia).
    assert (Hq : Str.len (Str.drop (Str.len address - 3) address) = 3%nat)
      by (rewrite StrFacts.len_drop; lia).
    split_and!; try done.
    - rewrite <- (StrFacts.take_drop 5 address) at 1. f_equal.
      rewrite <- (StrFacts.take_drop (Str.len address - 8) (Str.drop 5 address)) at 1.
      f_equal.
      rewrite StrFacts.drop_drop. f_equal. lia.
    - by apply maskAddress_long.
    - rewrite maskAddress_long by done.
      rewrite !StrFacts.len_app, Hp, Hq. done. }
  split_and!; [|done|apply maskAddress_short].
  intros address.
  destruct (Nat.lt_ge_cases (Str.len address) 10) as [Hs|Hl].
  - rewrite (maskAddress_short address Hs). by apply maskAddress_short.
  - destruct (Hlong address Hl) as (p & mid & q & _ & Hp & Hq & -> & _).
    by apply maskAddress_masked.
Qed.

Lemma maskAddress_idempotent_fixed_affixes_witness :
  maskAddress "0x31a56e9E690c621eD21De08Cb559e9524Cdb8eD9" = "0x31a...eD9" /\
  maskAddress "0x31a...eD9" = "0x31a...eD9" /\
  maskAddress "0x31a" = "0x31a".
Proof.
  destruct maskAddress_idempotent_fixed_affixes as (Hidem & Hlong & Hshort).
  split_and!.
  - reflexivity.
  - exact (Hidem "0x31a56e9E690c621eD21De08Cb559e9524Cdb8eD9").
  - apply (Hshort "0x31a"). simpl. lia.
Defined.

(** ** Wallet statistics *)

Lemma count_activity_foldl activities (seen : gset string) (n : nat) :
  foldl count_activity (seen, n) activities =
    (list_to_set (qualifying_markets activities) ∪ seen,
     (n + length (List.filter qualifies activities))%nat).
Proof.
  revert seen n. induction activities as [|a activities IH]; intros seen n.
  - simpl. f_equal; [set_solver | lia].
  - simpl foldl. unfold count_activity at 2, qualifying_markets. simpl List.filter.
    destruct (qualifies a) eqn:Hq.
    + rewrite IH. simpl. f_equal; [|lia].
      unfold qualifying_markets. set_solver.
    + rewrite IH. done.
Qed.

Lemma size_list_to_set_le (l : list string) :
  size (list_to_set l : gset string) <= length l.
Proof.
  induction l as [|x l IH].
  - change (size (∅ : gset string) <= 0). by rewrite size_empty.
  - change (size ({[x]} ∪ (list_to_set l : gset string)) <= S (length l)).
    rewrite size_union_alt, size_singleton.
    assert (size ((list_to_set l : gset string) ∖ {[x]}) <= size (list_to_set l : gset string))
      by (apply subseteq_size; set_solver).
    lia.
Qed.

Lemma calculateUserStats_unfold address activities :
  calculateUserStats address activities =
    {| Stats.uniqueMarkets :=
         size (list_to_set (qualifying_markets activities) : gset string);
       Stats.totalTrades := length (List.filter qualifies activities) |}.
Proof.
  unfold calculateUserStats. rewrite count_activity_foldl.
  f_equal. f_equal. set_solver.
Qed.

(** C10. For every activity history the number of distinct markets is at
    most the number of trades counted; the records counted are those whose
    type is "trade" or that carry a side, and the markets are theirs. *)
Theorem calculateUserStats_uniqueMarkets_le_totalTrades :
  forall address activities,
    let stats := calculateUserStats address activities in
    Stats.uniqueMarkets stats <= Stats.totalTrades stats /\
    Stats.totalTrades stats = length (List.filter qualifies activities) /\
    Stats.uniqueMarkets stats =
      size (list_to_set (qualifying_markets activities) : gset string) /\
    (forall activity,
       qualifies activity = true <->
       UserActivity.type activity = "trade" \/
       UserActivity.side activity <> None).
Proof.
  intros address activities. cbv zeta.
  rewrite calculateUserStats_unfold. simpl. split_and!; try done.
  - etrans; [apply size_list_to_set_le|].
    unfold qualifying_markets. by rewrite length_map.
  - intros activity. unfold qualifies.
    rewrite orb_true_iff, String.eqb_eq.
    destruct (UserActivity.side activity); naive_solver.
Qed.

(** ** Trade value *)

(** [parseFloat] on sample inputs: 0.42 is the binary64 value
    [0x1.ae147ae147ae1p-2]; white space and a sign may lead; what follows
    the literal is ignored; without a literal the result is [NaN]. *)
Example parseFloat_samples :
  ParseFloat.parseFloat "0.42" = S754_finite false 7566047373982433 (-54) /\
  ParseFloat.parseFloat "1000" = Num.of_Z 1000 /\
  ParseFloat.parseFloat "  -1.5e3 USD" = Num.of_Z (-1500) /\
  ParseFloat.parseFloat ".5" = ParseFloat.parseFloat "0.5" /\
  ParseFloat.parseFloat "Infinity" = S754_infinity false /\
  ParseFloat.parseFloat "" = Num.NaN /\
  ParseFloat.parseFloat "n/a" = Num.NaN /\
  ParseFloat.parseFloat "." = Num.NaN.
Proof. vm_compute. done. Qed.

Example toLocaleString_samples :
  EnUS.toLocaleString (Num.of_Z 6000) = "6,000" /\
  EnUS.toLocaleString (ParseFloat.parseFloat "1234567.25") = "1,234,567.25" /\
  EnUS.toLocaleString (ParseFloat.parseFloat "12.50") = "12.5" /\
  EnUS.toLocaleString (Num.of_Z 0) = "0".
Proof. vm_compute. done. Qed.

(** C7, as stated, fails: "12abc" is not a numeric string, yet the field
    parses as 12, not as 0. *)
Lemma calculateTradeValue_malformed_counterexample :
  ~ (forall trade,
       ParseFloat.malformed (Trade.price trade) = true ->
       Num.or_zero (ParseFloat.parseFloat (Trade.price trade)) = Num.zero).
Proof.
  intros H. specialize (H (sample_trade "12abc" "2") eq_refl).
  vm_compute in H. discriminate H.
Qed.

Example calculateTradeValue_numeric_prefix :
  calculateTradeValue (sample_trade "12abc" "2") = Num.of_Z 24.
Proof. vm_compute. reflexivity. Qed.

(** *** The longest numeric prefix *)

Module ParseFloatFacts.
Import ParseFloat.

(** The pattern matches of [sign], [exponent] and [literal] as tests. *)
Lemma sign_eq s :
  sign s =
    match s with
    | String c s' =>
        if Ascii.eqb c "-" then (true, s')
        else if Ascii.eqb c "+" then (false, s')
        else (false, s)
    | EmptyString => (false, s)
    end.
Proof. destruct s as [|[[] [] [] [] [] [] [] []] s']; reflexivity. Qed.

Lemma literal_eq input :
  literal input =
    let '(neg, s) := sign (trim_start input) in
    if String.prefix "Infinity" s then Some (S754_infinity neg, Str.drop 8 s)
    else
      let '(ip, ni, r) := digits 0 s in
      let whole :=
        match ni with
        | 0 => None
        | _ => let '(e, rest) := exponent r in Some (Num.of_decimal neg ip e, rest)
        end in
      match r with
      | String c r' =>
          if Ascii.eqb c "."
          then let '(m, nf, r'') := digits ip r' in
               match (ni + nf)%nat with
               | 0 => None
               | _ => let '(e, rest) := exponent r'' in
                      Some (Num.of_decimal neg m (e - Z.of_nat nf), rest)
               end
          else whole
      | EmptyString => whole
      end.
Proof.
  unfold literal. destruct (sign (trim_start input)) as [neg s].
  destruct (String.prefix "Infinity" s); [done|].
  destruct (digits 0 s) as [[ip ni] r].
  destruct r as [|[[] [] [] [] [] [] [] []] r']; reflexivity.
Qed.

Lemma trim_start_app a b :
  trim_start a <> "" -> trim_start (a +:+ b) = trim_start a +:+ b.
Proof.
  induction a as [|c a IH]; [done|].
  rewrite StrFacts.app_cons. simpl. destruct (is_ws c); [exact IH|done].
Qed.

Lemma sign_app a b :
  a <> "" -> sign (a +:+ b) = ((sign a).1, (sign a).2 +:+ b).
Proof.
  destruct a as [|c a]; [done|]. intros _.
  rewrite StrFacts.app_cons, !sign_eq.
  destruct (Ascii.eqb c "-"); [done|]. by destruct (Ascii.eqb c "+").
Qed.

Lemma ends_literal_digit junk :
  ends_literal junk = true ->
  match junk with String c _ => is_digit c = false | EmptyString => True end.
Proof.
  destruct junk as [|c j]; [done|]. simpl. intros H.
  apply negb_true_iff in H. by destruct (is_digit c).
Qed.

Lemma digits_app a : forall acc b,
  match b with String c _ => is_digit c = false | EmptyString => True end ->
  digits acc (a +:+ b) =
    let '(v, n, r) := digits acc a in (v, n, r +:+ b).
Proof.
  induction a as [|c a IH]; intros acc b Hb.
  - rewrite StrFacts.app_nil. destruct b as [|c b]; [done|]. simpl. by rewrite Hb.
  - rewrite StrFacts.app_cons. simpl. destruct (is_digit c); [|done].
    rewrite (IH _ _ Hb). by destruct (digits _ a) as [[? ?] ?].
Qed.

Lemma exponent_eq s :
  exponent s =
    match s with
    | String c s' =>
        if Ascii.eqb c "e" || Ascii.eqb c "E"
        then let '(neg, s'') := sign s' in
             let '(v, n, r) := digits 0 s'' in
             match n with
             | 0 => (0%Z, s)
             | _ => (cond_Zopp neg (Z.of_N v), r)
             end
        else (0%Z, s)
    | EmptyString => (0%Z, s)
    end.
Proof. reflexivity. Qed.

Lemma exponent_app_end a e b :
  exponent a = (e, "") -> ends_literal b = true ->
  exponent (a +:+ b) = (e, b).
Proof.
  intros Ha Hb. destruct a as [|c a].
  - rewrite StrFacts.app_nil. injection Ha as <-.
    destruct b as [|d b]; [done|]. rewrite exponent_eq.
    simpl in Hb. apply negb_true_iff in Hb.
    apply orb_false_iff in Hb as [Hb HE].
    apply orb_false_iff in Hb as [Hb He]. by rewrite He, HE.
  - rewrite StrFacts.app_cons. rewrite exponent_eq in Ha |- *.
    destruct (Ascii.eqb c "e" || Ascii.eqb c "E"); [|done].
    destruct a as [|d a].
    { done. }
    rewrite sign_app by done.
    destruct (sign (String d a)) as [neg s''] eqn:Hs. cbn [fst snd].
    rewrite (digits_app s'' 0%N b (ends_literal_digit _ Hb)).
    destruct (digits 0 s'') as [[v n] r].
    destruct n as [|n]; [done|].
    injection Ha as <- ->. by rewrite StrFacts.app_nil.
Qed.

Lemma prefix_split p : forall s,
  String.prefix p s = true -> exists s0, s = p +:+ s0.
Proof.
  induction p as [|a p IH]; intros s H.
  - by exists s.
  - destruct s as [|b s]; [done|]. simpl in H.
    destruct (ascii_dec a b) as [->|]; [|done].
    destruct (IH _ H) as [s0 ->]. by exists s0.
Qed.

Lemma prefix_cons a p b s :
  String.prefix (String a p) (String b s) =
    match ascii_dec a b with
    | left _ => String.prefix p s
    | right _ => false
    end.
Proof. reflexivity. Qed.

Lemma prefix_app_refl p b : String.prefix p (p +:+ b) = true.
Proof.
  induction p as [|a p IH]; [by destruct b|].
  rewrite StrFacts.app_cons. simpl. by destruct (ascii_dec a a).
Qed.

(** A complete literal followed by characters that cannot continue it
    reads as the literal, with those characters left over. *)
Lemma literal_extend pre junk v :
  literal pre = Some (v, "") -> ends_literal junk = true ->
  literal (pre +:+ junk) = Some (v, junk).
Proof.
  intros Hpre Hjunk. rewrite literal_eq in Hpre |- *.
  assert (Ht : trim_start pre <> "").
  { intros Hempty. rewrite Hempty in Hpre. done. }
  rewrite (trim_start_app _ _ Ht), (sign_app _ _ Ht).
  destruct (sign (trim_start pre)) as [neg s]. cbn [fst snd].
  pose proof (ends_literal_digit _ Hjunk) as Hdigit.
  destruct (String.prefix "Infinity" s) eqn:Hinf.
  - destruct (prefix_split _ _ Hinf) as [s0 ->].
    injection Hpre as <- Hs0.
    rewrite StrFacts.app_nil in Hs0. rewrite Hs0.
    change (("Infinity" +:+ "") +:+ junk) with ("Infinity" +:+ junk).
    rewrite prefix_app_refl. reflexivity.
  - assert (Hinf' : String.prefix "Infinity" (s +:+ junk) = false).
    { destruct s as [|c s]; [done|]. rewrite StrFacts.app_cons.
      change "Infinity" with (String "I" "nfinity"). rewrite prefix_cons.
      destruct (ascii_dec "I" c) as [<-|]; [|done].
      exfalso. clear -Hpre. cbn in Hpre. discriminate Hpre. }
    rewrite Hinf', (digits_app s 0%N junk Hdigit).
    destruct (digits 0 s) as [[ip ni] r].
    destruct r as [|c r'].
    + rewrite StrFacts.app_nil.
      destruct ni as [|ni]; [done|].
      injection Hpre as <-.
      destruct junk as [|d junk']; [done|].
      rewrite exponent_eq.
      simpl in Hjunk. apply negb_true_iff in Hjunk.
      apply orb_false_iff in Hjunk as [Hj HE].
      apply orb_false_iff in Hj as [Hj He].
      apply orb_false_iff in Hj as [_ Hdot].
      by rewrite Hdot, He, HE.
    + rewrite StrFacts.app_cons.
      destruct (Ascii.eqb c ".").
      * rewrite (digits_app r' ip junk Hdigit).
        destruct (digits ip r') as [[m nf] r''].
        destruct (ni + nf)%nat; [done|].
        destruct (exponent r'') as [e rest] eqn:He.
        injection Hpre as <- ->.
        by rewrite (exponent_app_end _ _ _ He Hjunk).
      * destruct ni as [|ni]; [done|].
        destruct (exponent (String c r')) as [e rest] eqn:He.
        injection Hpre as <- ->.
        rewrite <- StrFacts.app_cons.
        by rewrite (exponent_app_end _ _ _ He Hjunk).
Qed.

End ParseFloatFacts.

(** C7, amended. The value is the binary64 product of the two parsed
    fields, 420 for price "0.42" and size "1000".  [parseFloat] skips
    leading white space and reads the longest numeric literal at the head
    of a field: a field made of a number followed by characters that cannot
    continue it counts as that number, and only a field at whose head
    there is no numeric literal counts as 0.  The computation is a total
    function: there is no input on which it raises. *)
Theorem calculateTradeValue_product_and_fallback :
  (forall trade,
     calculateTradeValue trade =
       Num.mul (Num.or_zero (ParseFloat.parseFloat (Trade.price trade)))
               (Num.or_zero (ParseFloat.parseFloat (Trade.size trade)))) /\
  (forall trade,
     Trade.price trade = "0.42" -> Trade.size trade = "1000" ->
     calculateTradeValue trade = Num.of_Z 420) /\
  (forall field,
     ParseFloat.literal field = None ->
     Num.or_zero (ParseFloat.parseFloat field) = Num.zero) /\
  (forall c field,
     ParseFloat.is_ws c = true ->
     ParseFloat.parseFloat (String c field) = ParseFloat.parseFloat field) /\
  (forall number junk v,
     ParseFloat.literal number = Some (v, "") ->
     ParseFloat.ends_literal junk = true ->
     ParseFloat.parseFloat (number +:+ junk) = v) /\
  (forall trade price price_junk vp size size_junk vs,
     Trade.price trade = price +:+ price_junk ->
     Trade.size trade = size +:+ size_junk ->
     ParseFloat.literal price = Some (vp, "") ->
     ParseFloat.literal size = Some (vs, "") ->
     ParseFloat.ends_literal price_junk = true ->
     ParseFloat.ends_literal size_junk = true ->
     calculateTradeValue trade = Num.mul (Num.or_zero vp) (Num.or_zero vs)).
Proof.
  assert (Hprefix : forall number junk v,
            ParseFloat.literal number = Some (v, "") ->
            ParseFloat.ends_literal junk = true ->
            ParseFloat.parseFloat (number +:+ junk) = v).
  { intros number junk v Hn Hj. unfold ParseFloat.parseFloat.
    by rewrite (ParseFloatFacts.literal_extend _ _ _ Hn Hj). }
  split_and!.
  - reflexivity.
  - intros trade Hp Hs. unfold calculateTradeValue. rewrite Hp, Hs.
    vm_compute. reflexivity.
  - intros field H. unfold ParseFloat.parseFloat. rewrite H. reflexivity.
  - intros c field Hc. unfold ParseFloat.parseFloat, ParseFloat.literal.
    simpl ParseFloat.trim_start. by rewrite Hc.
  - exact Hprefix.
  - intros trade price price_junk vp size size_junk vs Hp Hs Hvp Hvs Hjp Hjs.
    unfold calculateTradeValue.
    by rewrite Hp, Hs, (Hprefix _ _ _ Hvp Hjp), (Hprefix _ _ _ Hvs Hjs).
Qed.

Lemma calculateTradeValue_product_and_fallback_witness :
  calculateTradeValue (sample_trade "0.42" "1000") = Num.of_Z 420 /\
  Num.or_zero (ParseFloat.parseFloat "n/a") = Num.zero /\
  ParseFloat.parseFloat (String (ascii_of_nat 160) "5000")
    = ParseFloat.parseFloat "5000" /\
  calculateTradeValue (sample_trade "12abc" "2 shares")
    = Num.mul (Num.of_Z 12) (Num.of_Z 2).
Proof.
  destruct calculateTradeValue_product_and_fallback
    as (_ & H420 & Hnan & Hws & _ & Hprefix).
  split_and!.
  - apply (H420 (sample_trade "0.42" "1000")); reflexivity.
  - apply (Hnan "n/a"). vm_compute. reflexivity.
  - apply Hws. reflexivity.
  - apply (Hprefix (sample_trade "12abc" "2 shares") "12" "abc" (Num.of_Z 12)
             "2" " shares" (Num.of_Z 2)); vm_compute; reflexivity.
Defined.

(** ** Rate limiting *)

Lemma sleeps_app t1 t2 : sleeps (t1 ++ t2) = (sleeps t1 ++ sleeps t2)%list.
Proof. unfold sleeps. apply omap_app. Qed.

Lemma retry_delay_succ k :
  Z.min (retry_delay k * BACKOFF_MULTIPLIER) MAX_BACKOFF_MS = retry_delay (S k).
Proof.
  unfold retry_delay, INITIAL_BACKOFF_MS, BACKOFF_MULTIPLIER, MAX_BACKOFF_MS.
  rewrite Nat2Z.inj_succ, Z.pow_succ_r by lia.
  assert (0 < 2 ^ Z.of_nat k)%Z by (apply Z.pow_pos_nonneg; lia).
  lia.
Qed.

Section RetrySchedule.
Context {R T : Type} (endpoint : string) (extract : R -> T).

(** A run of [n] 429 replies met with backoff [retry_delay k] sleeps
    [retry_delay k], ..., [retry_delay (k + n - 1)] and goes on with
    backoff [retry_delay (k + n)]. *)
Lemma withRetry_from_throttled n k (rest : list (reply R)) :
  let r := withRetry_from endpoint extract
             (replicate n Status429 ++ rest) (retry_delay k) in
  let r' := withRetry_from endpoint extract rest (retry_delay (k + n)) in
  r.1 = r'.1 /\
  sleeps r.2 = (List.map retry_delay (seq k n) ++ sleeps r'.2)%list.
Proof.
  revert k. induction n as [|n IH]; intros k; cbv zeta.
  - rewrite Nat.add_0_r. done.
  - simpl replicate. simpl app. simpl withRetry_from.
    rewrite retry_delay_succ.
    destruct (IH (S k)) as [H1 H2]. cbv zeta in H1, H2.
    replace (k + S n)%nat with (S k + n)%nat by lia.
    split.
    + rewrite <- H1. by destruct (withRetry_from _ _ _ _) as [[[? ?] ?] ?].
    + simpl. rewrite H2. done.
Qed.

(** A call answered at once leaves the backoff at the floor, whatever it
    was. *)
Lemma withRetry_from_success data (rest : list (reply R)) backoff :
  withRetry_from endpoint extract (Ok data :: rest) backoff =
    (Some (extract data), rest, INITIAL_BACKOFF_MS, [Request endpoint]).
Proof. reflexivity. Qed.

(** So does a call answered after [n] throttled replies. *)
Lemma withRetry_from_settles n data (rest : list (reply R)) : forall backoff,
  (withRetry_from endpoint extract
     (replicate n Status429 ++ Ok data :: rest) backoff).1
  = (Some (extract data), rest, INITIAL_BACKOFF_MS).
Proof.
  induction n as [|n IH]; intros backoff; [done|].
  simpl replicate. simpl app. simpl withRetry_from.
  specialize (IH (Z.min (backoff * BACKOFF_MULTIPLIER) MAX_BACKOFF_MS)).
  destruct (withRetry_from _ _ _ _) as [[[? ?] ?] ?]. simpl in *. done.
Qed.
End RetrySchedule.

Lemma retry_delay_values :
  (forall k, retry_delay k = Z.min (1000 * 2 ^ Z.of_nat k) 60000) /\
  (forall k, k < 5 -> retry_delay (S k) = (2 * retry_delay k)%Z) /\
  (forall k, 6 <= k -> retry_delay k = 60000%Z).
Proof.
  split_and!.
  - reflexivity.
  - intros k Hk. unfold retry_delay, INITIAL_BACKOFF_MS, BACKOFF_MULTIPLIER, MAX_BACKOFF_MS.
    rewrite Nat2Z.inj_succ, Z.pow_succ_r by lia.
    assert (2 ^ Z.of_nat k <= 2 ^ 4)%Z by (apply Z.pow_le_mono_r; lia).
    assert (0 < 2 ^ Z.of_nat k)%Z by (apply Z.pow_pos_nonneg; lia).
    change (2 ^ 4)%Z with 16%Z in *. lia.
  - intros k Hk. unfold retry_delay, INITIAL_BACKOFF_MS, BACKOFF_MULTIPLIER, MAX_BACKOFF_MS.
    assert (2 ^ 6 <= 2 ^ Z.of_nat k)%Z by (apply Z.pow_le_mono_r; lia).
    change (2 ^ 6)%Z with 64%Z in *. lia.
Qed.

(** C4. The process starts with the shared delay at the floor, 1000 ms.
    From the floor, a run of throttled replies sleeps
    [min (1000 * 2^k) 60000] before its [k]-th retry: 1000 ms first,
    doubling up to 32000 ms, then 60000 ms for every later retry.  (The
    count [k] runs on from a call to the next while no call succeeds:
    stated for a run of [n] replies that starts at count [k].)  One
    success, at once or after any number of throttled replies and whatever
    the delay had grown to, returns the data and sets the shared delay back
    to the floor, so that the next call, on whichever endpoint, waits the
    floor before its first retry and follows the schedule from its start. *)
Theorem withRetry_backoff_schedule :
  forall {R T : Type} (ep : Endpoint R) (extract : R -> T) (m : Machine),
    (forall w, currentBackoff (boot w) = INITIAL_BACKOFF_MS) /\
    retry_delay 0 = INITIAL_BACKOFF_MS /\
    (forall k n rest,
       currentBackoff m = retry_delay k ->
       script ep (world m) = (replicate n Status429 ++ rest)%list ->
       head rest <> Some Status429 ->
       sleeps (trace (withRetry ep extract m).2) =
         (sleeps (trace m) ++
          List.map (fun i => Z.min (1000 * 2 ^ Z.of_nat i) 60000) (seq k n))%list) /\
    (forall k, k < 5 -> retry_delay (S k) = (2 * retry_delay k)%Z) /\
    (forall k, 6 <= k -> retry_delay k = 60000%Z) /\
    (forall n data rest,
       script ep (world m) = (replicate n Status429 ++ Ok data :: rest)%list ->
       let m1 := (withRetry ep extract m).2 in
       (withRetry ep extract m).1 = Some (extract data) /\
       currentBackoff m1 = INITIAL_BACKOFF_MS /\
       forall (R2 T2 : Type) (ep2 : Endpoint R2) (extract2 : R2 -> T2) n2 rest2,
         script ep2 (world m1) = (replicate n2 Status429 ++ rest2)%list ->
         head rest2 <> Some Status429 ->
         sleeps (trace (withRetry ep2 extract2 m1).2) =
           (sleeps (trace m1) ++
            List.map (fun i => Z.min (1000 * 2 ^ Z.of_nat i) 60000) (seq 0 n2))%list).
Proof.
  intros R T ep extract m.
  destruct retry_delay_values as (Hval & Hdouble & Hceil).
  assert (Hsched : forall {R' T' : Type} (ep' : Endpoint R') (extract' : R' -> T')
                     (m' : Machine) k n rest,
             currentBackoff m' = retry_delay k ->
             script ep' (world m') = (replicate n Status429 ++ rest)%list ->
             head rest <> Some Status429 ->
             sleeps (trace (withRetry ep' extract' m').2) =
               (sleeps (trace m') ++
                List.map (fun i => Z.min (1000 * 2 ^ Z.of_nat i) 60000)
                  (seq k n))%list).
  { intros R' T' ep' extract' m' k n rest Hb Hs Hrest. unfold withRetry. simpl.
    rewrite sleeps_app, Hs, Hb. f_equal.
    destruct (withRetry_from_throttled (endpoint_name ep') extract' n k rest)
      as [_ H]. cbv zeta in H. rewrite H.
    assert (Hlater : sleeps (withRetry_from (endpoint_name ep') extract' rest
                               (retry_delay (k + n))).2 = []).
    { destruct rest as [|[data| |] rest']; try done. }
    rewrite Hlater, app_nil_r. done. }
  split_and!; try done.
  - apply Hsched.
  - intros n data rest Hs. cbv zeta.
    assert (Hreset : currentBackoff (withRetry ep extract m).2 = INITIAL_BACKOFF_MS).
    { unfold withRetry. simpl. by rewrite Hs, withRetry_from_settles. }
    split_and!.
    + unfold withRetry. simpl. by rewrite Hs, withRetry_from_settles.
    + exact Hreset.
    + intros R2 T2 ep2 extract2 n2 rest2. by apply Hsched.
Qed.

Lemma withRetry_backoff_schedule_witness :
  let w := mkWorld [Status429; Status429; Status429; Ok []] [Status429; Ok []] []
             (fun _ => 0%Z) in
  let m1 := (withRetry trades_endpoint (fun data => data) (boot w)).2 in
  sleeps (trace m1) = [1000; 2000; 4000]%Z /\
  currentBackoff m1 = 1000%Z /\
  sleeps (trace (withRetry activity_endpoint (fun data => data) m1).2)
    = [1000; 2000; 4000; 1000]%Z /\
  retry_delay 5 = 32000%Z /\ retry_delay 6 = 60000%Z.
Proof.
  intros w m1.
  destruct (withRetry_backoff_schedule trades_endpoint (fun data => data) (boot w))
    as (_ & _ & Hsched & Hdouble & Hceil & Hreset).
  destruct (Hreset 3 [] [] eq_refl) as (_ & Hfloor & Hnext).
  assert (H1 : sleeps (trace m1) = [1000; 2000; 4000]%Z).
  { apply (Hsched 0 3 [Ok []]); [reflexivity | reflexivity | discriminate]. }
  split_and!.
  - exact H1.
  - exact Hfloor.
  - etrans.
    { apply (Hnext _ _ activity_endpoint (fun data => data) 1 [Ok []]);
        [reflexivity | discriminate]. }
    fold m1. rewrite H1. reflexivity.
  - rewrite (Hdouble 4) by lia. reflexivity.
  - apply Hceil. lia.
Defined.

(** ** Classification *)

Section Classification.
Variable cfg : Config.
Variable toLocaleString : Num.number -> string.

(** What [analyzeTrade] returns for a trade with a wallet, in terms of
    the wallet lookup and the market lookup it performs. *)
Lemma analyzeTrade_unfold trade m :
  Trade.owner trade <> "" ->
  let r := lookupUserStats (Trade.owner trade) m in
  let c := classify toLocaleString (Stats.uniqueMarkets r.1)
             (Trade.valueUsd_or_zero trade) in
  analyzeTrade cfg toLocaleString trade m =
    if (Z.of_nat (Stats.uniqueMarkets r.1) <=? MAX_UNIQUE_MARKETS cfg)%Z
    then
      let k := lookupMarket (Trade.market trade) r.2 in
      (Some
         {| SuspectTrade.trade := trade;
            SuspectTrade.userStats :=
              {| UserStats.address := Trade.owner trade;
                 UserStats.uniqueMarkets := Stats.uniqueMarkets r.1;
                 UserStats.totalTrades := Stats.totalTrades r.1;
                 UserStats.activities := [] |};
            SuspectTrade.market := k.1;
            SuspectTrade.reason := Str.join " | " c.2;
            SuspectTrade.alertLevel := c.1 |}, k.2)
    else (None, r.2).
Proof.
  intros Howner. cbv zeta. unfold analyzeTrade.
  destruct (String.eqb_spec (Trade.owner trade) "") as [?|_]; [done|].
  unfold mbind, M_bind, mret, M_ret.
  destruct (Z.of_nat _ <=? _)%Z; [|done].
  by destruct (classify _ _ _).
Qed.

Lemma verdict_unfold trade m :
  Trade.owner trade <> "" ->
  let uniqueMarkets :=
    Stats.uniqueMarkets (lookupUserStats (Trade.owner trade) m).1 in
  verdict cfg toLocaleString trade m =
    if (Z.of_nat uniqueMarkets <=? MAX_UNIQUE_MARKETS cfg)%Z
    then Some (classify toLocaleString uniqueMarkets
                 (Trade.valueUsd_or_zero trade)).1
    else None.
Proof.
  intros Howner. cbv zeta. unfold verdict.
  rewrite analyzeTrade_unfold by done. cbv zeta.
  by destruct (Z.of_nat _ <=? _)%Z.
Qed.

End Classification.

(** C1. With the default ceiling of 5 markets, for every trade that carries
    a wallet and every process state: a wallet of 1 market and a trade of
    $10 is HIGH; 2 markets and $5000 is HIGH; 2 markets and $4999 is MEDIUM;
    5 markets and $100000 is LOW; 6 markets and $100000 is no alert.  The
    tiers are tried in order and the first that matches decides. *)
Theorem analyzeTrade_tiers :
  forall toLocaleString trade m,
    Trade.owner trade <> "" ->
    let uniqueMarkets :=
      Stats.uniqueMarkets (lookupUserStats (Trade.owner trade) m).1 in
    let valueUsd := Trade.valueUsd trade in
    let level := verdict default_config toLocaleString trade m in
    (uniqueMarkets = 1 -> valueUsd = Some (Num.of_Z 10) -> level = Some HIGH) /\
    (uniqueMarkets = 2 -> valueUsd = Some (Num.of_Z 5000) -> level = Some HIGH) /\
    (uniqueMarkets = 2 -> valueUsd = Some (Num.of_Z 4999) -> level = Some MEDIUM) /\
    (uniqueMarkets = 5 -> valueUsd = Some (Num.of_Z 100000) -> level = Some LOW) /\
    (uniqueMarkets = 6 -> valueUsd = Some (Num.of_Z 100000) -> level = None) /\
    level =
      (if (5 <? uniqueMarkets)%nat then None
       else if (uniqueMarkets <=? 2)%nat
               && Num.geb (Trade.valueUsd_or_zero trade) (Num.of_Z 5000)
            then Some HIGH
       else if (uniqueMarkets <=? 1)%nat then Some HIGH
       else if (uniqueMarkets <=? 3)%nat then Some MEDIUM
       else Some LOW).
Proof.
  intros toLocaleString trade m Howner. cbv zeta.
  rewrite verdict_unfold by done.
  set (um := Stats.uniqueMarkets _).
  unfold Trade.valueUsd_or_zero.
  split_and!.
  1-5: intros -> ->; vm_compute; reflexivity.
  unfold classify. simpl MAX_UNIQUE_MARKETS.
  destruct (Nat.ltb_spec 5 um), (Z.leb_spec (Z.of_nat um) 5); try lia; [done|].
  destruct (_ && _); [done|].
  destruct (um <=? 1)%nat; [done|]. by destruct (um <=? 3)%nat.
Qed.

Lemma analyzeTrade_tiers_witness :
  verdict default_config EnUS.toLocaleString
    (Trade.with_valueUsd (sample_trade "0.01" "1000") (Num.of_Z 10))
    (boot (sample_world [] ["0x5c3e"])) = Some HIGH /\
  verdict default_config EnUS.toLocaleString
    (Trade.with_valueUsd (sample_trade "0.5" "10000") (Num.of_Z 5000))
    (boot (sample_world [] ["0x5c3e"; "0x77aa"])) = Some HIGH /\
  verdict default_config EnUS.toLocaleString
    (Trade.with_valueUsd (sample_trade "0.4999" "10000") (Num.of_Z 4999))
    (boot (sample_world [] ["0x5c3e"; "0x77aa"])) = Some MEDIUM /\
  verdict default_config EnUS.toLocaleString
    (Trade.with_valueUsd (sample_trade "0.5" "200000") (Num.of_Z 100000))
    (boot (sample_world [] ["a"; "b"; "c"; "d"; "e"])) = Some LOW /\
  verdict default_config EnUS.toLocaleString
    (Trade.with_valueUsd (sample_trade "0.5" "200000") (Num.of_Z 100000))
    (boot (sample_world [] ["a"; "b"; "c"; "d"; "e"; "f"])) = None.
Proof.
  split_and!.
  - refine (proj1 (analyzeTrade_tiers _ _ _ _) _ _);
      [discriminate | vm_compute; reflexivity | reflexivity].
  - refine (proj1 (proj2 (analyzeTrade_tiers _ _ _ _)) _ _);
      [discriminate | vm_compute; reflexivity | reflexivity].
  - refine (proj1 (proj2 (proj2 (analyzeTrade_tiers _ _ _ _))) _ _);
      [discriminate | vm_compute; reflexivity | reflexivity].
  - refine (proj1 (proj2 (proj2 (proj2 (analyzeTrade_tiers _ _ _ _)))) _ _);
      [discriminate | vm_compute; reflexivity | reflexivity].
  - refine (proj1 (proj2 (proj2 (proj2 (proj2 (analyzeTrade_tiers _ _ _ _))))) _ _);
      [discriminate | vm_compute; reflexivity | reflexivity].
Defined.

(** ** The processed-identifier set *)

Module JSSetFacts.
Import JSSet.

Lemma has_true x (s : t) : has x s = true <-> x ∈ s.
Proof.
  unfold has. rewrite existsb_exists, list_elem_of_In. split.
  - intros (y & Hy & Heq). apply String.eqb_eq in Heq. by subst.
  - intros H. exists x. split; [done|]. apply String.eqb_refl.
Qed.

Lemma has_false x (s : t) : has x s = false <-> x ∉ s.
Proof. rewrite <- has_true. by destruct (has x s). Qed.

Lemma elem_of_add x y (s : t) : y ∈ add x s <-> y = x \/ y ∈ s.
Proof.
  unfold add. destruct (has x s) eqn:H.
  - apply has_true in H. naive_solver.
  - rewrite elem_of_app, list_elem_of_singleton. naive_solver.
Qed.

Lemma NoDup_add x (s : t) : NoDup s -> NoDup (add x s).
Proof.
  intros H. unfold add. destruct (has x s) eqn:Hx; [done|].
  apply has_false in Hx. apply NoDup_app. split_and!; [done| |apply NoDup_singleton].
  intros y Hy Hy'. apply list_elem_of_singleton in Hy'. by subst.
Qed.

Section Adds.
Context {A : Type} (key : A -> string).

Lemma elem_of_adds l (s : t) y :
  y ∈ adds key s l <-> y ∈ s \/ y ∈ List.map key l.
Proof.
  revert s. induction l as [|a l IH]; intros s; simpl.
  - rewrite elem_of_nil. naive_solver.
  - unfold adds in *. simpl. rewrite IH, elem_of_add, elem_of_cons. naive_solver.
Qed.

Lemma NoDup_adds l (s : t) : NoDup s -> NoDup (adds key s l).
Proof.
  revert s. induction l as [|a l IH]; intros s H; [done|].
  apply IH. by apply NoDup_add.
Qed.
End Adds.

(** Deleting a list of elements keeps, in order, those not in the list. *)
Lemma deletes_filter (xs : list string) (s : t) :
  foldl (fun s id => delete id s) s xs =
    List.filter (fun y => negb (has y xs)) s.
Proof.
  revert s. induction xs as [|x xs IH]; intros s; simpl.
  - induction s as [|y s IHs]; simpl; [done|]. by rewrite <- IHs.
  - rewrite IH. unfold delete.
    induction s as [|y s IHs]; simpl; [done|].
    rewrite (String.eqb_sym y x).
    destruct (String.eqb x y); simpl; [done|].
    destruct (has y xs); simpl; by rewrite IHs.
Qed.

(** On a list without repetition, filtering out its first [k] elements
    leaves the others. *)
Lemma filter_firstn_skipn k (s : t) :
  NoDup s ->
  List.filter (fun y => negb (has y (firstn k s))) s = skipn k s.
Proof.
  revert k. induction s as [|x s IH]; intros k Hnd.
  - by destruct k.
  - destruct k as [|k]; simpl.
    + assert (H : forall l : list string, List.filter (fun _ => true) l = l).
      { induction l as [|? ? IHl]; simpl; [done|]. by rewrite IHl. }
      by rewrite H.
    + rewrite String.eqb_refl. simpl.
      apply NoDup_cons in Hnd as [Hx Hnd].
      rewrite <- (IH k Hnd). apply filter_ext_in.
      intros y Hy. destruct (String.eqb_spec y x) as [->|_]; [|done].
      by apply list_elem_of_In in Hy.
Qed.

End JSSetFacts.

Lemma half_below_cap : (5000 < 10000)%nat.
Proof. apply Nat.ltb_lt. vm_compute. reflexivity. Qed.

Lemma limit_processed_filter processed :
  limit_processed processed =
    List.filter (fun y => negb (JSSet.has y (evicted processed))) processed.
Proof.
  unfold limit_processed, evicted, JSSet.to_array.
  destruct (10000 <? JSSet.size processed)%nat.
  - apply JSSetFacts.deletes_filter.
  - simpl. induction processed as [|y s IHs]; simpl; [done|]. by rewrite <- IHs.
Qed.

Lemma limit_processed_over processed :
  NoDup processed -> (10000 < JSSet.size processed)%nat ->
  limit_processed processed = skipn 5000 processed.
Proof.
  intros Hnd Hsize. rewrite limit_processed_filter. unfold evicted.
  destruct (Nat.ltb_spec 10000 (JSSet.size processed)); [|lia].
  by apply JSSetFacts.filter_firstn_skipn.
Qed.

Lemma limit_processed_under processed :
  (JSSet.size processed <= 10000)%nat -> limit_processed processed = processed.
Proof.
  intros Hsize. unfold limit_processed.
  by destruct (Nat.ltb_spec 10000 (JSSet.size processed)); [lia|].
Qed.

Lemma dedup_processed trades processed :
  (dedup trades processed).2 = limit_processed (grown trades processed).
Proof. reflexivity. Qed.

(** When the set holds more than 10000 identifiers once the new ones of
    a batch are added, the cap leaves the set without its first 5000
    identifiers in insertion order, and with all the later ones, in the
    same order. *)
Lemma dedup_evicts_oldest :
  forall trades processed,
    NoDup processed ->
    (10000 < JSSet.size (grown trades processed))%nat ->
    let before := grown trades processed in
    let after := (dedup trades processed).2 in
    after = skipn 5000 before /\
    before = (firstn 5000 before ++ after)%list /\
    length (firstn 5000 before) = 5000 /\
    (forall id, id ∈ firstn 5000 before -> JSSet.has id after = false) /\
    (forall id, id ∈ skipn 5000 before -> JSSet.has id after = true).
Proof.
  intros trades processed Hnd Hsize. cbv zeta.
  assert (Hg : NoDup (grown trades processed)) by by apply JSSetFacts.NoDup_adds.
  rewrite dedup_processed, limit_processed_over by done.
  split_and!.
  - done.
  - by rewrite firstn_skipn.
  - rewrite length_take. unfold JSSet.size in Hsize.
    pose proof half_below_cap. lia.
  - intros id Hid. apply JSSetFacts.has_false. intros Hid'.
    rewrite <- (firstn_skipn 5000 (grown trades processed)) in Hg.
    apply NoDup_app in Hg as (_ & Hdisj & _). by apply (Hdisj id).
  - intros id Hid. by apply JSSetFacts.has_true.
Qed.

(** ** What the fetchers leave alone *)

Lemma alerts_app t1 t2 : alerts (t1 ++ t2) = (alerts t1 ++ alerts t2)%list.
Proof. unfold alerts. apply omap_app. Qed.

Lemma activity_fetches_app t1 t2 :
  activity_fetches (t1 ++ t2) = (activity_fetches t1 ++ activity_fetches t2)%list.
Proof. unfold activity_fetches. apply omap_app. Qed.

Section RetryFacts.
Context {R T : Type} (endpoint : string) (extract : R -> T).

(** A retry loop only requests and sleeps. *)
Lemma withRetry_from_trace (replies : list (reply R)) backoff :
  alerts (withRetry_from endpoint extract replies backoff).2 = [] /\
  activity_fetches (withRetry_from endpoint extract replies backoff).2 = [].
Proof.
  revert backoff. induction replies as [|[data| |] rest IH]; intros backoff;
    try done.
  simpl. apply IH.
Qed.

(** Its result is drawn from the replies, and it leaves a tail of them. *)
Lemma withRetry_from_result (replies : list (reply R)) backoff :
  let r := withRetry_from endpoint extract replies backoff in
  (r.1.1.1 = None \/
   exists data, r.1.1.1 = Some (extract data) /\ Ok data ∈ replies) /\
  r.1.1.2 `suffix_of` replies.
Proof.
  revert backoff. induction replies as [|[data| |] rest IH]; intros backoff;
    cbv zeta.
  - split; [by left | done].
  - split; [right; exists data; split; [done | by left] | by apply suffix_cons_r].
  - destruct (IH (Z.min (backoff * BACKOFF_MULTIPLIER) MAX_BACKOFF_MS))
      as [Hres Hsuf]. cbv zeta in Hres, Hsuf. simpl. split.
    + destruct Hres as [?|(data & ? & ?)]; [by left|].
      right. exists data. split; [done | by right].
    + by apply suffix_cons_r.
  - split; [by left | by apply suffix_cons_r].
Qed.

(** The first reply that is not a 429 decides the result; the backoff in
    force does not. *)
Lemma withRetry_from_outcome (replies : list (reply R)) backoff :
  (withRetry_from endpoint extract replies backoff).1.1.1 =
    extract <$> outcome replies.
Proof.
  revert backoff. induction replies as [|[data| |] rest IH]; intros backoff;
    try done.
  simpl. apply IH.
Qed.
End RetryFacts.

(** ** The wallet-history cache *)

Module JSMapFacts.
Import JSMap.
Section Facts.
Context {V : Type}.
Implicit Types (m : t V) (k : string) (v : V).

Lemma get_set_eq k v m : get k (set k v m) = Some v.
Proof.
  induction m as [|[k' v'] m IH]; simpl.
  - by rewrite String.eqb_refl.
  - destruct (String.eqb k k') eqn:E; simpl; rewrite ?String.eqb_refl, ?E; done.
Qed.

Lemma get_set_ne k k' v m : k <> k' -> get k' (set k v m) = get k' m.
Proof.
  intros Hne. induction m as [|[k0 v0] m IH]; simpl.
  - destruct (String.eqb_spec k' k); [by subst|done].
  - destruct (String.eqb_spec k k0) as [->|?]; simpl.
    + destruct (String.eqb_spec k' k0); [by subst|done].
    + by rewrite IH.
Qed.

Lemma get_None k m : get k m = None <-> k ∉ keys m.
Proof.
  induction m as [|[k' v'] m IH]; simpl.
  - split; [intros _; apply not_elem_of_nil | done].
  - rewrite not_elem_of_cons.
    destruct (String.eqb_spec k k'); [naive_solver|]. rewrite IH. naive_solver.
Qed.

Lemma keys_set k v m :
  keys (set k v m) = match get k m with
                     | Some _ => keys m
                     | None => (keys m ++ [k])%list
                     end.
Proof.
  induction m as [|[k' v'] m IH]; simpl; [done|].
  destruct (String.eqb_spec k k') as [->|?]; simpl; [done|].
  rewrite IH. by destruct (get k m).
Qed.

Lemma size_keys m : size m = length (keys m).
Proof. unfold size, keys. by rewrite length_map. Qed.

Lemma get_delete_ne k k' m : k <> k' -> get k' (delete k m) = get k' m.
Proof.
  intros Hne. induction m as [|[k0 v0] m IH]; simpl; [done|].
  destruct (String.eqb_spec k k0) as [->|?]; simpl.
  - destruct (String.eqb_spec k' k0); [by subst|done].
  - by rewrite IH.
Qed.

Lemma delete_absent k m : k ∉ keys m -> delete k m = m.
Proof.
  induction m as [|[k0 v0] m IH]; simpl; [done|].
  rewrite not_elem_of_cons. intros [Hne Hk].
  destruct (String.eqb_spec k k0); [done|]. simpl. f_equal. by apply IH.
Qed.

End Facts.
End JSMapFacts.

Lemma cache_ok_empty : cache_ok JSMap.empty.
Proof.
  split_and!; [apply NoDup_nil_2 | simpl; lia | apply not_elem_of_nil].
Qed.

(** Caching a wallet keeps the cache in order, and the wallet in it. *)
Lemma limit_cache_set cache walletAddress entry :
  cache_ok cache -> walletAddress <> "" ->
  cache_ok (limit_cache (JSMap.set walletAddress entry cache)) /\
  JSMap.get walletAddress (limit_cache (JSMap.set walletAddress entry cache))
    = Some entry.
Proof.
  intros (Hnd & Hsize & Hne) Hw.
  pose proof (JSMapFacts.keys_set walletAddress entry cache) as Hkeys.
  pose proof (JSMapFacts.get_set_eq walletAddress entry cache) as Hget.
  unfold limit_cache.
  set (cache' := JSMap.set walletAddress entry cache) in *.
  destruct (Nat.ltb_spec 1000 (JSMap.size cache')) as [Hover|Hunder].
  - (* the wallet is new and the cache was full *)
    rewrite JSMapFacts.size_keys in Hover, Hsize.
    destruct (JSMap.get walletAddress cache) eqn:Hold;
      [rewrite Hkeys in Hover; lia|].
    apply JSMapFacts.get_None in Hold.
    rewrite Hkeys, length_app in Hover. simpl in Hover.
    destruct cache' as [|[k0 v0] rest] eqn:Hc; [done|]. simpl.
    simpl in Hkeys.
    destruct cache as [|[k1 v1] cache1]; [simpl in Hover; lia|].
    simpl in Hkeys. injection Hkeys as -> Hrest.
    assert (Hk1 : k1 <> walletAddress).
    { intros ->. apply Hold. simpl. by left. }
    assert (Hk1' : k1 <> "").
    { intros ->. apply Hne. simpl. by left. }
    destruct (String.eqb_spec k1 "") as [?|_]; [done|].
    simpl in Hnd. apply NoDup_cons in Hnd as [Hk1nd Hnd1].
    assert (Hk1rest : k1 ∉ JSMap.keys rest).
    { rewrite Hrest. rewrite not_elem_of_app, list_elem_of_singleton. done. }
    unfold JSMap.delete. simpl. rewrite String.eqb_refl. simpl.
    fold (JSMap.delete k1 rest). rewrite JSMapFacts.delete_absent by done.
    split.
    + split_and!.
      * rewrite Hrest. apply NoDup_app. split_and!; [done| |apply NoDup_singleton].
        intros y Hy Hy'. apply list_elem_of_singleton in Hy'. subst.
        apply Hold. simpl. by right.
      * rewrite JSMapFacts.size_keys, Hrest, length_app. simpl in *. lia.
      * rewrite Hrest, not_elem_of_app, list_elem_of_singleton.
        simpl in Hne. rewrite not_elem_of_cons in Hne. naive_solver.
    + simpl in Hget. destruct (String.eqb_spec walletAddress k1); [by subst|done].
  - split; [|done]. split_and!.
    + rewrite Hkeys. destruct (JSMap.get walletAddress cache) eqn:Hold; [done|].
      apply JSMapFacts.get_None in Hold.
      apply NoDup_app. split_and!; [done| |apply NoDup_singleton].
      intros y Hy Hy'. apply list_elem_of_singleton in Hy'. by subst.
    + done.
    + rewrite Hkeys. destruct (JSMap.get walletAddress cache); [done|].
      rewrite not_elem_of_app, list_elem_of_singleton. done.
Qed.

Lemma Stats_eta (s : Stats.t) :
  CachedStats.stats
    (CachedStats.mk (Stats.uniqueMarkets s) (Stats.totalTrades s) 0) = s.
Proof. by destruct s. Qed.

(** The miss branch, field by field. *)
Lemma refreshUserStats_spec walletAddress now m :
  let r := refreshUserStats walletAddress now m in
  r.1 = calculateUserStats walletAddress
          (default [] (outcome (activity_api (world m)))) /\
  userStatsCache r.2 =
    limit_cache
      (JSMap.set walletAddress
         (CachedStats.mk (Stats.uniqueMarkets r.1) (Stats.totalTrades r.1) now)
         (userStatsCache m)) /\
  activity_fetches (trace r.2) =
    (activity_fetches (trace m) ++ [walletAddress])%list /\
  alerts (trace r.2) = alerts (trace m) /\
  processedTradeIds r.2 = processedTradeIds m /\
  trades_api (world r.2) = trades_api (world m) /\
  clock (world r.2) = clock (world m) /\
  ticks r.2 = ticks m.
Proof.
  cbv zeta. unfold refreshUserStats, fetchUserActivity, withRetry, emit, modify.
  unfold mbind, M_bind, mret, M_ret. simpl.
  pose proof (withRetry_from_trace "/activity" (fun data : list UserActivity.t => data)
                (activity_api (world m)) (currentBackoff m)) as [Ha Hf].
  pose proof (withRetry_from_outcome "/activity" (fun data : list UserActivity.t => data)
                (activity_api (world m)) (currentBackoff m)) as Ho.
  rewrite Ho. rewrite option_fmap_id.
  split_and!; try done.
  - rewrite !activity_fetches_app, Hf, app_nil_r. done.
  - rewrite !alerts_app, Ha, app_nil_r. simpl. by rewrite app_nil_r.
Qed.

Lemma lookupUserStats_hit walletAddress m c :
  fresh_entry walletAddress m = Some c ->
  lookupUserStats walletAddress m =
    (CachedStats.stats c, set_ticks (S (ticks m)) m).
Proof.
  unfold fresh_entry, lookupUserStats, gets, Date_now.
  unfold mbind, M_bind, mret, M_ret. simpl.
  destruct (JSMap.get _ _) as [c'|]; [|done].
  destruct (_ <? _)%Z; [|done]. by intros [= ->].
Qed.

Lemma lookupUserStats_miss walletAddress m :
  fresh_entry walletAddress m = None ->
  lookupUserStats walletAddress m =
    refreshUserStats walletAddress (clock (world m) (ticks m))
      (set_ticks (S (ticks m)) m).
Proof.
  unfold fresh_entry, lookupUserStats, gets, Date_now.
  unfold mbind, M_bind, mret, M_ret. simpl.
  destruct (JSMap.get _ _) as [c'|]; [|done].
  by destruct (_ <? _)%Z.
Qed.

(** A lookup keeps the cache in order and leaves the wallet cached with
    the stats it returns. *)
Lemma lookupUserStats_cache walletAddress m :
  walletAddress <> "" -> cache_ok (userStatsCache m) ->
  let r := lookupUserStats walletAddress m in
  cache_ok (userStatsCache r.2) /\
  exists c, JSMap.get walletAddress (userStatsCache r.2) = Some c /\
            CachedStats.stats c = r.1.
Proof.
  intros Hw Hok. cbv zeta.
  destruct (fresh_entry walletAddress m) as [c|] eqn:Hfresh.
  - rewrite (lookupUserStats_hit _ _ _ Hfresh). simpl. split; [done|].
    exists c. split; [|done]. unfold fresh_entry in Hfresh.
    destruct (JSMap.get _ _) as [c'|]; [|done].
    destruct (_ <? _)%Z; [|done]. by injection Hfresh as ->.
  - rewrite (lookupUserStats_miss _ _ Hfresh).
    destruct (refreshUserStats_spec walletAddress (clock (world m) (ticks m))
                (set_ticks (S (ticks m)) m)) as (_ & Hcache & _).
    cbv zeta in Hcache. rewrite Hcache. simpl userStatsCache.
    edestruct (limit_cache_set (userStatsCache m) walletAddress) as [Hok' Hget];
      [done..|].
    split; [exact Hok'|]. eexists. split; [exact Hget|].
    by destruct (refreshUserStats _ _ _).1.
Qed.

(** C5, as stated, fails: a thousand other wallets looked up between two
    lookups of a wallet push its entry out of the cache, and the second
    lookup, at the same instant as the first, fetches again and returns
    other stats. *)
Lemma lookupUserStats_within_ttl_counterexample :
  let w :=
    {| trades_api := [];
       activity_api := [Ok (sample_history ["0x5c3e"])];
       markets_api := [];
       clock := fun _ => 1735689600000%Z |} in
  let others := List.map (fun k => "0x" +:+ pretty k) (seq 0 1000) in
  let r := lookupAll ("0x31a5" :: others ++ ["0x31a5"]) (boot w) in
  head r.1 = Some (Stats.mk 1 1) /\
  last r.1 = Some (Stats.mk 0 0) /\
  List.filter (String.eqb "0x31a5") (activity_fetches (trace r.2))
    = ["0x31a5"; "0x31a5"].
Proof. vm_compute. done. Qed.

(** C5, amended. For every wallet and every state with the cache in order:
    a lookup that finds no entry younger than the TTL calls
    [fetchUserActivity] exactly once and leaves the stats it computed in
    the cache under the time it read; a lookup that finds one returns it
    and does nothing upstream (no event, no reply consumed); and any later
    lookup that still finds the entry the first lookup left, younger than
    the TTL, returns the same stats and does nothing upstream (two lookups
    in a row within the TTL, in particular). *)
Theorem lookupUserStats_ttl :
  forall walletAddress m,
    walletAddress <> "" -> cache_ok (userStatsCache m) ->
    let r1 := lookupUserStats walletAddress m in
    (fresh_entry walletAddress m = None ->
       activity_fetches (trace r1.2) =
         (activity_fetches (trace m) ++ [walletAddress])%list /\
       r1.1 = calculateUserStats walletAddress
                (default [] (outcome (activity_api (world m)))) /\
       JSMap.get walletAddress (userStatsCache r1.2) =
         Some (CachedStats.mk (Stats.uniqueMarkets r1.1) (Stats.totalTrades r1.1)
                 (clock (world m) (ticks m)))) /\
    (forall c, fresh_entry walletAddress m = Some c ->
       r1.1 = CachedStats.stats c /\
       trace r1.2 = trace m /\ world r1.2 = world m /\
       userStatsCache r1.2 = userStatsCache m) /\
    (forall m',
       JSMap.get walletAddress (userStatsCache m') =
         JSMap.get walletAddress (userStatsCache r1.2) ->
       is_Some (fresh_entry walletAddress m') ->
       let r2 := lookupUserStats walletAddress m' in
       r2.1 = r1.1 /\ trace r2.2 = trace m' /\ world r2.2 = world m') /\
    (is_Some (fresh_entry walletAddress r1.2) ->
       let r2 := lookupUserStats walletAddress r1.2 in
       r2.1 = r1.1 /\
       activity_fetches (trace r2.2) = activity_fetches (trace r1.2)).
Proof.
  intros walletAddress m Hw Hok. cbv zeta.
  assert (Hlater : forall m',
       JSMap.get walletAddress (userStatsCache m') =
         JSMap.get walletAddress
           (userStatsCache (lookupUserStats walletAddress m).2) ->
       is_Some (fresh_entry walletAddress m') ->
       (lookupUserStats walletAddress m').1 = (lookupUserStats walletAddress m).1 /\
       trace (lookupUserStats walletAddress m').2 = trace m' /\
       world (lookupUserStats walletAddress m').2 = world m').
  { intros m' Hsame [c' Hc'].
    destruct (lookupUserStats_cache walletAddress m Hw Hok) as (_ & c & Hc & Hstats).
    rewrite (lookupUserStats_hit _ _ _ Hc'). simpl. split; [|done].
    rewrite <- Hstats. f_equal.
    unfold fresh_entry in Hc'. rewrite Hsame, Hc in Hc'.
    destruct (_ <? _)%Z; [|done]. by injection Hc' as ->. }
  split_and!.
  - intros Hmiss. rewrite (lookupUserStats_miss _ _ Hmiss).
    destruct (refreshUserStats_spec walletAddress (clock (world m) (ticks m))
                (set_ticks (S (ticks m)) m)) as (Hres & Hcache & Hfetch & _).
    cbv zeta in Hres, Hcache, Hfetch. split_and!; [done..|].
    rewrite Hcache. by apply limit_cache_set.
  - intros c Hhit. rewrite (lookupUserStats_hit _ _ _ Hhit). done.
  - exact Hlater.
  - intros Hfresh. destruct (Hlater _ eq_refl Hfresh) as (Hsame & Htrace & _).
    split; [done|]. by rewrite Htrace.
Qed.

Lemma lookupUserStats_ttl_witness :
  let m := boot (sample_world [] ["0x5c3e"]) in
  let r1 := lookupUserStats "0x31a5" m in
  let r2 := lookupUserStats "0x31a5" r1.2 in
  activity_fetches (trace r1.2) = ["0x31a5"] /\
  r2.1 = r1.1 /\
  activity_fetches (trace r2.2) = activity_fetches (trace r1.2).
Proof.
  intros m r1 r2.
  assert (Hw : "0x31a5" <> "") by discriminate.
  destruct (lookupUserStats_ttl "0x31a5" m Hw cache_ok_empty)
    as (Hmiss & _ & _ & Hagain).
  split.
  - apply Hmiss. reflexivity.
  - apply Hagain. vm_compute. eexists. reflexivity.
Defined.

(** ** One poll cycle *)

(** [fetchRecentTrades], field by field. *)
Lemma fetchRecentTrades_spec limit m :
  let r := fetchRecentTrades limit m in
  r.1 = default [] (outcome (trades_api (world m))) /\
  trades_api (world r.2) `suffix_of` trades_api (world m) /\
  (r.1 = [] \/ Ok r.1 ∈ trades_api (world m)) /\
  alerts (trace r.2) = alerts (trace m) /\
  activity_fetches (trace r.2) = activity_fetches (trace m) /\
  processedTradeIds r.2 = processedTradeIds m /\
  userStatsCache r.2 = userStatsCache m /\
  activity_api (world r.2) = activity_api (world m) /\
  clock (world r.2) = clock (world m) /\
  ticks r.2 = ticks m.
Proof.
  cbv zeta. unfold fetchRecentTrades, withRetry, emit, modify.
  unfold mbind, M_bind, mret, M_ret. simpl.
  pose proof (withRetry_from_trace "/trades" (fun data : list Trade.t => data)
                (trades_api (world m)) (currentBackoff m)) as [Ha Hf].
  pose proof (withRetry_from_outcome "/trades" (fun data : list Trade.t => data)
                (trades_api (world m)) (currentBackoff m)) as Ho.
  pose proof (withRetry_from_result "/trades" (fun data : list Trade.t => data)
                (trades_api (world m)) (currentBackoff m)) as [Hres Hsuf].
  cbv zeta in Hres, Hsuf.
  split_and!; try done.
  - rewrite Ho. by rewrite option_fmap_id.
  - destruct Hres as [->|(data & -> & Hin)]; [by left | by right].
  - rewrite !alerts_app, Ha, app_nil_r. simpl. by rewrite app_nil_r.
  - rewrite !activity_fetches_app, Hf, app_nil_r. simpl. by rewrite app_nil_r.
Qed.

(** [lookupMarket] touches the market cache, the market endpoint, the
    backoff and the trace, where it adds no alert and no activity fetch. *)
Lemma lookupMarket_spec conditionId m :
  let r := lookupMarket conditionId m in
  alerts (trace r.2) = alerts (trace m) /\
  activity_fetches (trace r.2) = activity_fetches (trace m) /\
  processedTradeIds r.2 = processedTradeIds m /\
  userStatsCache r.2 = userStatsCache m /\
  trades_api (world r.2) = trades_api (world m).
Proof.
  cbv zeta. unfold lookupMarket, fetchMarketDetails, withRetry, emit, modify, gets.
  unfold mbind, M_bind, mret, M_ret. simpl.
  destruct (marketCache m !! conditionId); [done|]. simpl.
  pose proof (withRetry_from_trace "/markets"
                (fun data : list Market.t => head data)
                (markets_api (world m)) (currentBackoff m)) as [Ha Hf].
  split_and!; try done.
  - rewrite !alerts_app, Ha, app_nil_r. simpl. by rewrite app_nil_r.
  - rewrite !activity_fetches_app, Hf, app_nil_r. simpl. by rewrite app_nil_r.
Qed.

(** [lookupUserStats] adds no alert and leaves the processed set and the
    trade feed alone. *)
Lemma lookupUserStats_frame walletAddress m :
  let r := lookupUserStats walletAddress m in
  alerts (trace r.2) = alerts (trace m) /\
  processedTradeIds r.2 = processedTradeIds m /\
  trades_api (world r.2) = trades_api (world m).
Proof.
  cbv zeta. destruct (fresh_entry walletAddress m) as [c|] eqn:Hfresh.
  - by rewrite (lookupUserStats_hit _ _ _ Hfresh).
  - rewrite (lookupUserStats_miss _ _ Hfresh).
    destruct (refreshUserStats_spec walletAddress (clock (world m) (ticks m))
                (set_ticks (S (ticks m)) m)) as (_ & _ & _ & Ha & Hp & Ht & _).
    done.
Qed.

(** What a lookup returns depends on the cache, the clock and the activity
    endpoint only. *)
Lemma lookupUserStats_result_indep walletAddress m m' :
  userStatsCache m' = userStatsCache m ->
  ticks m' = ticks m ->
  clock (world m') = clock (world m) ->
  activity_api (world m') = activity_api (world m) ->
  (lookupUserStats walletAddress m').1 = (lookupUserStats walletAddress m).1.
Proof.
  intros Hc Ht Hk Ha.
  assert (Hf : fresh_entry walletAddress m' = fresh_entry walletAddress m)
    by (unfold fresh_entry; by rewrite Hc, Ht, Hk).
  destruct (fresh_entry walletAddress m) as [c|] eqn:Hfresh.
  - by rewrite (lookupUserStats_hit _ _ _ Hf), (lookupUserStats_hit _ _ _ Hfresh).
  - rewrite (lookupUserStats_miss _ _ Hf), (lookupUserStats_miss _ _ Hfresh).
    destruct (refreshUserStats_spec walletAddress (clock (world m) (ticks m))
                (set_ticks (S (ticks m)) m)) as (-> & _).
    destruct (refreshUserStats_spec walletAddress (clock (world m') (ticks m'))
                (set_ticks (S (ticks m')) m')) as (-> & _).
    simpl. by rewrite Ha.
Qed.

Section Cycle.
Variable cfg : Config.
Variable toLocaleString : Num.number -> string.

(** [analyzeTrade] adds no alert to the trace, leaves the processed set
    and the trade feed alone, keeps the cache in order, and a suspect it
    returns is about the trade it was given. *)
Lemma analyzeTrade_frame trade m :
  let r := analyzeTrade cfg toLocaleString trade m in
  alerts (trace r.2) = alerts (trace m) /\
  processedTradeIds r.2 = processedTradeIds m /\
  trades_api (world r.2) = trades_api (world m) /\
  (cache_ok (userStatsCache m) -> cache_ok (userStatsCache r.2)) /\
  (forall suspect, r.1 = Some suspect -> SuspectTrade.trade suspect = trade).
Proof.
  cbv zeta.
  destruct (String.eqb_spec (Trade.owner trade) "") as [Hempty|Howner].
  { unfold analyzeTrade. rewrite Hempty. simpl. done. }
  rewrite analyzeTrade_unfold by done. cbv zeta.
  destruct (lookupUserStats_frame (Trade.owner trade) m) as (Ha & Hp & Ht).
  cbv zeta in Ha, Hp, Ht.
  pose proof (lookupUserStats_cache (Trade.owner trade) m Howner) as Hcache.
  cbv zeta in Hcache.
  destruct (_ <=? _)%Z.
  - destruct (lookupMarket_spec (Trade.market trade)
                (lookupUserStats (Trade.owner trade) m).2)
      as (Ha' & _ & Hp' & Hc' & Ht').
    cbv zeta in Ha', Hp', Hc', Ht'. simpl.
    rewrite Ha', Hp', Ht', Hc'. split_and!; try done.
    + intros Hok. by apply Hcache.
    + by intros suspect [= <-].
  - simpl. split_and!; try done. intros Hok. by apply Hcache.
Qed.

Lemma analyzeTrades_frame trades m :
  let r := analyzeTrades cfg toLocaleString trades m in
  alerts (trace r.2) = alerts (trace m) /\
  processedTradeIds r.2 = processedTradeIds m /\
  trades_api (world r.2) = trades_api (world m) /\
  (cache_ok (userStatsCache m) -> cache_ok (userStatsCache r.2)) /\
  List.map SuspectTrade.trade r.1 `sublist_of` trades.
Proof.
  revert m. induction trades as [|trade trades IH]; intros m; cbv zeta.
  - simpl. done.
  - simpl analyzeTrades. unfold mbind, M_bind, mret, M_ret. cbv zeta.
    destruct (analyzeTrade_frame trade m) as (Ha & Hp & Ht & Hc & Hs).
    cbv zeta in Ha, Hp, Ht, Hc, Hs.
    destruct (IH (analyzeTrade cfg toLocaleString trade m).2)
      as (Ha' & Hp' & Ht' & Hc' & Hs').
    cbv zeta in Ha', Hp', Ht', Hc', Hs'. simpl.
    rewrite Ha', Hp', Ht'. split_and!; try done.
    + intros Hok. by apply Hc', Hc.
    + destruct (analyzeTrade cfg toLocaleString trade m).1 as [suspect|] eqn:E.
      * simpl. rewrite (Hs suspect eq_refl). by apply sublist_skip.
      * by apply sublist_cons.
Qed.

(** [alertSuspects] adds the alerts of the suspects, in order, and
    nothing else changes. *)
Lemma alertSuspects_spec suspects m :
  let r := alertSuspects cfg suspects m in
  alerts (trace r.2) = (alerts (trace m) ++ suspects)%list /\
  processedTradeIds r.2 = processedTradeIds m /\
  userStatsCache r.2 = userStatsCache m /\
  world r.2 = world m.
Proof.
  revert m. induction suspects as [|suspect suspects IH]; intros m; cbv zeta.
  - simpl. by rewrite app_nil_r.
  - simpl alertSuspects. unfold alertSuspect, emit, modify.
    unfold mbind, M_bind, mret, M_ret. cbv zeta.
    destruct (String.eqb (DISCORD_WEBHOOK_URL cfg) "").
    + simpl. edestruct IH as (-> & -> & -> & ->). simpl.
      rewrite alerts_app. simpl. by rewrite <- app_assoc.
    + simpl. edestruct IH as (-> & -> & -> & ->). simpl.
      rewrite !alerts_app. simpl. rewrite app_nil_r. by rewrite <- app_assoc.
Qed.

End Cycle.

Lemma filter_sublist {A} (f : A -> bool) (l : list A) :
  List.filter f l `sublist_of` l.
Proof.
  induction l as [|x l IH]; simpl; [done|].
  destruct (f x); [by apply sublist_skip | by apply sublist_cons].
Qed.

Lemma aggressiveTrades_ids cfg newTrades :
  List.map Trade.id (aggressiveTrades cfg newTrades)
    `sublist_of` List.map Trade.id newTrades.
Proof.
  unfold aggressiveTrades.
  assert (H : List.map Trade.id (List.map with_value newTrades)
              = List.map Trade.id newTrades).
  { rewrite List.map_map. by apply List.map_ext. }
  rewrite <- H. apply (fmap_sublist Trade.id).
  etrans; apply filter_sublist.
Qed.

Section CycleSpec.
Variable cfg : Config.
Variable toLocaleString : Num.number -> string.

Lemma pollTrades_unfold m :
  pollTrades cfg toLocaleString m =
    let f := fetchRecentTrades 100 (set_pollCount (S (pollCount m)) m) in
    let d := dedup f.1 (processedTradeIds f.2) in
    let a := analyzeTrades cfg toLocaleString (aggressiveTrades cfg d.1)
               (set_processedTradeIds d.2 f.2) in
    alertSuspects cfg a.1
      (set_trace
         (trace a.2 ++
          [Summary (length f.1) (length d.1)
             (length (List.filter (is_large cfg) (List.map with_value d.1)))
             (length (aggressiveTrades cfg d.1)) (length a.1)])%list a.2).
Proof. reflexivity. Qed.

(** One cycle: the processed set is the deduplication of the batch the
    feed returned, and the alerts added are about trades handed to
    [analyzeTrade], in their order. *)
Lemma pollTrades_spec m :
  let batch := default [] (outcome (trades_api (world m))) in
  let d := dedup batch (processedTradeIds m) in
  let r := pollTrades cfg toLocaleString m in
  processedTradeIds r.2 = d.2 /\
  trades_api (world r.2) `suffix_of` trades_api (world m) /\
  (batch = [] \/ Ok batch ∈ trades_api (world m)) /\
  (cache_ok (userStatsCache m) -> cache_ok (userStatsCache r.2)) /\
  exists suspects,
    alerts (trace r.2) = (alerts (trace m) ++ suspects)%list /\
    List.map SuspectTrade.trade suspects `sublist_of` aggressiveTrades cfg d.1.
Proof.
  cbv zeta. rewrite pollTrades_unfold. cbv zeta.
  assert (Hm0 : let m0 := set_pollCount (S (pollCount m)) m in
                world m0 = world m /\ processedTradeIds m0 = processedTradeIds m /\
                trace m0 = trace m /\ userStatsCache m0 = userStatsCache m)
    by done.
  cbv zeta in Hm0. destruct Hm0 as (Hw0 & Hp0 & Ht0 & Hc0).
  remember (set_pollCount (S (pollCount m)) m) as m0 eqn:Em0. clear Em0.
  destruct (fetchRecentTrades_spec 100 m0)
    as (Hbatch & Hsuf & Hin & Ha & _ & Hp & Hc & _).
  cbv zeta in Hbatch, Hsuf, Hin, Ha, Hp, Hc.
  remember (fetchRecentTrades 100 m0) as f eqn:Ef. clear Ef.
  rewrite Hw0 in Hbatch, Hsuf, Hin. rewrite Ht0 in Ha. rewrite Hp0 in Hp.
  rewrite Hc0 in Hc. rewrite Hp, Hbatch.
  remember (dedup (default [] (outcome (trades_api (world m))))
              (processedTradeIds m)) as d eqn:Ed. clear Ed.
  destruct (analyzeTrades_frame cfg toLocaleString (aggressiveTrades cfg d.1)
              (set_processedTradeIds d.2 f.2)) as (Ha' & Hp' & Ht' & Hc' & Hs').
  cbv zeta in Ha', Hp', Ht', Hc', Hs'.
  remember (analyzeTrades cfg toLocaleString (aggressiveTrades cfg d.1)
              (set_processedTradeIds d.2 f.2)) as a eqn:Ea. clear Ea.
  simpl in Ha', Hp', Ht', Hc'.
  edestruct (alertSuspects_spec cfg a.1) as (Ha'' & Hp'' & Hc'' & Hw'').
  cbv zeta in Ha'', Hp'', Hc'', Hw''.
  rewrite Ha'', Hp'', Hc'', Hw''. simpl.
  rewrite alerts_app, Ha', Ha, Hp', Ht'. simpl. rewrite app_nil_r.
  split_and!; try done.
  - by rewrite <- Hbatch.
  - intros Hok. apply Hc'. by rewrite Hc.
  - by exists a.1.
Qed.

End CycleSpec.

(** ** Deduplication across cycles *)

Lemma alert_ids_alerts t :
  alert_ids t = List.map (fun s => Trade.id (SuspectTrade.trade s)) (alerts t).
Proof. reflexivity. Qed.

Lemma dedup_new_ids trades processed id :
  id ∈ List.map Trade.id (dedup trades processed).1 <->
  id ∈ List.map Trade.id trades /\ id ∉ processed.
Proof.
  unfold dedup. simpl. split.
  - intros Hin. apply list_elem_of_In, in_map_iff in Hin as (trade & <- & Hin).
    apply filter_In in Hin as [Hin Hnew]. split.
    + apply list_elem_of_In, in_map_iff. by exists trade.
    + apply JSSetFacts.has_false. by apply negb_true_iff in Hnew.
  - intros [Hin Hnew].
    apply list_elem_of_In, in_map_iff in Hin as (trade & <- & Hin).
    apply list_elem_of_In, in_map_iff. exists trade. split; [done|].
    apply filter_In. split; [done|].
    apply negb_true_iff. by apply JSSetFacts.has_false.
Qed.

Lemma dedup_new_sublist trades processed :
  List.map Trade.id (dedup trades processed).1 `sublist_of` List.map Trade.id trades.
Proof. apply (fmap_sublist Trade.id). apply filter_sublist. Qed.

Lemma elem_of_grown trades processed id :
  id ∈ grown trades processed <->
  id ∈ processed \/ id ∈ List.map Trade.id trades.
Proof.
  unfold grown. rewrite JSSetFacts.elem_of_adds, dedup_new_ids.
  destruct (decide (id ∈ processed)); naive_solver.
Qed.

Lemma NoDup_grown trades processed : NoDup processed -> NoDup (grown trades processed).
Proof. apply JSSetFacts.NoDup_adds. Qed.

(** An identifier in the set stays in it through a cycle unless the cap
    removes it. *)
Lemma dedup_keeps_or_evicts trades processed id :
  id ∈ grown trades processed ->
  id ∈ (dedup trades processed).2 \/ id ∈ evicted (grown trades processed).
Proof.
  intros Hin. rewrite dedup_processed, limit_processed_filter.
  destruct (JSSet.has id (evicted (grown trades processed))) eqn:Hev.
  - right. by apply JSSetFacts.has_true.
  - left. apply list_elem_of_In, filter_In. split.
    + by apply list_elem_of_In.
    + by rewrite Hev.
Qed.

(** An identifier in the processed set is new in a later cycle only after
    a cycle in between has evicted it. *)
Lemma cycles_remembered batches : forall processed id j cj,
  id ∈ processed ->
  cycles batches processed !! j = Some cj ->
  id ∈ List.map Trade.id cj.1 ->
  exists k ck, k < j /\ cycles batches processed !! k = Some ck /\ id ∈ ck.2.
Proof.
  induction batches as [|batch batches IH]; intros processed id j cj Hin Hj Hnew;
    [done|].
  destruct j as [|j]; simpl in Hj.
  - injection Hj as <-. simpl in Hnew. apply dedup_new_ids in Hnew. naive_solver.
  - destruct (dedup_keeps_or_evicts batch processed id) as [Hkept|Hev].
    { apply elem_of_grown. by left. }
    + destruct (IH _ id j cj Hkept Hj Hnew) as (k & ck & Hk & Hck & Hid).
      exists (S k), ck. split_and!; [lia|done|done].
    + exists 0, ((dedup batch processed).1, evicted (grown batch processed)).
      split_and!; [lia|done|done].
Qed.

Lemma cycles_once batches : forall processed id i j ci cj,
  i < j ->
  cycles batches processed !! i = Some ci ->
  cycles batches processed !! j = Some cj ->
  id ∈ List.map Trade.id ci.1 ->
  id ∈ List.map Trade.id cj.1 ->
  exists k ck, i <= k < j /\ cycles batches processed !! k = Some ck /\ id ∈ ck.2.
Proof.
  induction batches as [|batch batches IH];
    intros processed id i j ci cj Hij Hi Hj Hnewi Hnewj; [done|].
  destruct j as [|j]; [lia|]. simpl in Hj.
  destruct i as [|i]; simpl in Hi.
  - injection Hi as <-. simpl in Hnewi.
    destruct (dedup_keeps_or_evicts batch processed id) as [Hkept|Hev].
    { apply elem_of_grown. right. by apply dedup_new_ids in Hnewi as [? _]. }
    + destruct (cycles_remembered batches _ id j cj Hkept Hj Hnewj)
        as (k & ck & Hk & Hck & Hid).
      exists (S k), ck. split_and!; [lia|lia|done|done].
    + exists 0, ((dedup batch processed).1, evicted (grown batch processed)).
      split_and!; [lia|lia|done|done].
  - destruct (IH _ id i j ci cj ltac:(lia) Hi Hj Hnewi Hnewj)
      as (k & ck & Hk & Hck & Hid).
    exists (S k), ck. split_and!; [lia|lia|done|done].
Qed.

Lemma script_ids_elem replies batch id :
  Ok batch ∈ replies -> id ∈ List.map Trade.id batch -> id ∈ script_ids replies.
Proof.
  induction replies as [|[b| |] rest IH]; intros Hin Hid.
  - by apply elem_of_nil in Hin.
  - simpl. apply elem_of_cons in Hin as [[= <-]|Hin].
    + apply elem_of_union_l. by apply elem_of_list_to_set.
    + apply elem_of_union_r. by apply IH.
  - simpl. apply elem_of_cons in Hin as [?|Hin]; [done|]. by apply IH.
  - simpl. apply elem_of_cons in Hin as [?|Hin]; [done|]. by apply IH.
Qed.

Lemma script_ids_suffix l1 l2 :
  l1 `suffix_of` l2 -> script_ids l1 ⊆ script_ids l2.
Proof.
  intros [k ->]. induction k as [|[b| |] k IH]; simpl; set_solver.
Qed.

Section DedupInvariant.
Variable cfg : Config.
Variable toLocaleString : Num.number -> string.

Lemma pollTrades_dedup_inv m :
  dedup_inv m -> dedup_inv (pollTrades cfg toLocaleString m).2.
Proof.
  intros (Hnd & Hdist & Hsize & Hsub & Hnda).
  destruct (pollTrades_spec cfg toLocaleString m)
    as (Hp & Hsuf & Hbatch & _ & suspects & Ha & Hsus).
  cbv zeta in Hp, Hsuf, Hbatch, Ha, Hsus.
  set (batch := default [] (outcome (trades_api (world m)))) in *.
  set (P := processedTradeIds m) in *.
  (* the identifiers of the batch are identifiers of the feed *)
  assert (Hbids : forall id, id ∈ List.map Trade.id batch ->
                    id ∈ script_ids (trades_api (world m))).
  { intros id Hid. destruct Hbatch as [Hb|Hb].
    - rewrite Hb in Hid. by apply elem_of_nil in Hid.
    - by apply (script_ids_elem _ batch). }
  assert (Hbnd : NoDup (List.map Trade.id batch)).
  { destruct Hbatch as [->|Hb]; [apply NoDup_nil_2 | by apply Hdist]. }
  (* so the set does not reach the cap *)
  assert (Hg : NoDup (grown batch P)) by by apply NoDup_grown.
  assert (Hgsub : (list_to_set (grown batch P) : gset string)
                    ⊆ script_ids (trades_api (world m)) ∪ list_to_set P).
  { intros id Hid. apply elem_of_list_to_set, elem_of_grown in Hid.
    destruct Hid as [Hid|Hid].
    - apply elem_of_union_r. by apply elem_of_list_to_set.
    - apply elem_of_union_l. by apply Hbids. }
  assert (Hglen : length (grown batch P) < 10000).
  { rewrite <- (size_list_to_set (C:=gset string)) by done.
    eapply Nat.le_lt_trans; [by apply subseteq_size|done]. }
  assert (Hp' : processedTradeIds (pollTrades cfg toLocaleString m).2
                = grown batch P).
  { rewrite Hp, dedup_processed. apply limit_processed_under.
    unfold JSSet.size. lia. }
  (* the alerts of this cycle are about new trades *)
  set (new_ids := List.map (fun s => Trade.id (SuspectTrade.trade s)) suspects).
  assert (Hnew : new_ids `sublist_of` List.map Trade.id (dedup batch P).1).
  { unfold new_ids. rewrite <- (List.map_map SuspectTrade.trade Trade.id).
    etrans; [|apply aggressiveTrades_ids].
    by apply (fmap_sublist Trade.id). }
  assert (Hids : alert_ids (trace (pollTrades cfg toLocaleString m).2)
                 = (alert_ids (trace m) ++ new_ids)%list).
  { rewrite !alert_ids_alerts, Ha. apply List.map_app. }
  split_and!.
  - by rewrite Hp'.
  - intros b Hb. apply Hdist. by eapply elem_of_suffix.
  - rewrite Hp'. eapply Nat.le_lt_trans; [|exact Hsize].
    apply subseteq_size. apply script_ids_suffix in Hsuf.
    apply union_least; [|done].
    etrans; [exact Hsuf | apply union_subseteq_l].
  - intros id. rewrite Hids, Hp', elem_of_app, elem_of_grown.
    intros [Hid|Hid]; [left; by apply Hsub|].
    right. pose proof (elem_of_sublist _ _ _ Hid Hnew) as Hid'.
    by apply dedup_new_ids in Hid' as [? _].
  - rewrite Hids. apply NoDup_app. split_and!.
    + done.
    + intros id Hold Hid.
      pose proof (elem_of_sublist _ _ _ Hid Hnew) as Hid'.
      apply dedup_new_ids in Hid' as [_ Hnot]. apply Hnot. by apply Hsub.
    + refine (sublist_NoDup _ _ _ Hnew).
      by refine (sublist_NoDup _ _ _ (dedup_new_sublist batch P)).
Qed.

End DedupInvariant.

Section Runs.
Variable cfg : Config.
Variable toLocaleString : Num.number -> string.

(** What every poll and every sleep between polls preserves holds when
    [main] stops. *)
Lemma main_preserves (Inv : Machine -> Prop) :
  (forall m, Inv m -> Inv (pollTrades cfg toLocaleString m).2) ->
  (forall m ms, Inv m -> Inv (emit [Idle ms] m).2) ->
  forall polls m, Inv m -> Inv (main cfg toLocaleString polls m).2.
Proof.
  intros Hpoll Hidle polls m Hm. unfold main, mbind, M_bind. cbv zeta.
  apply Hpoll in Hm. revert Hm.
  generalize (pollTrades cfg toLocaleString m).2. clear m.
  induction polls as [|polls IH]; intros m Hm.
  - by apply Hidle.
  - simpl poll_loop. unfold mbind, M_bind. cbv zeta.
    apply IH, Hpoll. by apply Hidle.
Qed.

Lemma main_dedup_inv polls m :
  dedup_inv m -> dedup_inv (main cfg toLocaleString polls m).2.
Proof.
  apply main_preserves.
  - apply pollTrades_dedup_inv.
  - intros m' ms (Hnd & Hdist & Hsize & Hsub & Hnda).
    assert (Hids : alert_ids (trace (emit [Idle ms] m').2) = alert_ids (trace m')).
    { rewrite !alert_ids_alerts. simpl. rewrite alerts_app. simpl.
      by rewrite app_nil_r. }
    split_and!; try done.
    + intros id. rewrite Hids. apply Hsub.
    + by rewrite Hids.
Qed.

(** The cache is in order in every state [main] reaches. *)
Lemma main_cache_ok polls w :
  cache_ok (userStatsCache (main cfg toLocaleString polls (boot w)).2).
Proof.
  apply (main_preserves (fun m => cache_ok (userStatsCache m))).
  - intros m. by apply pollTrades_spec.
  - done.
  - apply cache_ok_empty.
Qed.

End Runs.

Lemma boot_dedup_inv w :
  batches_distinct (trades_api w) ->
  size (script_ids (trades_api w)) < 10000 ->
  dedup_inv (boot w).
Proof.
  intros Hdist Hsize. split_and!; simpl.
  - apply NoDup_nil_2.
  - done.
  - change (size (script_ids (trades_api w) ∪ ∅) < 10000).
    by rewrite union_empty_r_L.
  - intros id Hid. by apply elem_of_nil in Hid.
  - apply NoDup_nil_2.
Qed.

(** C3, as stated, fails: a batch that lists a trade twice gets two alerts
    for one identifier, in one cycle, with a single identifier ever seen. *)
Lemma duplicate_alert_counterexample :
  let trade := sample_trade "0.5" "12000" in
  let w := sample_world [trade; trade] ["0x5c3e"] in
  size (script_ids (trades_api w)) = 1 /\
  alert_ids (trace (main default_config EnUS.toLocaleString 0 (boot w)).2)
    = [Trade.id trade; Trade.id trade].
Proof. vm_compute. done. Qed.

(** C3, amended. An identifier that is new in one cycle is not new in a
    later cycle unless the cap evicted it in a cycle in between; the set a
    poll leaves is the deduplication of the batch it fetched; and in a run
    whose feed shows fewer than 10000 identifiers and never lists one
    twice in a batch, no two alerts are about the same identifier. *)
Theorem alerts_once_per_identifier :
  (forall batches processed id i j ci cj,
     i < j ->
     cycles batches processed !! i = Some ci ->
     cycles batches processed !! j = Some cj ->
     id ∈ List.map Trade.id ci.1 ->
     (forall k ck, i <= k < j ->
        cycles batches processed !! k = Some ck -> id ∉ ck.2) ->
     id ∉ List.map Trade.id cj.1) /\
  (forall cfg toLocaleString m,
     let batch := default [] (outcome (trades_api (world m))) in
     processedTradeIds (pollTrades cfg toLocaleString m).2
       = (dedup batch (processedTradeIds m)).2) /\
  (forall cfg toLocaleString polls w,
     batches_distinct (trades_api w) ->
     size (script_ids (trades_api w)) < 10000 ->
     NoDup (alert_ids (trace (main cfg toLocaleString polls (boot w)).2))).
Proof.
  split_and!.
  - intros batches processed id i j ci cj Hij Hi Hj Hnewi Hkept Hnewj.
    destruct (cycles_once batches processed id i j ci cj Hij Hi Hj Hnewi Hnewj)
      as (k & ck & Hk & Hck & Hid).
    by apply (Hkept k ck).
  - intros cfg toLocaleString m. by apply pollTrades_spec.
  - intros cfg toLocaleString polls w Hdist Hsize.
    by apply main_dedup_inv, boot_dedup_inv.
Qed.

Lemma alerts_once_per_identifier_witness :
  let t1 := sample_trade "0.5" "12000" in
  let t2 := Trade.mk "0xf1a3" "0x5c3e" BUY "9000" "0.7" "No"
              "0x31a56e9E690c621eD21De08Cb559e9524Cdb8eD9"
              "2025-01-01T00:00:02Z" "0x9b1e" None in
  let w := {| trades_api := [Ok [t1]; Ok [t1; t2]];
              activity_api := [Ok (sample_history ["0x5c3e"])];
              markets_api := [Ok []];
              clock := fun _ => 1735689600000%Z |} in
  (Trade.id t1 ∉ List.map Trade.id (dedup [t1; t2] (dedup [t1] []).2).1) /\
  NoDup (alert_ids (trace (main default_config EnUS.toLocaleString 1 (boot w)).2)) /\
  alert_ids (trace (main default_config EnUS.toLocaleString 1 (boot w)).2)
    = [Trade.id t1; Trade.id t2].
Proof.
  intros t1 t2 w.
  destruct alerts_once_per_identifier as (Honce & _ & Hrun).
  split_and!.
  - apply (Honce [[t1]; [t1; t2]] [] (Trade.id t1) 0 1
             ((dedup [t1] []).1, evicted (grown [t1] []))
             ((dedup [t1; t2] (dedup [t1] []).2).1,
              evicted (grown [t1; t2] (dedup [t1] []).2))).
    + lia.
    + reflexivity.
    + reflexivity.
    + vm_compute. left.
    + intros k ck Hk Hck. assert (k = 0) as -> by lia.
      change (Some ((dedup [t1] []).1, evicted (grown [t1] [])) = Some ck) in Hck.
      injection Hck as <-. vm_compute. apply not_elem_of_nil.
  - apply Hrun.
    + intros batch Hb. unfold w in Hb. simpl in Hb.
      repeat (apply elem_of_cons in Hb as [[= ->]|Hb]).
      * apply NoDup_singleton.
      * apply NoDup_cons. split; [|apply NoDup_singleton].
        rewrite list_elem_of_singleton. discriminate.
      * by apply elem_of_nil in Hb.
    + apply Nat.ltb_lt. vm_compute. reflexivity.
  - vm_compute. reflexivity.
Defined.

(** ** One large trade from a one-market wallet *)

(** C2, as stated, fails: the alert for a $6000 BUY from a wallet with one
    known market is HIGH, but through the large-position tier, which is
    tried first; its reason names the market count and the position, and
    does not contain the brand-new-wallet clause. *)
Lemma brand_new_clause_counterexample :
  let trade := sample_trade "0.5" "12000" in
  let w := sample_world [trade] ["0x5c3e"] in
  let m := (pollTrades default_config EnUS.toLocaleString (boot w)).2 in
  calculateTradeValue trade = Num.of_Z 6000 /\
  List.map SuspectTrade.alertLevel (alerts (trace m)) = [HIGH] /\
  List.map SuspectTrade.reason (alerts (trace m)) =
    ["Fresh Wallet (1 lifetime market) | Taker BUY (aggressive) | Large Position ($6,000)"] /\
  List.map (fun s => Str.includes "Brand New Wallet" (SuspectTrade.reason s))
    (alerts (trace m)) = [false] /\
  List.map (fun s => Str.includes "brand-new wallet" (SuspectTrade.reason s))
    (alerts (trace m)) = [false].
Proof. vm_compute. done. Qed.

(** C2, amended. A cycle whose batch is one new BUY trade worth $6000 (at
    least the configured minimum) from a wallet with exactly one known
    market, under a ceiling of at least 1, adds exactly one alert; it is
    HIGH, about that trade, and its reason is the market-count clause, the
    taker-buy clause and the large-position clause. *)
Theorem pollTrades_single_large_trade :
  forall cfg toLocaleString trade m,
    outcome (trades_api (world m)) = Some [trade] ->
    JSSet.has (Trade.id trade) (processedTradeIds m) = false ->
    calculateTradeValue trade = Num.of_Z 6000 ->
    Num.geb (Num.of_Z 6000) (Num.of_Z (MIN_TRADE_SIZE_USD cfg)) = true ->
    Trade.side trade = BUY ->
    Trade.owner trade <> "" ->
    (1 <= MAX_UNIQUE_MARKETS cfg)%Z ->
    Stats.uniqueMarkets (lookupUserStats (Trade.owner trade) m).1 = 1 ->
    exists suspect,
      alerts (trace (pollTrades cfg toLocaleString m).2)
        = (alerts (trace m) ++ [suspect])%list /\
      SuspectTrade.trade suspect = with_value trade /\
      SuspectTrade.alertLevel suspect = HIGH /\
      UserStats.uniqueMarkets (SuspectTrade.userStats suspect) = 1 /\
      SuspectTrade.reason suspect =
        "Fresh Wallet (1 lifetime market) | Taker BUY (aggressive) | Large Position ($"
          +:+ toLocaleString (Num.of_Z 6000) +:+ ")".
Proof.
  intros cfg toLocaleString trade m Hfeed Hnew Hvalue Hmin Hside Howner Hmax Hum.
  rewrite pollTrades_unfold. cbv zeta.
  assert (Hm0 : let m0 := set_pollCount (S (pollCount m)) m in
                world m0 = world m /\ processedTradeIds m0 = processedTradeIds m /\
                trace m0 = trace m /\ userStatsCache m0 = userStatsCache m /\
                ticks m0 = ticks m)
    by done.
  cbv zeta in Hm0. destruct Hm0 as (Hw0 & Hp0 & Ht0 & Hc0 & Hk0).
  remember (set_pollCount (S (pollCount m)) m) as m0 eqn:Em0. clear Em0.
  destruct (fetchRecentTrades_spec 100 m0)
    as (Hbatch & _ & _ & Ha & _ & Hp & Hc & Hact & Hclock & Hticks).
  cbv zeta in Hbatch, Ha, Hp, Hc, Hact, Hclock, Hticks.
  remember (fetchRecentTrades 100 m0) as f eqn:Ef. clear Ef.
  rewrite Hw0 in Hbatch, Hact, Hclock. rewrite Ht0 in Ha. rewrite Hp0 in Hp.
  rewrite Hc0 in Hc. rewrite Hk0 in Hticks.
  rewrite Hfeed in Hbatch. simpl in Hbatch. rewrite Hp, Hbatch.
  (* the trade is new, large and aggressive *)
  assert (Hd : dedup [trade] (processedTradeIds m)
               = ([trade], limit_processed
                             (JSSet.add (Trade.id trade) (processedTradeIds m)))).
  { unfold dedup. simpl. by rewrite Hnew. }
  rewrite Hd. simpl fst. simpl snd.
  assert (Hagg : aggressiveTrades cfg [trade] = [with_value trade]).
  { unfold aggressiveTrades. simpl.
    unfold is_large at 1. simpl. rewrite Hvalue, Hmin. simpl.
    unfold is_aggressive. simpl. rewrite Hside.
    by destruct (String.eqb_spec (Trade.owner trade) ""). }
  rewrite Hagg.
  set (m2 := set_processedTradeIds _ f.2).
  (* the one analysis *)
  assert (Hlookup : (lookupUserStats (Trade.owner trade) m2).1
                    = (lookupUserStats (Trade.owner trade) m).1).
  { by apply lookupUserStats_result_indep. }
  destruct (analyzeTrade_frame cfg toLocaleString (with_value trade) m2)
    as (Haa & _).
  cbv zeta in Haa.
  pose proof (analyzeTrade_unfold cfg toLocaleString (with_value trade) m2 Howner)
    as Hunfold.
  cbv zeta in Hunfold.
  change (Trade.owner (with_value trade)) with (Trade.owner trade) in Hunfold.
  rewrite Hlookup, Hum in Hunfold.
  destruct (Z.leb_spec (Z.of_nat 1) (MAX_UNIQUE_MARKETS cfg)); [|lia].
  assert (Hv : Trade.valueUsd_or_zero (with_value trade) = Num.of_Z 6000).
  { unfold Trade.valueUsd_or_zero. simpl. rewrite Hvalue. reflexivity. }
  rewrite Hv in Hunfold.
  simpl analyzeTrades. unfold mbind, M_bind, mret, M_ret. cbv zeta.
  rewrite Hunfold. cbn [fst snd].
  destruct (lookupMarket_spec (Trade.market (with_value trade))
              (lookupUserStats (Trade.owner trade) m2).2) as (Hma & _).
  destruct (lookupUserStats_frame (Trade.owner trade) m2) as (Hla & _).
  cbv zeta in Hma, Hla.
  remember (lookupMarket (Trade.market (with_value trade))
              (lookupUserStats (Trade.owner trade) m2).2) as k eqn:Ek. clear Ek.
  eexists. split_and!.
  - edestruct (alertSuspects_spec cfg) as (-> & _). cbn [trace set_trace].
    rewrite alerts_app, Hma, Hla. unfold m2. cbn [trace set_processedTradeIds].
    rewrite Ha. simpl. by rewrite app_nil_r.
  - reflexivity.
  - reflexivity.
  - reflexivity.
  - reflexivity.
Qed.

Lemma pollTrades_single_large_trade_witness :
  let trade := sample_trade "0.5" "12000" in
  let w := sample_world [trade] ["0x5c3e"] in
  exists suspect,
    alerts (trace (pollTrades default_config EnUS.toLocaleString (boot w)).2)
      = [suspect] /\
    SuspectTrade.trade suspect = with_value trade /\
    SuspectTrade.alertLevel suspect = HIGH /\
    UserStats.uniqueMarkets (SuspectTrade.userStats suspect) = 1 /\
    SuspectTrade.reason suspect =
      "Fresh Wallet (1 lifetime market) | Taker BUY (aggressive) | Large Position ($6,000)".
Proof.
  intros trade w.
  apply (pollTrades_single_large_trade default_config EnUS.toLocaleString
           trade (boot w)).
  - reflexivity.
  - reflexivity.
  - vm_compute. reflexivity.
  - vm_compute. reflexivity.
  - reflexivity.
  - discriminate.
  - simpl. lia.
  - vm_compute. reflexivity.
Defined.

(** ** A run past the cap *)

Lemma adds_fresh {A} (key : A -> string) (l : list A) : forall s : JSSet.t,
  NoDup (List.map key l) ->
  (forall a, a ∈ l -> key a ∉ s) ->
  JSSet.adds key s l = (s ++ List.map key l)%list.
Proof.
  induction l as [|a l IH]; intros s Hnd Hfresh.
  - simpl. by rewrite app_nil_r.
  - change (JSSet.adds key s (a :: l))
      with (JSSet.adds key (JSSet.add (key a) s) l).
    simpl in Hnd. apply NoDup_cons in Hnd as [Ha Hnd].
    assert (Hadd : JSSet.add (key a) s = (s ++ [key a])%list).
    { unfold JSSet.add.
      destruct (JSSet.has (key a) s) eqn:E; [|done].
      apply JSSetFacts.has_true in E. exfalso. apply (Hfresh a); [by left|done]. }
    rewrite Hadd, IH; [by rewrite <- app_assoc|done|].
    intros b Hb. rewrite not_elem_of_app, list_elem_of_singleton. split.
    + apply Hfresh. by right.
    + intros Heq. apply Ha. rewrite <- Heq.
      apply list_elem_of_In, in_map. by apply list_elem_of_In.
Qed.

Lemma grown_from_empty trades :
  NoDup (List.map Trade.id trades) ->
  grown trades [] = List.map Trade.id trades.
Proof.
  intros Hnd. unfold grown.
  assert (Hnew : (dedup trades []).1 = trades).
  { unfold dedup. simpl. induction trades as [|t l IH]; simpl; [done|].
    f_equal. apply IH. simpl in Hnd. by apply NoDup_cons in Hnd as [_ ?]. }
  rewrite Hnew. rewrite adds_fresh; [done|done|].
  intros a _. apply not_elem_of_nil.
Qed.

Lemma numbered_trades_ids n :
  List.map Trade.id (numbered_trades n) = List.map pretty (seq 0 n).
Proof. unfold numbered_trades. rewrite List.map_map. by apply List.map_ext. Qed.

Lemma numbered_trades_NoDup n : NoDup (List.map Trade.id (numbered_trades n)).
Proof.
  rewrite numbered_trades_ids.
  apply (NoDup_fmap_2 (pretty : nat -> string)), NoDup_seq.
Qed.

(** C6. Whenever the processed set holds more than 10000 identifiers once
    a poll has added the new identifiers of its batch, the poll leaves
    [processedTradeIds] without its first 5000 identifiers in insertion
    order, and with all the later ones, in the same order; while the set
    holds at most 10000, the poll evicts nothing. *)
Theorem pollTrades_evicts_oldest_5000 :
  forall cfg toLocaleString m,
    NoDup (processedTradeIds m) ->
    let batch := default [] (outcome (trades_api (world m))) in
    let before := grown batch (processedTradeIds m) in
    let after := processedTradeIds (pollTrades cfg toLocaleString m).2 in
    ((10000 < JSSet.size before)%nat ->
       after = skipn 5000 before /\
       before = (firstn 5000 before ++ after)%list /\
       length (firstn 5000 before) = 5000 /\
       (forall id, id ∈ firstn 5000 before -> JSSet.has id after = false) /\
       (forall id, id ∈ skipn 5000 before -> JSSet.has id after = true)) /\
    ((JSSet.size before <= 10000)%nat -> after = before).
Proof.
  intros cfg toLocaleString m Hnd. cbv zeta.
  destruct (pollTrades_spec cfg toLocaleString m) as (Hp & _).
  cbv zeta in Hp. rewrite Hp. split.
  - intros Hsize. by apply dedup_evicts_oldest.
  - intros Hsize. rewrite dedup_processed. by apply limit_processed_under.
Qed.

Lemma pollTrades_evicts_oldest_5000_witness :
  let w := mkWorld [Ok (numbered_trades (S 10000))] [] [] (fun _ => 0%Z) in
  processedTradeIds (pollTrades default_config EnUS.toLocaleString (boot w)).2
    = skipn 5000 (List.map pretty (seq 0 (S 10000))) /\
  length (firstn 5000 (List.map (pretty : nat -> string) (seq 0 (S 10000)))) = 5000.
Proof.
  intros w.
  assert (Hg : grown (numbered_trades (S 10000)) []
               = List.map pretty (seq 0 (S 10000))).
  { rewrite grown_from_empty by apply numbered_trades_NoDup.
    apply numbered_trades_ids. }
  assert (Hsize : (10000 < JSSet.size (grown (numbered_trades (S 10000)) []))%nat).
  { rewrite Hg. unfold JSSet.size. rewrite length_map, length_seq. lia. }
  pose proof (pollTrades_evicts_oldest_5000 default_config EnUS.toLocaleString
                (boot w) NoDup_nil_2) as H.
  cbv zeta in H.
  change (default [] (outcome (trades_api (world (boot w)))))
    with (numbered_trades (S 10000)) in H.
  change (processedTradeIds (boot w)) with (@nil string) in H.
  destruct H as [Hover _].
  destruct (Hover Hsize) as (Hafter & _ & Hlen & _).
  rewrite Hg in Hafter, Hlen. by split.
Defined.

(** * More properties of the pipeline *)

(** ** The retry loop, reply by reply *)

Lemma requests_app t1 t2 : requests (t1 ++ t2) = (requests t1 ++ requests t2)%list.
Proof. unfold requests. apply omap_app. Qed.

Lemma raised_succ n backoff :
  raised (S n) backoff =
    raised n (Z.min (backoff * BACKOFF_MULTIPLIER) MAX_BACKOFF_MS).
Proof.
  unfold raised. induction n as [|n IH]; [done|].
  change (Nat.iter (S (S n)) ?f ?x) with (f (Nat.iter (S n) f x)).
  rewrite IH. done.
Qed.

Lemma raised_retry_delay n k : raised n (retry_delay k) = retry_delay (k + n).
Proof.
  revert k. induction n as [|n IH]; intros k.
  - by rewrite Nat.add_0_r.
  - rewrite raised_succ, retry_delay_succ, IH. f_equal. lia.
Qed.

Section RetryRun.
Context {R T : Type} (endpoint : string) (extract : R -> T).

(** A run of [n] throttled replies costs [n] requests and [n] sleeps, of
    the backoff raised step by step, and hands the raised backoff on. *)
Lemma withRetry_from_run n : forall backoff (rest : list (reply R)),
  let r := withRetry_from endpoint extract
             (replicate n Status429 ++ rest) backoff in
  let r' := withRetry_from endpoint extract rest (raised n backoff) in
  r.1 = r'.1 /\
  requests r.2 = (replicate n endpoint ++ requests r'.2)%list /\
  sleeps r.2 =
    (List.map (fun i => raised i backoff) (seq 0 n) ++ sleeps r'.2)%list /\
  forallb is_net_event r.2 = forallb is_net_event r'.2.
Proof.
  induction n as [|n IH]; intros backoff rest; cbv zeta.
  - done.
  - rewrite raised_succ. simpl replicate. simpl app. simpl withRetry_from.
    destruct (IH (Z.min (backoff * BACKOFF_MULTIPLIER) MAX_BACKOFF_MS) rest)
      as (H1 & H2 & H3 & H4). cbv zeta in H1, H2, H3, H4.
    split_and!.
    + rewrite <- H1. by destruct (withRetry_from _ _ _ _) as [[[? ?] ?] ?].
    + simpl. by rewrite H2.
    + simpl. rewrite H3. do 2 f_equal.
      rewrite <- seq_shift, List.map_map. apply List.map_ext.
      intros i. by rewrite raised_succ.
    + simpl. by rewrite H4.
Qed.

Lemma withRetry_from_net (replies : list (reply R)) backoff :
  forallb is_net_event (withRetry_from endpoint extract replies backoff).2 = true.
Proof.
  revert backoff. induction replies as [|[data| |] rest IH]; intros backoff;
    try done.
  simpl. apply IH.
Qed.
End RetryRun.

(** X1. A call of [withRetry] whose endpoint answers [n] times with a 429
    and then with something else makes [n + 1] requests to that endpoint
    and [n] sleeps, each of the backoff raised once more, and consumes
    exactly these [n + 1] replies; it returns the data of a success and
    [null] for a failure; a success leaves the backoff at the floor, a
    failure leaves it raised. *)
Theorem withRetry_accounting :
  forall {R T : Type} (ep : Endpoint R) (extract : R -> T) (m : Machine)
         n (last : reply R) rest,
    script ep (world m) = (replicate n Status429 ++ last :: rest)%list ->
    last <> Status429 ->
    let out := withRetry ep extract m in
    (exists evs,
       trace out.2 = (trace m ++ evs)%list /\
       requests evs = replicate (S n) (endpoint_name ep) /\
       sleeps evs = List.map (fun i => raised i (currentBackoff m)) (seq 0 n) /\
       forallb is_net_event evs = true) /\
    world out.2 = set_script ep rest (world m) /\
    out.1 = match last with Ok data => Some (extract data) | _ => None end /\
    currentBackoff out.2 =
      match last with
      | Ok _ => INITIAL_BACKOFF_MS
      | _ => raised n (currentBackoff m)
      end.
Proof.
  intros R T ep extract m n last rest Hs Hlast. cbv zeta.
  unfold withRetry. simpl. rewrite Hs.
  destruct (withRetry_from_run (endpoint_name ep) extract n (currentBackoff m)
              (last :: rest)) as (H1 & H2 & H3 & _).
  cbv zeta in H1, H2, H3.
  set (r := withRetry_from (endpoint_name ep) extract
              (replicate n Status429 ++ last :: rest) (currentBackoff m)) in *.
  assert (Hr : r = (r.1.1.1, r.1.1.2, r.1.2, r.2)) by by destruct r as [[[? ?] ?] ?].
  split_and!.
  - exists r.2. split_and!; [done| | |apply withRetry_from_net].
    + rewrite H2.
      assert (Hreq : requests (withRetry_from (endpoint_name ep) extract
                                  (last :: rest) (raised n (currentBackoff m))).2
                      = [endpoint_name ep]) by by destruct last.
      rewrite Hreq, <- replicate_cons_app. done.
    + rewrite H3. rewrite <- (app_nil_r (List.map _ _)) at 2. f_equal.
      by destruct last.
  - rewrite H1. by destruct last.
  - rewrite H1. by destruct last.
  - rewrite H1. by destruct last.
Qed.

Lemma withRetry_accounting_witness :
  let w := mkWorld [Status429; Status429; Failure; Ok []] [] [] (fun _ => 0%Z) in
  let out := withRetry trades_endpoint (fun data => data) (boot w) in
  trades_api (world out.2) = [Ok []] /\
  out.1 = None /\
  currentBackoff out.2 = 4000%Z /\
  requests (trace out.2) = ["/trades"; "/trades"; "/trades"] /\
  sleeps (trace out.2) = [1000; 2000]%Z.
Proof.
  intros w out.
  destruct (withRetry_accounting trades_endpoint (fun data => data) (boot w)
              2 Failure [Ok []] eq_refl ltac:(discriminate))
    as ((evs & Ht & Hreq & Hsl & _) & Hw & Hres & Hb).
  fold out in Ht, Hw, Hres, Hb.
  split_and!.
  - by rewrite Hw.
  - done.
  - by rewrite Hb.
  - rewrite Ht. simpl. by rewrite Hreq.
  - rewrite Ht. simpl. by rewrite Hsl.
Defined.

(** X2. The delay is shared and only a success lowers it: after a call
    that met [n] throttled replies and then failed, starting [k] steps
    above the floor, the next call, on whatever endpoint, sleeps
    [min (1000 * 2^(k + n)) 60000] before its first retry and goes on
    from there. *)
Theorem withRetry_failure_keeps_backoff :
  forall {R1 T1 R2 T2 : Type} (ep1 : Endpoint R1) (extract1 : R1 -> T1)
         (ep2 : Endpoint R2) (extract2 : R2 -> T2) (m : Machine) k n rest,
    currentBackoff m = retry_delay k ->
    script ep1 (world m) = (replicate n Status429 ++ Failure :: rest)%list ->
    let m1 := (withRetry ep1 extract1 m).2 in
    currentBackoff m1 = retry_delay (k + n) /\
    forall n2 rest2,
      script ep2 (world m1) = (replicate n2 Status429 ++ rest2)%list ->
      head rest2 <> Some Status429 ->
      sleeps (trace (withRetry ep2 extract2 m1).2) =
        (sleeps (trace m1) ++
         List.map (fun i => Z.min (1000 * 2 ^ Z.of_nat i) 60000)
           (seq (k + n) n2))%list.
Proof.
  intros R1 T1 R2 T2 ep1 extract1 ep2 extract2 m k n rest Hb Hs. cbv zeta.
  assert (Hb1 : currentBackoff (withRetry ep1 extract1 m).2 = retry_delay (k + n)).
  { unfold withRetry. simpl. rewrite Hs, Hb.
    destruct (withRetry_from_run (endpoint_name ep1) extract1 n (retry_delay k)
                (Failure :: rest)) as (H1 & _).
    cbv zeta in H1. rewrite H1. simpl. apply raised_retry_delay. }
  split; [done|].
  intros n2 rest2 Hs2 Hrest2.
  remember (withRetry ep1 extract1 m).2 as m1 eqn:Em1. clear Em1.
  unfold withRetry. simpl. rewrite sleeps_app, Hs2, Hb1. f_equal.
  destruct (withRetry_from_throttled (endpoint_name ep2) extract2 n2 (k + n) rest2)
    as [_ H]. cbv zeta in H. rewrite H.
  assert (Hlater : sleeps (withRetry_from (endpoint_name ep2) extract2 rest2
                             (retry_delay (k + n + n2))).2 = []).
  { destruct rest2 as [|[data| |] rest2']; try done. }
  rewrite Hlater, app_nil_r. done.
Qed.

Lemma withRetry_failure_keeps_backoff_witness :
  let w := mkWorld [Ok []] [Status429; Status429; Failure] [Status429; Ok []]
             (fun _ => 0%Z) in
  let m1 := (withRetry activity_endpoint (fun data => data) (boot w)).2 in
  currentBackoff m1 = 4000%Z /\
  sleeps (trace (withRetry markets_endpoint (fun data => head data) m1).2)
    = [1000; 2000; 4000]%Z.
Proof.
  intros w m1.
  destruct (withRetry_failure_keeps_backoff activity_endpoint (fun data => data)
              markets_endpoint (fun data : list Market.t => head data)
              (boot w) 0 2 [] eq_refl eq_refl) as (Hb & Hnext).
  split; [exact Hb|].
  apply (Hnext 1 [Ok []]); [reflexivity | discriminate].
Defined.

(** ** What each step of a cycle touches *)

Lemma market_fetches_app t1 t2 :
  market_fetches (t1 ++ t2) = (market_fetches t1 ++ market_fetches t2)%list.
Proof. unfold market_fetches. apply omap_app. Qed.

Lemma webhooks_app t1 t2 : webhooks (t1 ++ t2) = (webhooks t1 ++ webhooks t2)%list.
Proof. unfold webhooks. apply omap_app. Qed.

Lemma summaries_app t1 t2 :
  summaries (t1 ++ t2) = (summaries t1 ++ summaries t2)%list.
Proof. unfold summaries. apply omap_app. Qed.


(** Fetcher events are no alerts, webhook posts, summaries or idle sleeps. *)
Lemma net_events_silent evs :
  forallb is_net_event evs = true ->
  alerts evs = [] /\ webhooks evs = [] /\ summaries evs = [] /\ idles evs = [].
Proof.
  induction evs as [|e evs IH]; [done|]. simpl.
  intros [He Hevs]%andb_true_iff. destruct (IH Hevs) as (? & ? & ? & ?).
  by destruct e.
Qed.

Section RetryRange.
Context {R T : Type} (endpoint : string) (extract : R -> T).

Lemma withRetry_from_range (replies : list (reply R)) backoff :
  in_range backoff ->
  in_range (withRetry_from endpoint extract replies backoff).1.2 /\
  Forall in_range (sleeps (withRetry_from endpoint extract replies backoff).2).
Proof.
  revert backoff. induction replies as [|[data| |] rest IH]; intros backoff Hb.
  - split; [done | apply Forall_nil_2].
  - split; [|apply Forall_nil_2]. unfold in_range. simpl.
    unfold INITIAL_BACKOFF_MS, MAX_BACKOFF_MS. lia.
  - simpl. edestruct IH as [H1 H2]; [|split; [exact H1|]].
    + unfold in_range, INITIAL_BACKOFF_MS, MAX_BACKOFF_MS, BACKOFF_MULTIPLIER in *. lia.
    + apply Forall_cons. split; [done|exact H2].
  - split; [done | apply Forall_nil_2].
Qed.

Lemma withRetry_from_no_calls (replies : list (reply R)) backoff :
  market_fetches (withRetry_from endpoint extract replies backoff).2 = [].
Proof.
  revert backoff. induction replies as [|[data| |] rest IH]; intros backoff;
    try done.
  simpl. apply IH.
Qed.
End RetryRange.

(** [withRetry] on the process state: the events it adds and the fields it
    leaves alone. *)
Lemma withRetry_footprint {R T} (ep : Endpoint R) (extract : R -> T) m :
  let r := withRetry ep extract m in
  (exists evs,
     trace r.2 = (trace m ++ evs)%list /\
     forallb is_net_event evs = true /\
     market_fetches evs = [] /\
     activity_fetches evs = [] /\
     (in_range (currentBackoff m) ->
        in_range (currentBackoff r.2) /\ Forall in_range (sleeps evs))) /\
  processedTradeIds r.2 = processedTradeIds m /\
  userStatsCache r.2 = userStatsCache m /\
  marketCache r.2 = marketCache m /\
  pollCount r.2 = pollCount m /\
  ticks r.2 = ticks m /\
  world r.2 = set_script ep (withRetry_from (endpoint_name ep) extract
                               (script ep (world m)) (currentBackoff m)).1.1.2
                (world m).
Proof.
  cbv zeta. unfold withRetry. simpl. split_and!; try done.
  eexists. split_and!; [done|apply withRetry_from_net|apply withRetry_from_no_calls
                        |apply withRetry_from_trace|apply withRetry_from_range].
Qed.

Lemma fetchRecentTrades_eq limit m :
  fetchRecentTrades limit m =
    let r := withRetry trades_endpoint (fun data : list Trade.t => data)
               (set_trace (trace m ++ [Call FetchRecentTrades]) m) in
    (default [] r.1, r.2).
Proof. reflexivity. Qed.

Lemma fetchUserActivity_eq address m :
  fetchUserActivity address m =
    let r := withRetry activity_endpoint (fun data : list UserActivity.t => data)
               (set_trace (trace m ++ [Call (FetchUserActivity address)]) m) in
    (default [] r.1, r.2).
Proof. reflexivity. Qed.

Lemma fetchMarketDetails_eq conditionId m :
  fetchMarketDetails conditionId m =
    let r := withRetry markets_endpoint (fun data : list Market.t => head data)
               (set_trace (trace m ++ [Call (FetchMarketDetails conditionId)]) m) in
    (mjoin r.1, r.2).
Proof. reflexivity. Qed.

Lemma fetchRecentTrades_step limit : fetch_step (fetchRecentTrades limit).
Proof.
  intros m. cbv zeta. rewrite fetchRecentTrades_eq. cbv zeta.
  destruct (withRetry_footprint trades_endpoint (fun data : list Trade.t => data)
              (set_trace (trace m ++ [Call FetchRecentTrades]) m))
    as ((evs & Ht & Hnet & _ & _ & Hrange) & Hp & _ & _ & Hc & _).
  cbv zeta in Ht, Hrange, Hp, Hc. cbn [fst snd]. rewrite Hp, Hc, Ht.
  split; [|done].
  exists (Call FetchRecentTrades :: evs). split_and!.
  - cbn [trace set_trace]. by rewrite <- app_assoc.
  - done.
  - intros Hb. by apply Hrange in Hb.
Qed.

Lemma fetchRecentTrades_market_quiet limit : market_quiet (fetchRecentTrades limit).
Proof.
  intros m. cbv zeta. rewrite fetchRecentTrades_eq. cbv zeta.
  destruct (withRetry_footprint trades_endpoint (fun data : list Trade.t => data)
              (set_trace (trace m ++ [Call FetchRecentTrades]) m))
    as ((evs & Ht & _ & Hmf & _) & _ & _ & Hmc & _ & _ & Hw).
  cbv zeta in Ht, Hmc, Hw. cbn [fst snd]. rewrite Hmc, Ht, Hw.
  split_and!; [done..|].
  cbn [trace set_trace]. rewrite !market_fetches_app, Hmf. simpl.
  by rewrite !app_nil_r.
Qed.

Lemma refreshUserStats_eq walletAddress now m :
  refreshUserStats walletAddress now m =
    let f := fetchUserActivity walletAddress m in
    let userStats := calculateUserStats walletAddress f.1 in
    (userStats,
     set_userStatsCache
       (limit_cache
          (JSMap.set walletAddress
             (CachedStats.mk (Stats.uniqueMarkets userStats)
                (Stats.totalTrades userStats) now)
             (userStatsCache f.2))) f.2).
Proof. reflexivity. Qed.

Lemma lookupUserStats_step walletAddress : fetch_step (lookupUserStats walletAddress).
Proof.
  intros m. cbv zeta.
  destruct (fresh_entry walletAddress m) as [c|] eqn:Hfresh.
  - rewrite (lookupUserStats_hit _ _ _ Hfresh). cbn [fst snd]. split; [|done].
    exists []. split_and!; [by rewrite app_nil_r | done |].
    intros Hb. split; [done | apply Forall_nil_2].
  - rewrite (lookupUserStats_miss _ _ Hfresh), refreshUserStats_eq. cbv zeta.
    rewrite fetchUserActivity_eq. cbv zeta. cbn [fst snd].
    destruct (withRetry_footprint activity_endpoint
                (fun data : list UserActivity.t => data)
                (set_trace (trace (set_ticks (S (ticks m)) m)
                              ++ [Call (FetchUserActivity walletAddress)])
                   (set_ticks (S (ticks m)) m)))
      as ((evs & Ht & Hnet & _ & _ & Hrange) & Hp & _ & _ & Hc & _).
    cbv zeta in Ht, Hrange, Hp, Hc.
    cbn [trace processedTradeIds pollCount currentBackoff set_userStatsCache].
    rewrite Hp, Hc, Ht. split; [|done].
    exists (Call (FetchUserActivity walletAddress) :: evs). split_and!.
    + cbn [trace set_trace set_ticks]. by rewrite <- app_assoc.
    + done.
    + intros Hb. by apply Hrange in Hb.
Qed.

Lemma lookupUserStats_market_quiet walletAddress :
  market_quiet (lookupUserStats walletAddress).
Proof.
  intros m. cbv zeta.
  destruct (fresh_entry walletAddress m) as [c|] eqn:Hfresh.
  - by rewrite (lookupUserStats_hit _ _ _ Hfresh).
  - rewrite (lookupUserStats_miss _ _ Hfresh), refreshUserStats_eq. cbv zeta.
    rewrite fetchUserActivity_eq. cbv zeta. cbn [fst snd].
    destruct (withRetry_footprint activity_endpoint
                (fun data : list UserActivity.t => data)
                (set_trace (trace (set_ticks (S (ticks m)) m)
                              ++ [Call (FetchUserActivity walletAddress)])
                   (set_ticks (S (ticks m)) m)))
      as ((evs & Ht & _ & Hmf & _) & _ & _ & Hmc & _ & _ & Hw).
    cbv zeta in Ht, Hmc, Hw.
    cbn [trace marketCache world set_userStatsCache].
    rewrite Hmc, Ht, Hw. split_and!; [done..|].
    cbn [trace set_trace set_ticks]. rewrite !market_fetches_app, Hmf. simpl.
    by rewrite !app_nil_r.
Qed.

(** [lookupMarket], case by case: a cached market (or a cached [null]) is
    returned with nothing done; an uncached one is fetched once and what
    the fetch returned is cached. *)
Lemma lookupMarket_cached conditionId m market :
  marketCache m !! conditionId = Some market ->
  lookupMarket conditionId m = (market, m).
Proof.
  intros H. unfold lookupMarket, gets, mbind, M_bind. cbv zeta. cbn [fst snd].
  by rewrite H.
Qed.

Lemma lookupMarket_uncached conditionId m :
  marketCache m !! conditionId = None ->
  lookupMarket conditionId m =
    let f := fetchMarketDetails conditionId m in
    (f.1, set_marketCache (<[conditionId := f.1]> (marketCache f.2)) f.2).
Proof.
  intros H. unfold lookupMarket, gets, mbind, M_bind. cbv zeta. cbn [fst snd].
  by rewrite H.
Qed.

Lemma lookupMarket_step conditionId : fetch_step (lookupMarket conditionId).
Proof.
  intros m. cbv zeta.
  destruct (marketCache m !! conditionId) as [market|] eqn:Hc.
  - rewrite (lookupMarket_cached _ _ _ Hc). cbn [fst snd]. split; [|done].
    exists []. split_and!; [by rewrite app_nil_r | done |].
    intros Hb. split; [done | apply Forall_nil_2].
  - rewrite (lookupMarket_uncached _ _ Hc). cbv zeta.
    rewrite fetchMarketDetails_eq. cbv zeta. cbn [fst snd].
    destruct (withRetry_footprint markets_endpoint
                (fun data : list Market.t => head data)
                (set_trace (trace m ++ [Call (FetchMarketDetails conditionId)]) m))
      as ((evs & Ht & Hnet & _ & _ & Hrange) & Hp & _ & _ & Hpc & _).
    cbv zeta in Ht, Hrange, Hp, Hpc.
    cbn [trace processedTradeIds pollCount currentBackoff set_marketCache].
    rewrite Hp, Hpc, Ht. split; [|done].
    exists (Call (FetchMarketDetails conditionId) :: evs). split_and!.
    + cbn [trace set_trace]. by rewrite <- app_assoc.
    + done.
    + intros Hb. by apply Hrange in Hb.
Qed.

(** ** Properties kept through whole runs *)

Lemma preserves_ret {A} Inv (a : A) : preserves Inv (mret a).
Proof. by intros m. Qed.

Lemma preserves_bind {A B} Inv (c : M A) (f : A -> M B) :
  preserves Inv c -> (forall a, preserves Inv (f a)) -> preserves Inv (c ≫= f).
Proof. intros Hc Hf m Hm. unfold mbind, M_bind. cbv zeta. by apply Hf, Hc. Qed.

Section Preserve.
Variable cfg : Config.
Variable toLocaleString : Num.number -> string.
Variable Inv : Machine -> Prop.

Hypothesis Inv_lookupUserStats : forall w, preserves Inv (lookupUserStats w).
Hypothesis Inv_lookupMarket : forall c, preserves Inv (lookupMarket c).

Lemma analyzeTrade_preserves trade :
  preserves Inv (analyzeTrade cfg toLocaleString trade).
Proof.
  unfold analyzeTrade.
  destruct (String.eqb _ _); [apply preserves_ret|].
  apply preserves_bind; [apply Inv_lookupUserStats|]. intros userStats.
  destruct (_ <=? _)%Z; [|apply preserves_ret].
  apply preserves_bind; [apply Inv_lookupMarket|]. intros market.
  destruct (classify _ _ _). apply preserves_ret.
Qed.

Lemma analyzeTrades_preserves trades :
  preserves Inv (analyzeTrades cfg toLocaleString trades).
Proof.
  induction trades as [|trade trades IH]; [apply preserves_ret|].
  simpl. apply preserves_bind; [apply analyzeTrade_preserves|]. intros suspect.
  apply preserves_bind; [apply IH|]. intros suspects. apply preserves_ret.
Qed.

Hypothesis Inv_alertSuspect : forall s, preserves Inv (alertSuspect cfg s).

Lemma alertSuspects_preserves suspects :
  preserves Inv (alertSuspects cfg suspects).
Proof.
  induction suspects as [|s suspects IH]; [apply preserves_ret|].
  simpl. apply preserves_bind; [apply Inv_alertSuspect|]. intros _. apply IH.
Qed.

Hypothesis Inv_fetchRecentTrades : forall limit, preserves Inv (fetchRecentTrades limit).
Hypothesis Inv_pollCount : forall m n, Inv m -> Inv (set_pollCount n m).
Hypothesis Inv_processed : forall m s, Inv m -> Inv (set_processedTradeIds s m).
Hypothesis Inv_log :
  forall m e, alerts [e] = [] -> webhooks [e] = [] -> is_net_event e = false ->
              Inv m -> Inv (set_trace (trace m ++ [e]) m).

Lemma pollTrades_preserves : preserves Inv (pollTrades cfg toLocaleString).
Proof.
  intros m Hm. rewrite pollTrades_unfold. cbv zeta.
  apply alertSuspects_preserves. apply Inv_log; [done..|].
  apply analyzeTrades_preserves. apply Inv_processed.
  apply Inv_fetchRecentTrades. by apply Inv_pollCount.
Qed.

Lemma run_preserves polls w : Inv (boot w) -> Inv (main cfg toLocaleString polls (boot w)).2.
Proof.
  apply main_preserves.
  - apply pollTrades_preserves.
  - intros m ms Hm. by apply Inv_log.
Qed.

End Preserve.

(** *** The backoff stays within the schedule *)

Lemma fetch_step_backoff_ok {A} (c : M A) : fetch_step c -> preserves backoff_ok c.
Proof.
  intros Hc m [Hb Hs]. destruct (Hc m) as ((evs & Ht & _ & Hrange) & _).
  cbv zeta in Ht, Hrange. destruct (Hrange Hb) as [Hb' Hs'].
  split; [done|]. rewrite Ht, sleeps_app. by apply Forall_app.
Qed.

Lemma alertSuspect_eq cfg s m :
  alertSuspect cfg s m =
    (tt, set_trace (trace m ++ alert_events cfg [s])%list m).
Proof.
  unfold alertSuspect, alert_events, emit, modify, mbind, M_bind, mret, M_ret.
  cbv zeta. simpl. destruct (String.eqb _ _); simpl.
  - done.
  - by rewrite <- app_assoc.
Qed.

(** X3. In every run, from start-up on, the shared backoff stays between
    1000 ms and 60000 ms, and so does every backoff sleep ever made. *)
Theorem backoff_within_schedule :
  forall cfg toLocaleString polls w,
    let m := (main cfg toLocaleString polls (boot w)).2 in
    (1000 <= currentBackoff m <= 60000)%Z /\
    Forall (fun ms => (1000 <= ms <= 60000)%Z) (sleeps (trace m)).
Proof.
  intros cfg toLocaleString polls w.
  apply (run_preserves cfg toLocaleString backoff_ok).
  - intros a. apply fetch_step_backoff_ok, lookupUserStats_step.
  - intros c. apply fetch_step_backoff_ok, lookupMarket_step.
  - intros s m [Hb Hs]. rewrite alertSuspect_eq. split; [done|]. simpl.
    rewrite sleeps_app. apply Forall_app. split; [done|].
    unfold alert_events. simpl. by destruct (String.eqb _ _).
  - intros limit. apply fetch_step_backoff_ok, fetchRecentTrades_step.
  - by intros m n [? ?].
  - by intros m s [? ?].
  - intros m e _ _ He [Hb Hs]. split; [done|]. simpl.
    rewrite sleeps_app. apply Forall_app. split; [done|]. by destruct e.
  - split; [|apply Forall_nil_2].
    unfold in_range. simpl. unfold INITIAL_BACKOFF_MS, MAX_BACKOFF_MS. lia.
Qed.

(** *** Each market is fetched once *)

Lemma market_quiet_market_inv {A} (c : M A) :
  market_quiet c -> preserves market_inv c.
Proof.
  intros Hc m [Hnd Hdom]. destruct (Hc m) as (Hmc & _ & Hmf). cbv zeta in Hmc, Hmf.
  split; rewrite Hmf; [done|]. intros k Hk. rewrite Hmc. by apply Hdom.
Qed.

Lemma lookupMarket_market_inv conditionId :
  preserves market_inv (lookupMarket conditionId).
Proof.
  intros m [Hnd Hdom].
  destruct (marketCache m !! conditionId) as [market|] eqn:Hc.
  - by rewrite (lookupMarket_cached _ _ _ Hc).
  - rewrite (lookupMarket_uncached _ _ Hc). cbv zeta.
    rewrite fetchMarketDetails_eq. cbv zeta. cbn [fst snd].
    destruct (withRetry_footprint markets_endpoint
                (fun data : list Market.t => head data)
                (set_trace (trace m ++ [Call (FetchMarketDetails conditionId)]) m))
      as ((evs & Ht & _ & Hmf & _) & _ & _ & Hmc & _).
    cbv zeta in Ht, Hmc.
    unfold market_inv. cbn [trace marketCache set_marketCache].
    rewrite Hmc, Ht. cbn [trace marketCache set_trace].
    rewrite !market_fetches_app, Hmf, app_nil_r. simpl.
    split.
    + apply NoDup_app. split_and!; [done| |apply NoDup_singleton].
      intros k Hk Hk'. apply list_elem_of_singleton in Hk'. subst.
      apply Hdom in Hk. rewrite Hc in Hk. by destruct Hk.
    + intros k Hk. apply elem_of_app in Hk as [Hk|Hk].
      * destruct (decide (conditionId = k)) as [->|Hne].
        -- rewrite lookup_insert_eq. by eexists.
        -- rewrite lookup_insert_ne by done. by apply Hdom.
      * apply list_elem_of_singleton in Hk. subst.
        rewrite lookup_insert_eq. by eexists.
Qed.

(** X4. The market cache memoizes for the life of the process: a second
    lookup of a market returns what the first returned, a [null] from a
    failed fetch included, and does nothing else; and in every run no
    market is fetched twice, and every market fetched is in the cache. *)
Theorem market_fetched_once :
  (forall conditionId m,
     let r1 := lookupMarket conditionId m in
     lookupMarket conditionId r1.2 = (r1.1, r1.2)) /\
  (forall cfg toLocaleString polls w,
     let m := (main cfg toLocaleString polls (boot w)).2 in
     NoDup (market_fetches (trace m)) /\
     forall c, c ∈ market_fetches (trace m) -> is_Some (marketCache m !! c)).
Proof.
  split.
  - intros conditionId m. cbv zeta.
    destruct (marketCache m !! conditionId) as [market|] eqn:Hc.
    + rewrite (lookupMarket_cached _ _ _ Hc). cbn [fst snd].
      by apply lookupMarket_cached.
    + rewrite (lookupMarket_uncached _ _ Hc). cbv zeta. cbn [fst snd].
      apply lookupMarket_cached. cbn [marketCache set_marketCache].
      apply lookup_insert_eq.
  - intros cfg toLocaleString polls w.
    apply (run_preserves cfg toLocaleString market_inv).
    + intros a. apply market_quiet_market_inv, lookupUserStats_market_quiet.
    + apply lookupMarket_market_inv.
    + intros s m [Hnd Hdom]. rewrite alertSuspect_eq.
      assert (Hmf : market_fetches (trace m ++ alert_events cfg [s])
                    = market_fetches (trace m)).
      { rewrite market_fetches_app. unfold alert_events. simpl.
        destruct (String.eqb _ _); simpl; by rewrite app_nil_r. }
      split; cbn [fst snd trace set_trace marketCache]; by rewrite Hmf.
    + intros limit. apply market_quiet_market_inv, fetchRecentTrades_market_quiet.
    + by intros m n [? ?].
    + by intros m s [? ?].
    + intros m e _ _ He [Hnd Hdom].
      assert (Hmf : market_fetches (trace m ++ [e]) = market_fetches (trace m)).
      { rewrite market_fetches_app. destruct e; try done; simpl; by rewrite app_nil_r. }
      split; cbn [trace set_trace marketCache]; by rewrite Hmf.
    + split; [apply NoDup_nil_2|]. intros c Hc. by apply elem_of_nil in Hc.
Qed.

(** *** Webhook posts follow alerts *)

Lemma fetch_step_webhook_inv cfg {A} (c : M A) :
  fetch_step c -> preserves (webhook_inv cfg) c.
Proof.
  intros Hc m Hm. destruct (Hc m) as ((evs & Ht & Hnet & _) & _).
  cbv zeta in Ht. apply net_events_silent in Hnet as (Ha & Hw & _).
  unfold webhook_inv in *.
  rewrite Ht, webhooks_app, alerts_app, Ha, Hw, !app_nil_r. done.
Qed.

(** With a webhook configured the posts are the alerts; without one there
    is none. *)
Lemma run_webhook_inv cfg toLocaleString polls w :
  webhook_inv cfg (main cfg toLocaleString polls (boot w)).2.
Proof.
  apply (run_preserves cfg toLocaleString (webhook_inv cfg)).
  - intros a. apply fetch_step_webhook_inv, lookupUserStats_step.
  - intros c. apply fetch_step_webhook_inv, lookupMarket_step.
  - intros s m Hm. rewrite alertSuspect_eq. unfold webhook_inv in *.
    cbn [snd trace set_trace]. rewrite webhooks_app, alerts_app, Hm.
    unfold alert_events. simpl.
    destruct (String.eqb _ _); simpl; by rewrite ?app_nil_r.
  - intros limit. apply fetch_step_webhook_inv, fetchRecentTrades_step.
  - by intros m n ?.
  - by intros m s ?.
  - intros m e Ha Hw _ Hm. unfold webhook_inv in *. cbn [trace set_trace].
    rewrite webhooks_app, alerts_app, Ha, Hw, !app_nil_r. done.
  - unfold webhook_inv. simpl. by destruct (String.eqb _ _).
Qed.

(** X5. A process started without a webhook URL never posts to a webhook,
    however many alerts it writes. *)
Theorem no_webhook_configured_no_post :
  forall cfg toLocaleString polls w,
    DISCORD_WEBHOOK_URL cfg = "" ->
    webhooks (trace (main cfg toLocaleString polls (boot w)).2) = [].
Proof.
  intros cfg toLocaleString polls w Hurl.
  pose proof (run_webhook_inv cfg toLocaleString polls w) as H.
  unfold webhook_inv in H. by rewrite Hurl in H.
Qed.

Lemma no_webhook_configured_no_post_witness :
  let trade := sample_trade "0.5" "12000" in
  let m := (main default_config EnUS.toLocaleString 1
              (boot (sample_world [trade] ["0x5c3e"]))).2 in
  webhooks (trace m) = [] /\ length (alerts (trace m)) = 1.
Proof.
  intros trade m. split.
  - by apply no_webhook_configured_no_post.
  - vm_compute. reflexivity.
Defined.

(** ** The log of one cycle *)

Lemma fetch_step_ret {A} (a : A) : fetch_step (mret a).
Proof.
  intros m. cbv zeta. split; [|done].
  exists []. split_and!; [by rewrite app_nil_r | done |].
  intros Hb. split; [done | apply Forall_nil_2].
Qed.

Lemma fetch_step_bind {A B} (c : M A) (f : A -> M B) :
  fetch_step c -> (forall a, fetch_step (f a)) -> fetch_step (c ≫= f).
Proof.
  intros Hc Hf m. cbv zeta. unfold mbind, M_bind. cbv zeta.
  destruct (Hc m) as ((evs1 & Ht1 & Hn1 & Hr1) & Hp1 & Hc1).
  cbv zeta in Ht1, Hr1, Hp1, Hc1.
  destruct (Hf (c m).1 (c m).2) as ((evs2 & Ht2 & Hn2 & Hr2) & Hp2 & Hc2).
  cbv zeta in Ht2, Hr2, Hp2, Hc2.
  rewrite Hp2, Hc2, Hp1, Hc1. split; [|done].
  exists (evs1 ++ evs2)%list. split_and!.
  - by rewrite Ht2, Ht1, app_assoc.
  - rewrite forallb_app. by rewrite Hn1, Hn2.
  - intros Hb. destruct (Hr1 Hb) as [Hb1 Hs1]. destruct (Hr2 Hb1) as [Hb2 Hs2].
    split; [done|]. rewrite sleeps_app. by apply Forall_app.
Qed.

Section CycleLog.
Variable cfg : Config.
Variable toLocaleString : Num.number -> string.

Lemma analyzeTrade_step trade : fetch_step (analyzeTrade cfg toLocaleString trade).
Proof.
  unfold analyzeTrade.
  destruct (String.eqb _ _); [apply fetch_step_ret|].
  apply fetch_step_bind; [apply lookupUserStats_step|]. intros userStats.
  destruct (_ <=? _)%Z; [|apply fetch_step_ret].
  apply fetch_step_bind; [apply lookupMarket_step|]. intros market.
  destruct (classify _ _ _). apply fetch_step_ret.
Qed.

Lemma analyzeTrades_step trades :
  fetch_step (analyzeTrades cfg toLocaleString trades).
Proof.
  induction trades as [|trade trades IH]; [apply fetch_step_ret|].
  simpl. apply fetch_step_bind; [apply analyzeTrade_step|]. intros suspect.
  apply fetch_step_bind; [apply IH|]. intros suspects. apply fetch_step_ret.
Qed.

Lemma alert_events_cons s suspects :
  alert_events cfg (s :: suspects) =
    (alert_events cfg [s] ++ alert_events cfg suspects)%list.
Proof. unfold alert_events. simpl. by rewrite app_nil_r. Qed.

Lemma alertSuspects_trace suspects m :
  alertSuspects cfg suspects m =
    (tt, set_trace (trace m ++ alert_events cfg suspects)%list m).
Proof.
  revert m. induction suspects as [|s suspects IH]; intros m.
  - change (alert_events cfg []) with (@nil event). rewrite app_nil_r.
    destruct m. reflexivity.
  - simpl alertSuspects. unfold mbind, M_bind. cbv zeta.
    rewrite alertSuspect_eq. cbn [fst snd]. rewrite IH.
    rewrite (alert_events_cons s suspects). destruct m. unfold set_trace. simpl.
    by rewrite <- app_assoc.
Qed.

Lemma analyzeTrade_suspect_ok trade m s :
  (analyzeTrade cfg toLocaleString trade m).1 = Some s ->
  SuspectTrade.trade s = trade /\ suspect_ok cfg toLocaleString s.
Proof.
  destruct (String.eqb_spec (Trade.owner trade) "") as [Hempty|Howner].
  { unfold analyzeTrade. rewrite Hempty. simpl. done. }
  rewrite analyzeTrade_unfold by done. cbv zeta.
  destruct (Z.leb_spec (Z.of_nat (Stats.uniqueMarkets
              (lookupUserStats (Trade.owner trade) m).1)) (MAX_UNIQUE_MARKETS cfg));
    [|done].
  cbn [fst]. intros [= <-]. split; [done|]. by split_and!.
Qed.

Lemma analyzeTrades_suspects_ok trades m :
  Forall (suspect_ok cfg toLocaleString)
    (analyzeTrades cfg toLocaleString trades m).1.
Proof.
  revert m. induction trades as [|trade trades IH]; intros m.
  - apply Forall_nil_2.
  - simpl analyzeTrades. unfold mbind, M_bind, mret, M_ret. cbv zeta. cbn [fst].
    destruct (analyzeTrade cfg toLocaleString trade m).1 as [s|] eqn:E.
    + apply Forall_cons. split; [|apply IH].
      by apply (analyzeTrade_suspect_ok trade m).
    + apply IH.
Qed.

(** What one poll writes: the fetchers' events, then the summary line with
    the counts of the four stages, then the alerts of the suspects. *)
Lemma pollTrades_trace m :
  let batch := default [] (outcome (trades_api (world m))) in
  let newTrades := (dedup batch (processedTradeIds m)).1 in
  let large := List.filter (is_large cfg) (List.map with_value newTrades) in
  let r := pollTrades cfg toLocaleString m in
  exists net suspects,
    trace r.2 =
      (trace m ++ net ++
       Summary (length batch) (length newTrades) (length large)
         (length (aggressiveTrades cfg newTrades)) (length suspects)
         :: alert_events cfg suspects)%list /\
    forallb is_net_event net = true /\
    List.map SuspectTrade.trade suspects
      `sublist_of` aggressiveTrades cfg newTrades /\
    Forall (suspect_ok cfg toLocaleString) suspects /\
    pollCount r.2 = S (pollCount m).
Proof.
  cbv zeta. rewrite pollTrades_unfold. cbv zeta.
  assert (Hm0 : let m0 := set_pollCount (S (pollCount m)) m in
                world m0 = world m /\ processedTradeIds m0 = processedTradeIds m /\
                trace m0 = trace m /\ pollCount m0 = S (pollCount m))
    by done.
  cbv zeta in Hm0. destruct Hm0 as (Hw0 & Hp0 & Ht0 & Hc0).
  remember (set_pollCount (S (pollCount m)) m) as m0 eqn:Em0. clear Em0.
  destruct (fetchRecentTrades_spec 100 m0) as (Hbatch & _).
  destruct (fetchRecentTrades_step 100 m0) as ((evs1 & Ht1 & Hn1 & _) & Hp1 & Hc1).
  cbv zeta in Hbatch, Ht1, Hp1, Hc1.
  remember (fetchRecentTrades 100 m0) as f eqn:Ef. clear Ef.
  rewrite Hw0 in Hbatch. rewrite Hp0 in Hp1. rewrite Ht0 in Ht1. rewrite Hc0 in Hc1.
  rewrite Hp1, Hbatch.
  remember (dedup (default [] (outcome (trades_api (world m))))
              (processedTradeIds m)) as d eqn:Ed. clear Ed.
  destruct (analyzeTrades_step (aggressiveTrades cfg d.1)
              (set_processedTradeIds d.2 f.2)) as ((evs2 & Ht2 & Hn2 & _) & _ & Hc2).
  destruct (analyzeTrades_frame cfg toLocaleString (aggressiveTrades cfg d.1)
              (set_processedTradeIds d.2 f.2)) as (_ & _ & _ & _ & Hsub).
  pose proof (analyzeTrades_suspects_ok (aggressiveTrades cfg d.1)
                (set_processedTradeIds d.2 f.2)) as Hok.
  cbv zeta in Ht2, Hc2, Hsub.
  remember (analyzeTrades cfg toLocaleString (aggressiveTrades cfg d.1)
              (set_processedTradeIds d.2 f.2)) as a eqn:Ea. clear Ea.
  cbn [trace pollCount set_processedTradeIds] in Ht2, Hc2.
  rewrite alertSuspects_trace. cbn [snd trace set_trace pollCount].
  exists (evs1 ++ evs2)%list, a.1. split_and!.
  - rewrite Ht2, Ht1, <- !app_assoc. done.
  - rewrite forallb_app. by rewrite Hn1, Hn2.
  - done.
  - done.
  - by rewrite Hc2, Hc1.
Qed.

End CycleLog.

Lemma filter_length_le {A} (f : A -> bool) (l : list A) :
  length (List.filter f l) <= length l.
Proof. apply sublist_length, filter_sublist. Qed.


Lemma alert_events_not_net cfg suspects :
  forallb (fun e => negb (is_net_event e)) (alert_events cfg suspects) = true.
Proof.
  unfold alert_events. induction suspects as [|s l IH]; [done|].
  simpl. by destruct (String.eqb _ _).
Qed.

(** *** What an alert is about *)

Lemma aggressiveTrades_elem cfg newTrades trade' :
  trade' ∈ aggressiveTrades cfg newTrades ->
  exists trade, trade ∈ newTrades /\ trade' = with_value trade /\
    Num.geb (calculateTradeValue trade) (Num.of_Z (MIN_TRADE_SIZE_USD cfg)) = true /\
    Trade.side trade = BUY /\ Trade.owner trade <> "".
Proof.
  unfold aggressiveTrades. intros Hin.
  apply list_elem_of_In, filter_In in Hin as [Hin Hagg].
  apply filter_In in Hin as [Hin Hlarge].
  apply in_map_iff in Hin as (trade & <- & Hin).
  exists trade. split_and!.
  - by apply list_elem_of_In.
  - done.
  - done.
  - unfold is_aggressive in Hagg. apply andb_true_iff in Hagg as [Hside _].
    simpl in Hside. by destruct (Trade.side trade).
  - unfold is_aggressive in Hagg. apply andb_true_iff in Hagg as [_ Howner].
    simpl in Howner. intros Hempty. by rewrite Hempty in Howner.
Qed.

Lemma dedup_new_elem trades processed trade :
  trade ∈ (dedup trades processed).1 ->
  trade ∈ trades /\ JSSet.has (Trade.id trade) processed = false.
Proof.
  unfold dedup. simpl. intros Hin.
  apply list_elem_of_In, filter_In in Hin as [Hin Hnew].
  split; [by apply list_elem_of_In|]. by apply negb_true_iff in Hnew.
Qed.

(** X8. The alerts a poll adds are all about trades of the batch it
    fetched that were not in the processed set, are BUYs with an owner,
    and are worth at least the minimum; the wallet named is the trade's
    owner, its market count is at most the ceiling, and level and reason
    are those of the tier chain.  The poll never alerts on anything else. *)
Theorem alerts_sound :
  forall cfg toLocaleString m,
    let batch := default [] (outcome (trades_api (world m))) in
    let r := pollTrades cfg toLocaleString m in
    exists added,
      alerts (trace r.2) = (alerts (trace m) ++ added)%list /\
      Forall (fun s =>
        suspect_ok cfg toLocaleString s /\
        exists trade,
          trade ∈ batch /\
          SuspectTrade.trade s = with_value trade /\
          JSSet.has (Trade.id trade) (processedTradeIds m) = false /\
          Trade.side trade = BUY /\
          Trade.owner trade <> "" /\
          Num.geb (calculateTradeValue trade)
            (Num.of_Z (MIN_TRADE_SIZE_USD cfg)) = true) added.
Proof.
  intros cfg toLocaleString m. cbv zeta.
  destruct (pollTrades_trace cfg toLocaleString m)
    as (net & suspects & Ht & Hnet & Hsub & Hok & _).
  cbv zeta in Ht, Hsub. exists suspects. split.
  - rewrite Ht, !alerts_app.
    destruct (net_events_silent net Hnet) as (-> & _).
    simpl. f_equal. clear. unfold alert_events.
    induction suspects as [|s l IH]; [done|].
    simpl. destruct (String.eqb _ _); simpl; by rewrite IH.
  - apply Forall_forall. intros s Hs. split.
    { by apply (proj1 (Forall_forall _ _) Hok). }
    assert (Hin : SuspectTrade.trade s
                  ∈ List.map SuspectTrade.trade suspects).
    { apply list_elem_of_In, in_map. by apply list_elem_of_In. }
    apply (elem_of_sublist _ _ _ Hin) in Hsub.
    apply aggressiveTrades_elem in Hsub
      as (trade & Hnew & Heq & Hlarge & Hside & Howner).
    apply dedup_new_elem in Hnew as [Hbatch Hnew].
    exists trade. by split_and!.
Qed.

(** *** Market details are looked up for suspects only *)

Lemma lookupMarket_fetches conditionId m :
  let r := lookupMarket conditionId m in
  market_fetches (trace r.2) =
    (market_fetches (trace m) ++
     match marketCache m !! conditionId with
     | Some _ => []
     | None => [conditionId]
     end)%list /\
  marketCache r.2 !! conditionId = Some r.1.
Proof.
  cbv zeta. destruct (marketCache m !! conditionId) as [market|] eqn:Hc.
  - rewrite (lookupMarket_cached _ _ _ Hc). cbn [fst snd].
    by rewrite app_nil_r.
  - rewrite (lookupMarket_uncached _ _ Hc). cbv zeta.
    rewrite fetchMarketDetails_eq. cbv zeta. cbn [fst snd].
    destruct (withRetry_footprint markets_endpoint
                (fun data : list Market.t => head data)
                (set_trace (trace m ++ [Call (FetchMarketDetails conditionId)]) m))
      as ((evs & Ht & _ & Hmf & _) & _).
    cbv zeta in Ht. cbn [trace marketCache set_marketCache].
    rewrite Ht. cbn [trace set_trace].
    rewrite !market_fetches_app, Hmf, app_nil_r. simpl.
    split; [done|]. apply lookup_insert_eq.
Qed.

(** X9. [analyzeTrade] returns a suspect exactly for a trade with an
    owner whose wallet counts at most the ceiling of markets.  Then the
    market is fetched if and only if it was not in the market cache, and
    the suspect carries what the cache now holds for it.  For every other
    trade the market cache, the markets endpoint and the list of market
    fetches are as they were: market details cost a request only for
    suspects. *)
Theorem analyzeTrade_market_lookup :
  forall cfg toLocaleString trade m,
    let stats := (lookupUserStats (Trade.owner trade) m).1 in
    let r := analyzeTrade cfg toLocaleString trade m in
    match r.1 with
    | Some s =>
        Trade.owner trade <> "" /\
        (Z.of_nat (Stats.uniqueMarkets stats) <= MAX_UNIQUE_MARKETS cfg)%Z /\
        market_fetches (trace r.2) =
          (market_fetches (trace m) ++
           match marketCache m !! Trade.market trade with
           | Some _ => []
           | None => [Trade.market trade]
           end)%list /\
        marketCache r.2 !! Trade.market trade = Some (SuspectTrade.market s)
    | None =>
        (Trade.owner trade = "" \/
         (MAX_UNIQUE_MARKETS cfg < Z.of_nat (Stats.uniqueMarkets stats))%Z) /\
        marketCache r.2 = marketCache m /\
        markets_api (world r.2) = markets_api (world m) /\
        market_fetches (trace r.2) = market_fetches (trace m)
    end.
Proof.
  intros cfg toLocaleString trade m. cbv zeta.
  destruct (String.eqb_spec (Trade.owner trade) "") as [Hempty|Howner].
  { unfold analyzeTrade. rewrite Hempty. simpl. split_and!; try done. by left. }
  rewrite analyzeTrade_unfold by done. cbv zeta.
  destruct (lookupUserStats_market_quiet (Trade.owner trade) m) as (Hmc & Hw & Hmf).
  cbv zeta in Hmc, Hw, Hmf.
  destruct (Z.leb_spec (Z.of_nat (Stats.uniqueMarkets
              (lookupUserStats (Trade.owner trade) m).1)) (MAX_UNIQUE_MARKETS cfg)).
  - cbn [fst snd SuspectTrade.market].
    destruct (lookupMarket_fetches (Trade.market trade)
                (lookupUserStats (Trade.owner trade) m).2) as [Hf Hc].
    cbv zeta in Hf, Hc. rewrite Hmc, Hmf in Hf. by split_and!.
  - cbn [fst snd]. split_and!; try done. by right.
Qed.

(** *** A poll that fetches nothing *)

(** The trade fetch of a poll whose feed settles after [n] throttled
    replies. *)
Lemma fetchRecentTrades_run limit m n (last : reply (list Trade.t)) rest :
  trades_api (world m) = (replicate n Status429 ++ last :: rest)%list ->
  last <> Status429 ->
  let r := fetchRecentTrades limit m in
  r.1 = match last with Ok data => data | _ => [] end /\
  (exists evs,
     trace r.2 = (trace m ++ Call FetchRecentTrades :: evs)%list /\
     requests evs = replicate (S n) "/trades" /\
     sleeps evs = List.map (fun i => raised i (currentBackoff m)) (seq 0 n) /\
     forallb is_net_event evs = true /\
     activity_fetches evs = [] /\ market_fetches evs = []) /\
  trades_api (world r.2) = rest /\
  currentBackoff r.2 =
    match last with
    | Ok _ => INITIAL_BACKOFF_MS
    | _ => raised n (currentBackoff m)
    end /\
  processedTradeIds r.2 = processedTradeIds m /\
  userStatsCache r.2 = userStatsCache m /\
  marketCache r.2 = marketCache m /\
  pollCount r.2 = pollCount m.
Proof.
  intros Hs Hlast. cbv zeta. rewrite fetchRecentTrades_eq. cbv zeta.
  unfold withRetry. cbn [fst snd world trace currentBackoff set_trace
    trades_endpoint script endpoint_name set_script].
  rewrite Hs.
  destruct (withRetry_from_run "/trades" (fun data : list Trade.t => data) n
              (currentBackoff m) (last :: rest)) as (H1 & H2 & H3 & _).
  cbv zeta in H1, H2, H3.
  pose proof (withRetry_from_net "/trades" (fun data : list Trade.t => data)
                (replicate n Status429 ++ last :: rest) (currentBackoff m)) as Hnet.
  pose proof (withRetry_from_no_calls "/trades" (fun data : list Trade.t => data)
                (replicate n Status429 ++ last :: rest) (currentBackoff m)) as Hmf.
  pose proof (withRetry_from_trace "/trades" (fun data : list Trade.t => data)
                (replicate n Status429 ++ last :: rest) (currentBackoff m)) as Haf.
  remember (withRetry_from "/trades" (fun data : list Trade.t => data)
              (replicate n Status429 ++ last :: rest) (currentBackoff m)) as r eqn:Er.
  clear Er. destruct r as [[[res left] backoff] evs]. cbn [fst snd] in *.
  assert (Hlast' : withRetry_from "/trades" (fun data : list Trade.t => data)
                     (last :: rest) (raised n (currentBackoff m))
                   = (match last with Ok data => Some data | _ => None end, rest,
                      match last with
                      | Ok _ => INITIAL_BACKOFF_MS
                      | _ => raised n (currentBackoff m)
                      end, [Request "/trades"])) by by destruct last.
  rewrite Hlast' in H1, H2, H3. cbn [fst snd] in H1, H2, H3.
  injection H1 as -> -> ->.
  split_and!; try done.
  - by destruct last.
  - exists evs. split_and!.
    + by rewrite <- app_assoc.
    + rewrite H2. change (requests [Request "/trades"]) with ["/trades"].
      by rewrite <- replicate_cons_app.
    + rewrite H3. by rewrite app_nil_r.
    + done.
    + apply Haf.
    + done.
Qed.

(** X10. When the trade feed, after [n] throttled replies, fails or
    returns no trade, the poll still counts: it makes its [n + 1] requests,
    logs the all-zero summary line and nothing after it, alerts no one,
    asks for no wallet history and no market, leaves both caches alone,
    and leaves the processed set to its cap.  What tells the two cases
    apart is the backoff left behind: the empty batch resets it to the
    floor, the failure leaves it raised [n] times. *)
Theorem pollTrades_nothing_fetched :
  forall cfg toLocaleString m n (last : reply (list Trade.t)) rest,
    trades_api (world m) = (replicate n Status429 ++ last :: rest)%list ->
    last = Failure \/ last = Ok [] ->
    let r := pollTrades cfg toLocaleString m in
    (exists net,
       trace r.2 = (trace m ++ net ++ [Summary 0 0 0 0 0])%list /\
       forallb is_net_event net = true /\
       requests net = replicate (S n) "/trades" /\
       activity_fetches net = [] /\ market_fetches net = []) /\
    userStatsCache r.2 = userStatsCache m /\
    marketCache r.2 = marketCache m /\
    processedTradeIds r.2 = limit_processed (processedTradeIds m) /\
    pollCount r.2 = S (pollCount m) /\
    trades_api (world r.2) = rest /\
    currentBackoff r.2 =
      match last with
      | Ok _ => INITIAL_BACKOFF_MS
      | _ => raised n (currentBackoff m)
      end.
Proof.
  intros cfg toLocaleString m n last rest Hs Hlast. cbv zeta.
  rewrite pollTrades_unfold. cbv zeta.
  assert (Hm0 : let m0 := set_pollCount (S (pollCount m)) m in
                world m0 = world m /\ processedTradeIds m0 = processedTradeIds m /\
                trace m0 = trace m /\ userStatsCache m0 = userStatsCache m /\
                marketCache m0 = marketCache m /\ pollCount m0 = S (pollCount m) /\
                currentBackoff m0 = currentBackoff m)
    by done.
  cbv zeta in Hm0. destruct Hm0 as (Hw0 & Hp0 & Ht0 & Hc0 & Hk0 & Hn0 & Hb0).
  remember (set_pollCount (S (pollCount m)) m) as m0 eqn:Em0. clear Em0.
  rewrite <- Hw0 in Hs.
  assert (Hne : last <> Status429) by (destruct Hlast; by subst).
  destruct (fetchRecentTrades_run 100 m0 n last rest Hs Hne)
    as (Hbatch & (evs & Ht & Hreq & _ & Hnet & Haf & Hmf) & Hw & Hb & Hp & Hc & Hk & Hn).
  cbv zeta in Hbatch, Ht, Hw, Hb, Hp, Hc, Hk, Hn.
  assert (Hnil : (fetchRecentTrades 100 m0).1 = []).
  { rewrite Hbatch. destruct Hlast; by subst. }
  rewrite Hnil.
  change (dedup [] ?P) with (@nil Trade.t, limit_processed P).
  cbn [fst snd]. change (aggressiveTrades cfg []) with (@nil Trade.t).
  change (analyzeTrades cfg toLocaleString [] ?x) with (@nil SuspectTrade.t, x).
  cbn [fst snd]. change (alertSuspects cfg [] ?x) with (tt, x).
  cbn [fst snd].
  remember (fetchRecentTrades 100 m0).2 as m1 eqn:Em1. clear Em1 Hbatch Hnil.
  destruct m1. cbn in *. subst.
  split_and!; try done.
  - exists (Call FetchRecentTrades :: evs). split_and!; try done.
    by rewrite Ht0, <- !app_assoc.
  - by rewrite Hp0.
  - by rewrite Hb0.
Qed.

Lemma pollTrades_nothing_fetched_witness :
  let failing := boot (mkWorld [Status429; Failure] [] [] (fun _ => 0%Z)) in
  let empty := boot (mkWorld [Status429; Ok []] [] [] (fun _ => 0%Z)) in
  summaries (trace (pollTrades default_config EnUS.toLocaleString failing).2)
    = [(0, 0, 0, 0, 0)] /\
  currentBackoff (pollTrades default_config EnUS.toLocaleString failing).2 = 2000%Z /\
  currentBackoff (pollTrades default_config EnUS.toLocaleString empty).2 = 1000%Z.
Proof.
  cbv zeta.
  destruct (pollTrades_nothing_fetched default_config EnUS.toLocaleString
              (boot (mkWorld [Status429; Failure] [] [] (fun _ => 0%Z)))
              1 Failure [] eq_refl (or_introl eq_refl))
    as ((net & Ht & Hnet & _) & _ & _ & _ & _ & _ & Hb1).
  destruct (pollTrades_nothing_fetched default_config EnUS.toLocaleString
              (boot (mkWorld [Status429; Ok []] [] [] (fun _ => 0%Z)))
              1 (Ok []) [] eq_refl (or_intror eq_refl))
    as (_ & _ & _ & _ & _ & _ & Hb2).
  split_and!.
  - rewrite Ht. cbn [trace boot]. rewrite app_nil_l, summaries_app.
    destruct (net_events_silent net Hnet) as (_ & _ & -> & _). reflexivity.
  - exact Hb1.
  - exact Hb2.
Defined.

(** *** The processed set stays bounded *)

Lemma cap_twice : 10000 = 5000 + 5000.
Proof. vm_compute. reflexivity. Qed.

Lemma adds_ext {A} (key : A -> string) (l : list A) : forall s : JSSet.t,
  exists ext,
    JSSet.adds key s l = (s ++ ext)%list /\
    length ext <= length l /\
    forall a, a ∈ l -> key a ∉ s -> key a ∈ ext.
Proof.
  induction l as [|a l IH]; intros s.
  - exists []. split_and!; [by rewrite app_nil_r|done|].
    intros a Ha. by apply elem_of_nil in Ha.
  - change (JSSet.adds key s (a :: l))
      with (JSSet.adds key (JSSet.add (key a) s) l).
    unfold JSSet.add. destruct (JSSet.has (key a) s) eqn:Hhas.
    + destruct (IH s) as (ext & Heq & Hlen & Hin). exists ext.
      split_and!; [done|simpl; lia|].
      intros a' Ha' Hnew. apply elem_of_cons in Ha' as [->|Ha'].
      * apply JSSetFacts.has_true in Hhas. done.
      * by apply Hin.
    + destruct (IH (s ++ [key a])%list) as (ext & Heq & Hlen & Hin).
      exists (key a :: ext). split_and!.
      * by rewrite Heq, <- app_assoc.
      * simpl. lia.
      * intros a' Ha' Hnew.
        destruct (decide (key a' = key a)) as [->|Hne]; [by left|].
        right. apply elem_of_cons in Ha' as [->|Ha']; [done|].
        apply Hin; [done|]. intros Hin'.
        apply elem_of_app in Hin' as [?|Hin']; [done|].
        by apply list_elem_of_singleton in Hin'.
Qed.

Lemma dedup_new_length trades processed :
  length (dedup trades processed).1 <= length trades.
Proof. unfold dedup. simpl. apply filter_length_le. Qed.

Lemma grown_ext trades processed :
  exists ext,
    grown trades processed = (processed ++ ext)%list /\
    length ext <= length trades /\
    forall trade, trade ∈ (dedup trades processed).1 -> Trade.id trade ∈ ext.
Proof.
  unfold grown.
  destruct (adds_ext Trade.id (dedup trades processed).1 processed)
    as (ext & Heq & Hlen & Hin).
  exists ext. split_and!; [done| |].
  - pose proof (dedup_new_length trades processed). lia.
  - intros trade Ht. apply Hin; [done|].
    apply dedup_new_elem in Ht as [_ Hnew]. by apply JSSetFacts.has_false.
Qed.

Lemma dedup_processed_ok trades processed :
  NoDup processed -> JSSet.size processed <= 10000 -> length trades <= 5000 ->
  NoDup (dedup trades processed).2 /\ JSSet.size (dedup trades processed).2 <= 10000.
Proof.
  intros Hnd Hsize Hlen. rewrite dedup_processed.
  pose proof (NoDup_grown trades processed Hnd) as Hg.
  destruct (grown_ext trades processed) as (ext & Heq & Hext & _).
  destruct (Nat.lt_ge_cases 10000 (JSSet.size (grown trades processed)))
    as [Hover|Hunder].
  - rewrite limit_processed_over by done. split.
    + apply (sublist_NoDup _ (grown trades processed)); [done|apply sublist_drop].
    + unfold JSSet.size in *. rewrite length_skipn, Heq, length_app.
      pose proof cap_twice. lia.
  - by rewrite limit_processed_under.
Qed.

Section ProcessedBound.
Variable cfg : Config.
Variable toLocaleString : Num.number -> string.

Lemma pollTrades_processed_ok :
  preserves processed_ok (pollTrades cfg toLocaleString).
Proof.
  intros m (Hnd & Hsize & Hsmall).
  destruct (pollTrades_spec cfg toLocaleString m) as (Hp & Hsuf & Hin & _).
  cbv zeta in Hp, Hsuf, Hin.
  assert (Hlen : length (default [] (outcome (trades_api (world m)))) <= 5000).
  { destruct Hin as [->|Hin]; [simpl; lia|]. by apply Hsmall. }
  destruct (dedup_processed_ok _ _ Hnd Hsize Hlen) as [Hnd' Hsize'].
  unfold processed_ok. rewrite Hp. split_and!; [done|done|].
  intros batch Hb. apply Hsmall.
  destruct Hsuf as [k ->]. apply elem_of_app. by right.
Qed.

End ProcessedBound.

(** X11. While the trade feed returns batches of at most 5000 trades (the
    tracker asks for 100), the processed set never lists an identifier
    twice and holds at most 10000 identifiers when a run stops. *)
Theorem processedTradeIds_bounded :
  forall cfg toLocaleString polls w,
    batches_within 5000 (trades_api w) ->
    let m := (main cfg toLocaleString polls (boot w)).2 in
    NoDup (processedTradeIds m) /\ JSSet.size (processedTradeIds m) <= 10000.
Proof.
  intros cfg toLocaleString polls w Hsmall. cbv zeta.
  assert (H : processed_ok (main cfg toLocaleString polls (boot w)).2).
  { apply main_preserves.
    - apply pollTrades_processed_ok.
    - done.
    - split_and!; [apply NoDup_nil_2|simpl; lia|done]. }
  destruct H as (? & ? & _). done.
Qed.

Lemma processedTradeIds_bounded_witness :
  let w := mkWorld [Ok (numbered_trades 3)] [] [] (fun _ => 0%Z) in
  let m := (main default_config EnUS.toLocaleString 1 (boot w)).2 in
  batches_within 5000 (trades_api w) /\
  NoDup (processedTradeIds m) /\ JSSet.size (processedTradeIds m) <= 10000.
Proof.
  cbv zeta.
  assert (H : batches_within 5000 [Ok (numbered_trades 3)]).
  { intros batch Hb. apply list_elem_of_singleton in Hb. injection Hb as ->.
    apply Nat.leb_le. vm_compute. reflexivity. }
  split; [exact H|].
  apply (processedTradeIds_bounded default_config EnUS.toLocaleString 1
           (mkWorld [Ok (numbered_trades 3)] [] [] (fun _ => 0%Z)) H).
Defined.

Lemma dedup_new_outlives_cap batch processed trade :
  NoDup processed ->
  length batch <= 5000 ->
  trade ∈ (dedup batch processed).1 ->
  JSSet.has (Trade.id trade) (dedup batch processed).2 = true.
Proof.
  intros Hnd Hlen Hnew.
  apply JSSetFacts.has_true. rewrite dedup_processed.
  pose proof (NoDup_grown batch processed Hnd) as Hg.
  destruct (grown_ext batch processed) as (ext & Heq & Hext & Hids).
  apply Hids in Hnew.
  destruct (Nat.lt_ge_cases 10000 (JSSet.size (grown batch processed)))
    as [Hover|Hunder].
  - rewrite limit_processed_over by done.
    unfold JSSet.size in Hover. rewrite Heq in Hover |- *.
    rewrite length_app in Hover. rewrite skipn_app.
    apply elem_of_app. right.
    assert (H0 : 5000 - length processed = 0) by (pose proof cap_twice; lia).
    by rewrite H0.
  - rewrite limit_processed_under by done. rewrite Heq.
    apply elem_of_app. by right.
Qed.

Lemma dedup_new_intro trades processed trade :
  trade ∈ trades -> JSSet.has (Trade.id trade) processed = false ->
  trade ∈ (dedup trades processed).1.
Proof.
  intros Hin Hnew. unfold dedup. simpl.
  apply list_elem_of_In, filter_In. split; [by apply list_elem_of_In|].
  by rewrite Hnew.
Qed.

(** X12. A trade that a poll finds new, in a batch of at most 5000 trades,
    is in [processedTradeIds] when that poll ends, whatever its cap
    evicted; so the next poll, whatever it fetches, does not count it among
    its new trades and raises no alert about it. *)
Theorem new_trade_outlives_cap :
  forall cfg toLocaleString m trade,
    NoDup (processedTradeIds m) ->
    let batch := default [] (outcome (trades_api (world m))) in
    length batch <= 5000 ->
    trade ∈ batch ->
    JSSet.has (Trade.id trade) (processedTradeIds m) = false ->
    let m1 := (pollTrades cfg toLocaleString m).2 in
    let batch1 := default [] (outcome (trades_api (world m1))) in
    let m2 := (pollTrades cfg toLocaleString m1).2 in
    JSSet.has (Trade.id trade) (processedTradeIds m1) = true /\
    Forall (fun trade' => Trade.id trade' <> Trade.id trade)
      (dedup batch1 (processedTradeIds m1)).1 /\
    exists added,
      alerts (trace m2) = (alerts (trace m1) ++ added)%list /\
      Forall (fun s => Trade.id (SuspectTrade.trade s) <> Trade.id trade) added.
Proof.
  intros cfg toLocaleString m trade Hnd. cbv zeta. intros Hlen Hin Hfresh.
  destruct (pollTrades_spec cfg toLocaleString m) as (Hp & _).
  cbv zeta in Hp.
  assert (Hhas : JSSet.has (Trade.id trade)
                   (processedTradeIds (pollTrades cfg toLocaleString m).2) = true).
  { rewrite Hp. apply dedup_new_outlives_cap; [done|done|].
    by apply dedup_new_intro. }
  remember (pollTrades cfg toLocaleString m).2 as m1 eqn:Em1. clear Em1 Hp.
  assert (Hnew : Forall (fun trade' => Trade.id trade' <> Trade.id trade)
            (dedup (default [] (outcome (trades_api (world m1))))
               (processedTradeIds m1)).1).
  { apply Forall_forall. intros trade' Hnew' Heq.
    apply dedup_new_elem in Hnew' as [_ Hfresh']. congruence. }
  split_and!; [done|done|].
  destruct (pollTrades_spec cfg toLocaleString m1)
    as (_ & _ & _ & _ & suspects & Ha & Hsub).
  cbv zeta in Ha, Hsub. exists suspects. split; [done|].
  apply Forall_forall. intros s Hs Heq.
  assert (Hid : Trade.id (SuspectTrade.trade s)
                ∈ List.map Trade.id (List.map SuspectTrade.trade suspects)).
  { apply list_elem_of_In, in_map, in_map. by apply list_elem_of_In. }
  apply (fmap_sublist Trade.id) in Hsub.
  apply (elem_of_sublist _ _ _ Hid) in Hsub.
  pose proof (aggressiveTrades_ids cfg
                (dedup (default [] (outcome (trades_api (world m1))))
                   (processedTradeIds m1)).1) as Hagg.
  apply (elem_of_sublist _ _ _ Hsub) in Hagg.
  apply list_elem_of_In, in_map_iff in Hagg as (trade' & Hid' & Hin').
  apply list_elem_of_In in Hin'.
  apply (proj1 (Forall_forall _ _) Hnew) in Hin'. congruence.
Qed.

Lemma seen_NoDup n : NoDup (List.map (pretty : nat -> string) (seq 0 n)).
Proof. apply (NoDup_fmap_2 (pretty : nat -> string)), NoDup_seq. Qed.

Lemma pretty_fresh n :
  JSSet.has (pretty n) (List.map (pretty : nat -> string) (seq 0 n)) = false.
Proof.
  apply JSSetFacts.has_false. intros Hin.
  apply list_elem_of_fmap in Hin as (k & Hk & Hin).
  apply (inj pretty) in Hk. subst k.
  apply elem_of_seq in Hin. lia.
Qed.

Lemma grown_one_more n :
  JSSet.size (grown [numbered_trade n] (List.map (pretty : nat -> string) (seq 0 n)))
  = S n.
Proof.
  unfold grown.
  assert (Hd : (dedup [numbered_trade n]
                  (List.map (pretty : nat -> string) (seq 0 n))).1
               = [numbered_trade n]).
  { unfold dedup. cbn [fst List.filter]. 
    change (Trade.id (numbered_trade n)) with (pretty n : string).
    by rewrite pretty_fresh. }
  rewrite Hd. unfold JSSet.adds. cbn [foldl]. unfold JSSet.add.
  change (Trade.id (numbered_trade n)) with (pretty n : string).
  rewrite pretty_fresh. unfold JSSet.size.
  rewrite length_app, length_map, length_seq. simpl. lia.
Qed.

Lemma new_trade_outlives_cap_witness :
  let seen := List.map (pretty : nat -> string) (seq 0 10000) in
  let w := mkWorld [Ok [numbered_trade 10000]; Ok [numbered_trade 10000]] [] []
             (fun _ => 0%Z) in
  let m := set_processedTradeIds seen (boot w) in
  let m1 := (pollTrades default_config EnUS.toLocaleString m).2 in
  (10000 < JSSet.size (grown [numbered_trade 10000] seen))%nat /\
  JSSet.has (pretty 10000) (processedTradeIds m1) = true /\
  Forall (fun trade' => Trade.id trade' <> pretty 10000)
    (dedup (default [] (outcome (trades_api (world m1)))) (processedTradeIds m1)).1.
Proof.
  intros seen w m m1.
  split.
  - unfold seen. rewrite grown_one_more. lia.
  - assert (Hlen : length [numbered_trade 10000] <= 5000).
    { apply Nat.leb_le. vm_compute. reflexivity. }
    pose proof (new_trade_outlives_cap default_config EnUS.toLocaleString m
                  (numbered_trade 10000)) as H.
    specialize (H (seen_NoDup 10000)).
    cbv zeta in H.
    specialize (H Hlen).
    specialize (H (list_elem_of_here _ _)).
    specialize (H (pretty_fresh 10000)).
    destruct H as (Hhas & Hnew & _).
    split; [exact Hhas|exact Hnew].
Defined.

(** *** The wallet cache stays bounded *)

(** X13. When a run stops, the wallet cache holds at most 1000 entries,
    no wallet twice, and never the empty address (which the eviction of
    the oldest key would not remove). *)
Theorem userStatsCache_bounded :
  forall cfg toLocaleString polls w,
    let cache := userStatsCache (main cfg toLocaleString polls (boot w)).2 in
    JSMap.size cache <= 1000 /\
    NoDup (JSMap.keys cache) /\
    "" ∉ JSMap.keys cache.
Proof.
  intros cfg toLocaleString polls w. cbv zeta.
  destruct (main_cache_ok cfg toLocaleString polls w) as (? & ? & ?). done.
Qed.

(** *** Wallet statistics *)

Lemma filter_Permutation_list {A} (f : A -> bool) (l l' : list A) :
  l ≡ₚ l' -> List.filter f l ≡ₚ List.filter f l'.
Proof.
  induction 1 as [|x l l' _ IH|x y l|l l' l'' _ IH1 _ IH2]; simpl.
  - done.
  - destruct (f x); by rewrite IH.
  - destruct (f x), (f y); try done. apply perm_swap.
  - by rewrite IH1.
Qed.

(** X14. The statistics of a wallet depend neither on the address passed
    nor on the order in which the history lists the records. *)
Theorem calculateUserStats_order_irrelevant :
  forall address address' activities activities',
    activities ≡ₚ activities' ->
    calculateUserStats address activities = calculateUserStats address' activities'.
Proof.
  intros address address' activities activities' Hperm.
  rewrite !calculateUserStats_unfold.
  pose proof (filter_Permutation_list qualifies _ _ Hperm) as Hf.
  f_equal.
  - f_equal. unfold qualifying_markets. apply list_to_set_perm_L.
    by apply fmap_Permutation.
  - by apply Permutation_length.
Qed.

Lemma calculateUserStats_order_irrelevant_witness :
  let a := UserActivity.mk "1" "0xabc" "m1" "trade" None "t1" in
  let b := UserActivity.mk "2" "0xabc" "m2" "redeem" (Some SELL) "t2" in
  calculateUserStats "0xabc" [a; b] = calculateUserStats "" [b; a].
Proof.
  cbv zeta. apply calculateUserStats_order_irrelevant. apply perm_swap.
Defined.

Lemma qualifying_markets_app l1 l2 :
  qualifying_markets (l1 ++ l2)
  = (qualifying_markets l1 ++ qualifying_markets l2)%list.
Proof. unfold qualifying_markets. by rewrite List.filter_app, List.map_app. Qed.

(** X15. The statistics of a history in two parts: the trades counted add
    up; the distinct markets are at least those of either part and at
    most their sum; and a wallet has zero markets exactly when it has zero
    counted trades. *)
Theorem calculateUserStats_app :
  forall address l1 l2,
    let s1 := calculateUserStats address l1 in
    let s2 := calculateUserStats address l2 in
    let s := calculateUserStats address (l1 ++ l2) in
    Stats.totalTrades s = Stats.totalTrades s1 + Stats.totalTrades s2 /\
    Stats.uniqueMarkets s1 <= Stats.uniqueMarkets s /\
    Stats.uniqueMarkets s2 <= Stats.uniqueMarkets s /\
    Stats.uniqueMarkets s <= Stats.uniqueMarkets s1 + Stats.uniqueMarkets s2 /\
    (Stats.uniqueMarkets s = 0 <-> Stats.totalTrades s = 0).
Proof.
  intros address l1 l2. cbv zeta. rewrite !calculateUserStats_unfold.
  cbn [Stats.totalTrades Stats.uniqueMarkets].
  rewrite qualifying_markets_app, List.filter_app, length_app.
  rewrite list_to_set_app_L.
  split_and!.
  - done.
  - apply subseteq_size, union_subseteq_l.
  - apply subseteq_size, union_subseteq_r.
  - rewrite size_union_alt.
    match goal with
    | |- context [size (?Y ∖ ?X)] =>
        assert (size (Y ∖ X) <= size Y)
          by (apply subseteq_size, subseteq_difference_l; done)
    end.
    lia.
  - rewrite <- list_to_set_app_L, <- length_app, <- List.filter_app,
      <- qualifying_markets_app.
    unfold qualifying_markets.
    generalize (List.filter qualifies (l1 ++ l2)). intros l.
    split.
    + intros H0. apply size_empty_inv in H0.
      destruct l as [|a l]; [done|]. exfalso.
      assert (Ha : UserActivity.market a
                   ∈ (list_to_set (List.map UserActivity.market (a :: l)) : gset string)).
      { apply elem_of_list_to_set. by left. }
      rewrite H0 in Ha. by apply elem_of_empty in Ha.
    + intros H0. destruct l; [|done]. apply size_empty.
Qed.

(** *** Trades whose fields do not parse *)

Lemma geb_zero_sign s y : Num.geb (S754_zero s) y = Num.geb Num.zero y.
Proof. by destruct y as [| | |[]]. Qed.

Lemma mul_zero_l x :
  Num.mul Num.zero x = S754_nan \/ exists s, Num.mul Num.zero x = S754_zero s.
Proof. destruct x as [s|s| |s p e]; simpl; eauto. Qed.

Lemma mul_zero_r x :
  Num.mul x Num.zero = S754_nan \/ exists s, Num.mul x Num.zero = S754_zero s.
Proof. destruct x as [s|s| |s p e]; simpl; eauto. Qed.

(** X16. With a minimum above zero, a trade whose price or size does not
    start with a number is worth [0] or [NaN], is not large, is never
    handed to [analyzeTrade], and no poll raises an alert about it. *)
Theorem unparsable_trade_ignored :
  forall cfg toLocaleString trade,
    Num.geb Num.zero (Num.of_Z (MIN_TRADE_SIZE_USD cfg)) = false ->
    ParseFloat.literal (Trade.price trade) = None \/
    ParseFloat.literal (Trade.size trade) = None ->
    (calculateTradeValue trade = Num.NaN \/
     exists s, calculateTradeValue trade = S754_zero s) /\
    is_large cfg (with_value trade) = false /\
    (forall newTrades, with_value trade ∉ aggressiveTrades cfg newTrades) /\
    forall m,
      exists added,
        alerts (trace (pollTrades cfg toLocaleString m).2)
          = (alerts (trace m) ++ added)%list /\
        Forall (fun s => SuspectTrade.trade s <> with_value trade) added.
Proof.
  intros cfg toLocaleString trade Hmin Hbad.
  assert (Hv : calculateTradeValue trade = Num.NaN \/
               exists s, calculateTradeValue trade = S754_zero s).
  { unfold calculateTradeValue, ParseFloat.parseFloat.
    destruct Hbad as [-> | ->].
    - apply mul_zero_l.
    - apply mul_zero_r. }
  assert (Hl : is_large cfg (with_value trade) = false).
  { unfold is_large, with_value. simpl.
    destruct Hv as [-> | [s ->]].
    - unfold Num.geb. by destruct (Num.of_Z _) as [| | |[]].
    - by rewrite geb_zero_sign. }
  assert (Hout : forall newTrades, with_value trade ∉ aggressiveTrades cfg newTrades).
  { intros newTrades Hin. unfold aggressiveTrades in Hin.
    apply list_elem_of_In, filter_In in Hin as [Hin _].
    apply filter_In in Hin as [_ Hlarge]. congruence. }
  split_and!; [done|done|done|].
  intros m.
  destruct (pollTrades_spec cfg toLocaleString m)
    as (_ & _ & _ & _ & suspects & Ha & Hsub).
  cbv zeta in Ha, Hsub. exists suspects. split; [done|].
  apply Forall_forall. intros s Hs Heq.
  assert (Hin : SuspectTrade.trade s ∈ List.map SuspectTrade.trade suspects).
  { apply list_elem_of_In, in_map. by apply list_elem_of_In. }
  apply (elem_of_sublist _ _ _ Hin) in Hsub. rewrite Heq in Hsub.
  by apply Hout in Hsub.
Qed.

Lemma unparsable_trade_ignored_witness :
  let trade := sample_trade "n/a" "100000" in
  let w := mkWorld [Ok [trade]] [Ok []] [] (fun _ => 0%Z) in
  is_large default_config (with_value trade) = false /\
  alerts (trace (pollTrades default_config EnUS.toLocaleString (boot w)).2) = [].
Proof.
  intros trade w.
  destruct (unparsable_trade_ignored default_config EnUS.toLocaleString trade)
    as (_ & Hlarge & _ & Hpoll).
  - vm_compute. reflexivity.
  - left. vm_compute. reflexivity.
  - split; [exact Hlarge|]. vm_compute. reflexivity.
Defined.

(** ** The run-time pipeline on declared replies *)

Lemma agrees_ret {A A'} (g : A -> A') (a : A) : agrees g (mret (g a)) (mret a).
Proof. done. Qed.

Lemma agrees_bind {A A' B B'} (g : A -> A') (h : B -> B')
    (c' : Runtime.M A') (c : M A) (f' : A' -> Runtime.M B') (f : A -> M B) :
  agrees g c' c -> (forall a, agrees h (f' (g a)) (f a)) ->
  agrees h (c' ≫= f') (c ≫= f).
Proof.
  intros Hc Hf m. unfold mbind, Runtime.M_bind, M_bind. cbv zeta.
  rewrite (Hc m). cbn [fst snd]. apply Hf.
Qed.

Lemma agrees_gets {A} (f' : Runtime.Machine -> A) (f : Machine -> A) :
  (forall m, f' (of_machine m) = f m) -> agrees id (Runtime.gets f') (gets f).
Proof. intros H m. unfold Runtime.gets, gets. cbn. by rewrite H. Qed.

Lemma agrees_modify (f' : Runtime.Machine -> Runtime.Machine) (f : Machine -> Machine) :
  (forall m, f' (of_machine m) = of_machine (f m)) ->
  agrees id (Runtime.modify f') (modify f).
Proof. intros H m. unfold Runtime.modify, modify. cbn. by rewrite H. Qed.


Lemma agrees_Date_now : agrees id Runtime.Date_now Date_now.
Proof. done. Qed.


Section RetryDeclared.
Context {R T T' : Type} (endpoint : string).
Variable extract' : Runtime.body R -> option T'.
Variable extract : R -> T.
Variable g : T -> T'.
Hypothesis extract_declared :
  forall data, extract' (Runtime.Declared data) = Some (g (extract data)).

Lemma withRetry_from_declared (replies : list (reply R)) : forall backoff,
  Runtime.withRetry_from endpoint extract' (declared <$> replies) backoff =
    let r := withRetry_from endpoint extract replies backoff in
    (g <$> r.1.1.1, declared <$> r.1.1.2, r.1.2, r.2).
Proof.
  induction replies as [|[data| |] rest IH]; intros backoff; cbv zeta.
  - done.
  - cbn. by rewrite extract_declared.
  - cbn [fmap list_fmap declared Runtime.withRetry_from withRetry_from].
    cbv zeta. rewrite IH. done.
  - done.
Qed.
End RetryDeclared.


Lemma agrees_fetchUserActivity address :
  agrees Runtime.Declared (Runtime.fetchUserActivity address)
    (fetchUserActivity address).
Proof.
  intros m. rewrite fetchUserActivity_eq. cbv zeta.
  unfold Runtime.fetchUserActivity, Runtime.emit, Runtime.modify, Runtime.withRetry.
  unfold mbind, Runtime.M_bind, mret, Runtime.M_ret. cbn.
  rewrite (withRetry_from_declared "/activity" Some
             (fun data : list UserActivity.t => data)
             Runtime.Declared (fun _ => eq_refl)).
  cbv zeta. cbn [fst snd].
  destruct (withRetry_from "/activity" (fun data : list UserActivity.t => data)
              (activity_api (world m)) (currentBackoff m)) as [[[res left] backoff] evs].
  cbn. by destruct res.
Qed.

Lemma agrees_fetchMarketDetails conditionId :
  agrees id (Runtime.fetchMarketDetails conditionId) (fetchMarketDetails conditionId).
Proof.
  intros m. rewrite fetchMarketDetails_eq. cbv zeta.
  unfold Runtime.fetchMarketDetails, Runtime.emit, Runtime.modify, Runtime.withRetry.
  unfold mbind, Runtime.M_bind, mret, Runtime.M_ret. cbn.
  rewrite (withRetry_from_declared "/markets" Runtime.first_market
             (fun data : list Market.t => head data) id (fun _ => eq_refl)).
  cbv zeta. cbn [fst snd].
  destruct (withRetry_from "/markets" (fun data : list Market.t => head data)
              (markets_api (world m)) (currentBackoff m)) as [[[res left] backoff] evs].
  cbn. by destruct res.
Qed.

Lemma agrees_refreshUserStats walletAddress now :
  agrees id (Runtime.refreshUserStats walletAddress now)
    (refreshUserStats walletAddress now).
Proof.
  unfold Runtime.refreshUserStats, refreshUserStats.
  eapply agrees_bind; [apply agrees_fetchUserActivity|].
  intros activities. cbn [Runtime.calculateUserStats].
  intros m. unfold mbind, Runtime.M_bind, M_bind, mret, Runtime.M_ret, M_ret.
  done.
Qed.

Lemma agrees_lookupUserStats walletAddress :
  agrees id (Runtime.lookupUserStats walletAddress) (lookupUserStats walletAddress).
Proof.
  unfold Runtime.lookupUserStats, lookupUserStats.
  eapply agrees_bind; [by apply agrees_gets|]. intros cached.
  eapply agrees_bind; [apply agrees_Date_now|]. intros now. unfold id.
  destruct cached as [c|]; [|apply agrees_refreshUserStats].
  destruct (_ <? _)%Z; [apply (agrees_ret id)|apply agrees_refreshUserStats].
Qed.

Lemma agrees_lookupMarket conditionId :
  agrees id (Runtime.lookupMarket conditionId) (lookupMarket conditionId).
Proof.
  unfold Runtime.lookupMarket, lookupMarket.
  eapply agrees_bind; [by apply agrees_gets|]. intros cached. unfold id.
  destruct cached as [market|]; [apply (agrees_ret id)|].
  eapply agrees_bind; [apply agrees_fetchMarketDetails|]. intros market. unfold id.
  eapply agrees_bind; [by apply agrees_modify|]. intros _.
  apply (agrees_ret id).
Qed.

Section Agreement.
Variable cfg : Config.
Variable toLocaleString : Num.number -> string.
Variable Date_valid : string -> bool.

Lemma agrees_analyzeTrade trade :
  agrees id (Runtime.analyzeTrade cfg toLocaleString trade)
    (analyzeTrade cfg toLocaleString trade).
Proof.
  unfold Runtime.analyzeTrade, analyzeTrade.
  destruct (String.eqb _ _); [apply (agrees_ret id)|].
  eapply agrees_bind; [apply agrees_lookupUserStats|]. intros userStats. unfold id.
  destruct (_ <=? _)%Z; [|apply (agrees_ret id)].
  eapply agrees_bind; [apply agrees_lookupMarket|]. intros market. unfold id.
  destruct (classify _ _ _). apply (agrees_ret id).
Qed.


Hypothesis dates_valid :
  DISCORD_WEBHOOK_URL cfg = "" \/ forall s, Date_valid s = true.






End Agreement.


(** ** What the run-time pipeline does when a body is malformed *)











Section RuntimeRetry.
Context {R T : Type} (endpoint : string) (extract : Runtime.body R -> option T).

End RuntimeRetry.

Lemma runtime_withRetry_from_outcome {R} endpoint
    (replies : list (reply (Runtime.body R))) : forall backoff,
  (Runtime.withRetry_from endpoint Some replies backoff).1.1.1 = outcome replies.
Proof.
  induction replies as [|[data| |] rest IH]; intros backoff; try done.
  simpl. apply IH.
Qed.








(** The market lookup throws nothing, whatever the markets endpoint
    sends. *)
Lemma lookupMarket_normal conditionId m :
  exists market, (Runtime.lookupMarket conditionId m).1 = Runtime.Normal market.
Proof.
  unfold Runtime.lookupMarket, Runtime.fetchMarketDetails, Runtime.gets,
    Runtime.emit, Runtime.modify, Runtime.withRetry.
  unfold mbind, Runtime.M_bind, mret, Runtime.M_ret. cbn.
  destruct (Runtime.marketCache m !! conditionId); cbn; by eexists.
Qed.

Section RuntimeCycle.
Variable cfg : Config.
Variable toLocaleString : Num.number -> string.
Variable Date_valid : string -> bool.









End RuntimeCycle.

Lemma summaries_net evs : forallb is_net_event evs = true -> summaries evs = [].
Proof. intros H. by destruct (net_events_silent evs H) as (_ & _ & ? & _). Qed.




Section RuntimeRuns.
Variable cfg : Config.
Variable toLocaleString : Num.number -> string.
Variable Date_valid : string -> bool.




End RuntimeRuns.




(** ** A wallet history that fails to load, at run time *)

Lemma runtime_analyzeTrade_unfold cfg toLocaleString trade m :
  Trade.owner trade <> "" ->
  Runtime.analyzeTrade cfg toLocaleString trade m =
    let u := Runtime.lookupUserStats (Trade.owner trade) m in
    match u.1 with
    | Runtime.Normal userStats =>
        if (Z.of_nat (Stats.uniqueMarkets userStats) <=? MAX_UNIQUE_MARKETS cfg)%Z
        then
          let k := Runtime.lookupMarket (Trade.market trade) u.2 in
          let c := classify toLocaleString (Stats.uniqueMarkets userStats)
                     (Trade.valueUsd_or_zero trade) in
          match k.1 with
          | Runtime.Normal market =>
              (Runtime.Normal (Some
                 {| SuspectTrade.trade := trade;
                    SuspectTrade.userStats :=
                      {| UserStats.address := Trade.owner trade;
                         UserStats.uniqueMarkets := Stats.uniqueMarkets userStats;
                         UserStats.totalTrades := Stats.totalTrades userStats;
                         UserStats.activities := [] |};
                    SuspectTrade.market := market;
                    SuspectTrade.reason := Str.join " | " c.2;
                    SuspectTrade.alertLevel := c.1 |}), k.2)
          | Runtime.Thrown => (Runtime.Thrown, k.2)
          end
        else (Runtime.Normal None, u.2)
    | Runtime.Thrown => (Runtime.Thrown, u.2)
    end.
Proof.
  intros Howner. cbv zeta. unfold Runtime.analyzeTrade.
  destruct (String.eqb_spec (Trade.owner trade) "") as [?|_]; [done|].
  unfold mbind, Runtime.M_bind, mret, Runtime.M_ret. cbv zeta.
  destruct (Runtime.lookupUserStats _ m).1 as [userStats|]; [|done].
  destruct (Z.of_nat _ <=? _)%Z; [|done].
  destruct (Runtime.lookupMarket _ _).1 as [market|]; [|done].
  by destruct (classify _ _ _).
Qed.

(** The lookup of a wallet with no fresh cache entry, by what the
    activity endpoint ends up sending. *)
Lemma runtime_lookupUserStats_miss walletAddress m :
  Runtime.fresh_entry walletAddress m = None ->
  (Runtime.lookupUserStats walletAddress m).1 =
    match Runtime.or_empty (outcome (Runtime.activity_api (Runtime.world m))) with
    | Runtime.Declared activities =>
        Runtime.Normal (calculateUserStats walletAddress activities)
    | _ => Runtime.Thrown
    end.
Proof.
  intros Hmiss. unfold Runtime.lookupUserStats, Runtime.gets, Runtime.Date_now.
  unfold mbind at 1 2, Runtime.M_bind at 1 2. cbv zeta. cbn [fst snd].
  assert (Hrefresh :
    (Runtime.refreshUserStats walletAddress
       (Runtime.clock (Runtime.world m) (Runtime.ticks m))
       (Runtime.set_ticks (S (Runtime.ticks m)) m)).1 =
    match Runtime.or_empty (outcome (Runtime.activity_api (Runtime.world m))) with
    | Runtime.Declared activities =>
        Runtime.Normal (calculateUserStats walletAddress activities)
    | _ => Runtime.Thrown
    end).
  { unfold Runtime.refreshUserStats, Runtime.fetchUserActivity, Runtime.emit,
      Runtime.modify, Runtime.withRetry, Runtime.calculateUserStats, Runtime.throw.
    unfold mbind, Runtime.M_bind, mret, Runtime.M_ret. cbn.
    rewrite runtime_withRetry_from_outcome.
    by destruct (Runtime.or_empty _). }
  unfold Runtime.fresh_entry in Hmiss.
  destruct (JSMap.get walletAddress (Runtime.userStatsCache m)) as [c|]; [|done].
  by destruct (_ <? _)%Z.
Qed.

(** C8, as stated (with its source, which counts a malformed payload among
    the failures), fails: when the activity endpoint answers 200 with an
    object that is no list, [fetchUserActivity] hands the body on, the
    statistics loop throws, and the poll that caught it raises no alert:
    the trade is skipped, and its identifier stays in the processed set. *)
Lemma analyzeTrade_malformed_body_counterexample :
  ~ (forall (m : Runtime.Machine) trade (answer : reply (Runtime.body (list UserActivity.t))),
       Trade.owner trade <> "" ->
       Runtime.fresh_entry (Trade.owner trade) m = None ->
       Runtime.activity_api (Runtime.world m) = [answer] ->
       answer <> Status429 ->
       (forall activities, answer <> Ok (Runtime.Declared activities)) ->
       (Runtime.fetchUserActivity (Trade.owner trade) m).1
         = Runtime.Normal (Runtime.Declared []) /\
       exists suspect,
         (Runtime.analyzeTrade default_config EnUS.toLocaleString trade m).1
           = Runtime.Normal (Some suspect)).
Proof.
  intros H.
  destruct (H (Runtime.boot (Runtime.mkWorld [] [Ok Runtime.NotArray] [] (fun _ => 0%Z)))
              (with_value (sample_trade "0.5" "3000")) (Ok Runtime.NotArray))
    as [_ [suspect Hsuspect]].
  - discriminate.
  - reflexivity.
  - reflexivity.
  - discriminate.
  - intros activities. discriminate.
  - vm_compute in Hsuspect. discriminate Hsuspect.
Qed.

Example pollTrades_malformed_body_skips :
  let w := Runtime.mkWorld [Ok (Runtime.Declared [sample_trade "0.5" "3000"])]
             [Ok Runtime.NotArray] [] (fun _ => 0%Z) in
  let r := Runtime.pollTrades default_config EnUS.toLocaleString (fun _ => true)
             (Runtime.boot w) in
  r.1 = Runtime.Normal tt /\
  Runtime.trace r.2 =
    [Call FetchRecentTrades; Request "/trades";
     Call (FetchUserActivity "0x31a56e9E690c621eD21De08Cb559e9524Cdb8eD9");
     Request "/activity"; PollError] /\
  Runtime.processedTradeIds r.2 = ["0xf1a2"].
Proof. vm_compute. done. Qed.

(** On declared replies: when the activity fetch for a trade's wallet
    ends in a failure that is not a 429 (after any number of 429s),
    [fetchUserActivity] returns the empty list and, with a ceiling of 0 or
    more, [analyzeTrade] flags the trade, at the HIGH tier. *)
Lemma analyzeTrade_failed_fetch_declared :
  forall cfg toLocaleString trade m,
    Trade.owner trade <> "" ->
    (0 <= MAX_UNIQUE_MARKETS cfg)%Z ->
    fresh_entry (Trade.owner trade) m = None ->
    outcome (activity_api (world m)) = None ->
    (fetchUserActivity (Trade.owner trade) m).1 = [] /\
    calculateUserStats (Trade.owner trade) [] =
      {| Stats.uniqueMarkets := 0; Stats.totalTrades := 0 |} /\
    exists suspect,
      (analyzeTrade cfg toLocaleString trade m).1 = Some suspect /\
      UserStats.uniqueMarkets (SuspectTrade.userStats suspect) = 0 /\
      UserStats.totalTrades (SuspectTrade.userStats suspect) = 0 /\
      SuspectTrade.alertLevel suspect = HIGH.
Proof.
  intros cfg toLocaleString trade m Howner Hmax Hmiss Hfail.
  split_and!.
  - unfold fetchUserActivity, withRetry, emit, modify.
    unfold mbind, M_bind, mret, M_ret. simpl.
    rewrite withRetry_from_outcome, Hfail. done.
  - reflexivity.
  - rewrite analyzeTrade_unfold by done. cbv zeta.
    rewrite (lookupUserStats_miss _ _ Hmiss).
    destruct (refreshUserStats_spec (Trade.owner trade) (clock (world m) (ticks m))
                (set_ticks (S (ticks m)) m)) as (Hres & _).
    cbv zeta in Hres.
    change (world (set_ticks (S (ticks m)) m)) with (world m) in Hres.
    rewrite Hfail in Hres. rewrite Hres.
    change (calculateUserStats (Trade.owner trade) (default [] None))
      with {| Stats.uniqueMarkets := 0; Stats.totalTrades := 0 |}.
    simpl Stats.uniqueMarkets. simpl Stats.totalTrades.
    destruct (Z.leb_spec (Z.of_nat 0) (MAX_UNIQUE_MARKETS cfg)); [|lia].
    eexists. split; [reflexivity|]. simpl. split_and!; try done.
    unfold classify. simpl. by destruct (Num.geb _ _).
Qed.

(** C8, amended. When the activity request for a trade's wallet ends in
    an error the HTTP client throws that is not a 429 (after any number of
    429s), or in a reply whose body is [null], [fetchUserActivity] returns
    the empty list, the stats are 0 markets and 0 trades, and with a
    ceiling of 0 or more [analyzeTrade] flags the trade, at the HIGH tier,
    whatever the markets endpoint then sends.  When it ends in a reply
    whose body is no list and cannot be iterated, [fetchUserActivity]
    returns that body and [analyzeTrade] throws.  On declared replies a
    failure is the only way not to get a list, and the trade is flagged. *)
Theorem analyzeTrade_failed_fetch_flags :
  forall cfg toLocaleString trade (m : Runtime.Machine),
    Trade.owner trade <> "" ->
    (0 <= MAX_UNIQUE_MARKETS cfg)%Z ->
    Runtime.fresh_entry (Trade.owner trade) m = None ->
    let answer := outcome (Runtime.activity_api (Runtime.world m)) in
    (answer = None \/ answer = Some Runtime.Null ->
     (Runtime.fetchUserActivity (Trade.owner trade) m).1
       = Runtime.Normal (Runtime.Declared []) /\
     calculateUserStats (Trade.owner trade) [] =
       {| Stats.uniqueMarkets := 0; Stats.totalTrades := 0 |} /\
     exists suspect,
       (Runtime.analyzeTrade cfg toLocaleString trade m).1
         = Runtime.Normal (Some suspect) /\
       SuspectTrade.trade suspect = trade /\
       UserStats.uniqueMarkets (SuspectTrade.userStats suspect) = 0 /\
       UserStats.totalTrades (SuspectTrade.userStats suspect) = 0 /\
       SuspectTrade.alertLevel suspect = HIGH) /\
    (answer = Some Runtime.NotArray ->
     (Runtime.fetchUserActivity (Trade.owner trade) m).1
       = Runtime.Normal Runtime.NotArray /\
     (Runtime.analyzeTrade cfg toLocaleString trade m).1 = Runtime.Thrown) /\
    (forall m' : Machine,
       fresh_entry (Trade.owner trade) m' = None ->
       outcome (activity_api (world m')) = None ->
       (fetchUserActivity (Trade.owner trade) m').1 = [] /\
       Runtime.analyzeTrade cfg toLocaleString trade (of_machine m')
         = (Runtime.Normal (analyzeTrade cfg toLocaleString trade m').1,
            of_machine (analyzeTrade cfg toLocaleString trade m').2) /\
       exists suspect,
         (analyzeTrade cfg toLocaleString trade m').1 = Some suspect /\
         SuspectTrade.alertLevel suspect = HIGH).
Proof.
  intros cfg toLocaleString trade m Howner Hmax Hmiss. cbv zeta.
  assert (Hfetch : (Runtime.fetchUserActivity (Trade.owner trade) m).1 =
                   Runtime.Normal
                     (Runtime.or_empty
                        (outcome (Runtime.activity_api (Runtime.world m))))).
  { unfold Runtime.fetchUserActivity, Runtime.emit, Runtime.modify, Runtime.withRetry.
    unfold mbind, Runtime.M_bind, mret, Runtime.M_ret. cbn.
    by rewrite runtime_withRetry_from_outcome. }
  rewrite Hfetch, runtime_analyzeTrade_unfold by done. cbv zeta.
  rewrite (runtime_lookupUserStats_miss _ _ Hmiss).
  split_and!.
  - intros Hfail.
    assert (Hempty : Runtime.or_empty
                       (outcome (Runtime.activity_api (Runtime.world m)))
                     = Runtime.Declared []) by (destruct Hfail as [-> | ->]; done).
    rewrite Hempty. split_and!; [done|reflexivity|]. cbv iota.
    change (calculateUserStats (Trade.owner trade) [])
      with {| Stats.uniqueMarkets := 0; Stats.totalTrades := 0 |}.
    cbn [Stats.uniqueMarkets Stats.totalTrades].
    destruct (Z.leb_spec (Z.of_nat 0) (MAX_UNIQUE_MARKETS cfg)); [|lia].
    destruct (lookupMarket_normal (Trade.market trade)
                (Runtime.lookupUserStats (Trade.owner trade) m).2) as [market Hk].
    rewrite Hk. eexists. split; [reflexivity|]. cbn. split_and!; try done.
    unfold classify. cbn. by destruct (Num.geb _ _).
  - intros ->. done.
  - intros m' Hmiss' Hfail'.
    destruct (analyzeTrade_failed_fetch_declared cfg toLocaleString trade m'
                Howner Hmax Hmiss' Hfail')
      as (Hempty & _ & suspect & Hs & _ & _ & Hl).
    split_and!; [done|apply (agrees_analyzeTrade cfg toLocaleString trade m')|].
    by exists suspect.
Qed.

Lemma analyzeTrade_failed_fetch_flags_witness :
  let trade := Trade.with_valueUsd (sample_trade "0.5" "3000") (Num.of_Z 1500) in
  let failing := {| Runtime.trades_api := [];
                    Runtime.activity_api := [Status429; Failure];
                    Runtime.markets_api := [Ok Runtime.Null];
                    Runtime.clock := fun _ => 1735689600000%Z |} in
  let malformed := {| Runtime.trades_api := [];
                      Runtime.activity_api := [Status429; Ok Runtime.NotArray];
                      Runtime.markets_api := [];
                      Runtime.clock := fun _ => 1735689600000%Z |} in
  (exists suspect,
     (Runtime.analyzeTrade default_config EnUS.toLocaleString trade
        (Runtime.boot failing)).1 = Runtime.Normal (Some suspect) /\
     UserStats.uniqueMarkets (SuspectTrade.userStats suspect) = 0 /\
     UserStats.totalTrades (SuspectTrade.userStats suspect) = 0 /\
     SuspectTrade.alertLevel suspect = HIGH) /\
  (Runtime.analyzeTrade default_config EnUS.toLocaleString trade
     (Runtime.boot malformed)).1 = Runtime.Thrown /\
  (exists suspect,
     (analyzeTrade default_config EnUS.toLocaleString trade
        (boot (mkWorld [] [Status429; Failure] []
                 (fun _ => 1735689600000%Z)))).1 = Some suspect /\
     SuspectTrade.alertLevel suspect = HIGH).
Proof.
  intros trade failing malformed.
  assert (Howner : Trade.owner trade <> "") by discriminate.
  assert (Hmax : (0 <= MAX_UNIQUE_MARKETS default_config)%Z) by (simpl; lia).
  split_and!.
  - destruct (analyzeTrade_failed_fetch_flags default_config EnUS.toLocaleString
                trade (Runtime.boot failing) Howner Hmax eq_refl) as (Hflag & _ & _).
    destruct (Hflag (or_introl eq_refl))
      as (_ & _ & suspect & Hs & _ & Hu & Ht & Hl).
    by exists suspect.
  - destruct (analyzeTrade_failed_fetch_flags default_config EnUS.toLocaleString
                trade (Runtime.boot malformed) Howner Hmax eq_refl)
      as (_ & Hthrow & _).
    by destruct (Hthrow eq_refl).
  - destruct (analyzeTrade_failed_fetch_flags default_config EnUS.toLocaleString
                trade (Runtime.boot failing) Howner Hmax eq_refl)
      as (_ & _ & Htyped).
    by destruct (Htyped (boot (mkWorld [] [Status429; Failure] []
                                 (fun _ => 1735689600000%Z)))
                   eq_refl eq_refl) as (_ & _ & Hs).
Defined.



